(** * posthog-context-capture: query construction and response shaping

    A shallow embedding of the transport client of the repository.  The
    repository carries the client twice:
      - [src/client.ts], whose operations quote free text with an inline
        [replace(/'/g, "\\'")] and parse property columns with a bare
        [JSON.parse] (module [ClientTs] below);
      - the client stored behind [src/mcp-server.ts], which goes through
        [escapeHogQLString] and [safeParseJson] (module [EscapingClient]).
    Strings are byte strings, JavaScript numbers that the code computes with
    are integer-valued doubles, [Date] objects are optional time values, and
    the effects of the code (clock reads, HTTP requests, console output) are
    threaded through an explicit world. *)

From Stdlib Require Import ZArith Bool List Ascii String Lia.
Import ListNotations.

Open Scope string_scope.
Open Scope Z_scope.

(** ** JavaScript strings *)

Module JsString.

Definition backslash : ascii := "\"%char.
Definition quote : ascii := "'"%char.
Definition NUL : ascii := "000"%char.
Definition LF : ascii := "010"%char.
Definition CR : ascii := "013"%char.
Definition TAB : ascii := "009"%char.
Definition dquote : ascii := "034"%char.

Definition str (c : ascii) : string := String c EmptyString.

(** The line break of a template literal. *)
Definition nl : string := str LF.

(** [s.replace(/c/g, rep)] for a pattern that is one character: every
    occurrence is replaced, left to right, and the replacement text is not
    scanned again. *)
Fixpoint replaceAll (c : ascii) (rep : string) (s : string) : string :=
  match s with
  | EmptyString => EmptyString
  | String a s' =>
      if Ascii.eqb a c then rep ++ replaceAll c rep s'
      else String a (replaceAll c rep s')
  end.

(** [s.replace(c, rep)] for a pattern that is a one-character string: only
    the first occurrence is replaced. *)
Fixpoint replaceFirst (c : ascii) (rep : string) (s : string) : string :=
  match s with
  | EmptyString => EmptyString
  | String a s' =>
      if Ascii.eqb a c then rep ++ s'
      else String a (replaceFirst c rep s')
  end.

(** [parts.join(sep)] *)
Fixpoint join (sep : string) (parts : list string) : string :=
  match parts with
  | [] => EmptyString
  | [p] => p
  | p :: ps => p ++ sep ++ join sep ps
  end.

(** [t.includes(s)] *)
Fixpoint includes (s t : string) : bool :=
  String.prefix s t
  || match t with
     | EmptyString => false
     | String _ t' => includes s t'
     end.

(** Truthiness of a string: only the empty string is falsy. *)
Definition truthy (s : string) : bool :=
  match s with
  | EmptyString => false
  | String _ _ => true
  end.

(** [s] occurs in [t] as a contiguous run of characters. *)
Definition occursIn (s t : string) : Prop :=
  exists pre post, t = pre ++ s ++ post.

End JsString.
Import JsString.

(** ** String escaping for query literals *)

(** [escapeHogQLString], the client behind [src/mcp-server.ts]: six global
    replacements applied one after the other. *)
Definition escapeHogQLString (value : string) : string :=
  replaceAll TAB "\t"
    (replaceAll CR "\r"
      (replaceAll LF "\n"
        (replaceAll NUL "\0"
          (replaceAll quote "\'"
            (replaceAll backslash "\\" value))))).

(** The inline quoting of [src/client.ts]: [value.replace(/'/g, "\\'")]. *)
Definition replaceQuotes (value : string) : string :=
  replaceAll quote "\'" value.

(** What the six passes do to one character. *)
Definition escapeChar (c : ascii) : string :=
  if Ascii.eqb c backslash then "\\"
  else if Ascii.eqb c quote then "\'"
  else if Ascii.eqb c NUL then "\0"
  else if Ascii.eqb c LF then "\n"
  else if Ascii.eqb c CR then "\r"
  else if Ascii.eqb c TAB then "\t"
  else str c.

Fixpoint escapeOnePass (s : string) : string :=
  match s with
  | EmptyString => EmptyString
  | String c s' => escapeChar c ++ escapeOnePass s'
  end.

(** Reading a single-quoted literal of the query language back: [readLiteral]
    consumes the text that follows an opening quote up to the first quote
    that no backslash protects, decodes the two-character escapes on the way,
    and returns the decoded content with the text after the closing quote. *)
Definition unescapeChar (e : ascii) : option ascii :=
  if Ascii.eqb e backslash then Some backslash
  else if Ascii.eqb e quote then Some quote
  else if Ascii.eqb e "0"%char then Some NUL
  else if Ascii.eqb e "n"%char then Some LF
  else if Ascii.eqb e "r"%char then Some CR
  else if Ascii.eqb e "t"%char then Some TAB
  else None.

Fixpoint readLiteral (s : string) : option (string * string) :=
  match s with
  | EmptyString => None
  | String c s' =>
      if Ascii.eqb c quote then Some (EmptyString, s')
      else if Ascii.eqb c backslash then
        match s' with
        | EmptyString => None
        | String e s'' =>
            match unescapeChar e, readLiteral s'' with
            | Some d, Some (content, rest) => Some (String d content, rest)
            | _, _ => None
            end
        end
      else
        match readLiteral s' with
        | Some (content, rest) => Some (String c content, rest)
        | None => None
        end
  end.

(** A quote of [s] that no backslash protects, or a backslash left dangling
    at the end of [s] (which would protect the closing quote). *)
Fixpoint breaksLiteral (s : string) : bool :=
  match s with
  | EmptyString => false
  | String c s' =>
      if Ascii.eqb c quote then true
      else if Ascii.eqb c backslash then
        match s' with
        | EmptyString => true
        | String _ s'' => breaksLiteral s''
        end
      else breaksLiteral s'
  end.

(** ** JavaScript numbers

    The numbers the client computes with are integers (digit strings read by
    [parseInt], clock fields, products and differences of those), so a number
    is modelled by its integer value when it is finite; every arithmetic
    result is rounded to the nearest double (ties to even). *)

Module JsNumber.

Inductive Num : Type :=
| Fin (z : Z)
| PosInf
| NegInf
| NaN.

Definition two53 : Z := 9007199254740992.

(** Nearest double of an integer. *)
Definition rnd (z : Z) : Num :=
  let a := Z.abs z in
  if a <? two53 then Fin z
  else
    let e := Z.log2 a - 52 in
    let q := a / 2 ^ e in
    let r := a mod 2 ^ e in
    let half := 2 ^ (e - 1) in
    let q' := if r <? half then q
              else if half <? r then q + 1
              else if Z.even q then q else q + 1 in
    let m := q' * 2 ^ e in
    if 2 ^ 1024 <=? m then (if z <? 0 then NegInf else PosInf)
    else Fin (Z.sgn z * m).

Definition Nneg (a : Num) : Num :=
  match a with
  | Fin z => Fin (- z)
  | PosInf => NegInf
  | NegInf => PosInf
  | NaN => NaN
  end.

Definition Nadd (a b : Num) : Num :=
  match a, b with
  | NaN, _ | _, NaN => NaN
  | Fin x, Fin y => rnd (x + y)
  | PosInf, NegInf | NegInf, PosInf => NaN
  | PosInf, _ | _, PosInf => PosInf
  | NegInf, _ | _, NegInf => NegInf
  end.

Definition Nsub (a b : Num) : Num := Nadd a (Nneg b).

Definition Nmul (a b : Num) : Num :=
  match a, b with
  | NaN, _ | _, NaN => NaN
  | Fin x, Fin y => rnd (x * y)
  | Fin x, PosInf | PosInf, Fin x =>
      if x =? 0 then NaN else if x <? 0 then NegInf else PosInf
  | Fin x, NegInf | NegInf, Fin x =>
      if x =? 0 then NaN else if x <? 0 then PosInf else NegInf
  | PosInf, PosInf | NegInf, NegInf => PosInf
  | PosInf, NegInf | NegInf, PosInf => NegInf
  end.

Definition isDigit (c : ascii) : bool :=
  let n := Z.of_nat (nat_of_ascii c) in (48 <=? n) && (n <=? 57).

Definition digitValue (c : ascii) : Z := Z.of_nat (nat_of_ascii c) - 48.

(** Value of the leading run of decimal digits of [s], read left to right
    onto the accumulator [acc]. *)
Fixpoint digitsValue (acc : Z) (s : string) : Z :=
  match s with
  | EmptyString => acc
  | String c s' =>
      if isDigit c then digitsValue (10 * acc + digitValue c) s' else acc
  end.

(** [parseInt(s, 10)] on a string that starts with a digit (the only strings
    the client passes): the integer the leading digits denote, as a double. *)
Definition parseInt10 (s : string) : Num :=
  match s with
  | EmptyString => NaN
  | String c _ => if isDigit c then rnd (digitsValue 0 s) else NaN
  end.

Definition digitChar (d : Z) : ascii := ascii_of_nat (Z.to_nat (48 + d)).

Fixpoint decimalDigits (fuel : nat) (z : Z) (acc : string) : string :=
  let acc' := String (digitChar (z mod 10)) acc in
  match fuel with
  | O => acc'
  | S fuel' => if z / 10 =? 0 then acc' else decimalDigits fuel' (z / 10) acc'
  end.

(** Decimal text of an integer, as a template literal prints a number that
    is an integer below 10^21 in absolute value. *)
Definition decimal (z : Z) : string :=
  if z <? 0 then "-" ++ decimalDigits (Z.to_nat (Z.log2 (- z))) (- z) ""
  else decimalDigits (Z.to_nat (Z.log2 z)) z "".

(** The [w] low decimal digits of [z], zero padded. *)
Fixpoint padded (w : nat) (z : Z) : string :=
  match w with
  | O => EmptyString
  | S w' => padded w' (z / 10) ++ str (digitChar (z mod 10))
  end.

End JsNumber.
Import JsNumber.

(** ** Dates and times, after the ECMAScript definitions *)

Module JsDate.

Definition msPerSecond : Z := 1000.
Definition msPerMinute : Z := 60000.
Definition msPerHour : Z := 3600000.
Definition msPerDay : Z := 86400000.
Definition maxTime : Z := 8640000000000000.

Definition Day (t : Z) : Z := t / msPerDay.
Definition TimeWithinDay (t : Z) : Z := t mod msPerDay.

Definition DaysInYear (y : Z) : Z :=
  if negb (y mod 4 =? 0) then 365
  else if negb (y mod 100 =? 0) then 366
  else if negb (y mod 400 =? 0) then 365
  else 366.

Definition DayFromYear (y : Z) : Z :=
  365 * (y - 1970) + (y - 1969) / 4 - (y - 1901) / 100 + (y - 1601) / 400.

Definition TimeFromYear (y : Z) : Z := msPerDay * DayFromYear y.

(** The year of day number [d]: the largest [y] with [DayFromYear y <= d],
    found from the mean length of a year and corrected by at most one. *)
Definition YearFromDay (d : Z) : Z :=
  let y := 1970 + (400 * d) / 146097 in
  if DayFromYear (y + 1) <=? d then y + 1
  else if DayFromYear y <=? d then y
  else y - 1.

Definition YearFromTime (t : Z) : Z := YearFromDay (Day t).

Definition InLeapYear (t : Z) : Z :=
  if DaysInYear (YearFromTime t) =? 366 then 1 else 0.

Definition DayWithinYear (t : Z) : Z := Day t - DayFromYear (YearFromTime t).

(** Day number, within its year, of the first day of month [m] (0 to 11). *)
Definition monthStart (m leap : Z) : Z :=
  if m =? 0 then 0
  else if m =? 1 then 31
  else if m =? 2 then 59 + leap
  else if m =? 3 then 90 + leap
  else if m =? 4 then 120 + leap
  else if m =? 5 then 151 + leap
  else if m =? 6 then 181 + leap
  else if m =? 7 then 212 + leap
  else if m =? 8 then 243 + leap
  else if m =? 9 then 273 + leap
  else if m =? 10 then 304 + leap
  else 334 + leap.

Definition MonthFromTime (t : Z) : Z :=
  let d := DayWithinYear t in
  let leap := InLeapYear t in
  if d <? 31 then 0
  else if d <? 59 + leap then 1
  else if d <? 90 + leap then 2
  else if d <? 120 + leap then 3
  else if d <? 151 + leap then 4
  else if d <? 181 + leap then 5
  else if d <? 212 + leap then 6
  else if d <? 243 + leap then 7
  else if d <? 273 + leap then 8
  else if d <? 304 + leap then 9
  else if d <? 334 + leap then 10
  else 11.

Definition DateFromTime (t : Z) : Z :=
  DayWithinYear t - monthStart (MonthFromTime t) (InLeapYear t) + 1.

Definition HourFromTime (t : Z) : Z := (t / msPerHour) mod 24.
Definition MinFromTime (t : Z) : Z := (t / msPerMinute) mod 60.
Definition SecFromTime (t : Z) : Z := (t / msPerSecond) mod 60.
Definition msFromTime (t : Z) : Z := t mod msPerSecond.

(** [MakeTime], [MakeDay] and [MakeDate] compute with doubles. *)
Definition MakeTime (hour min sec ms : Num) : Num :=
  match hour, min, sec, ms with
  | Fin _, Fin _, Fin _, Fin _ =>
      Nadd (Nadd (Nadd (Nmul hour (Fin msPerHour)) (Nmul min (Fin msPerMinute)))
                 (Nmul sec (Fin msPerSecond))) ms
  | _, _, _, _ => NaN
  end.

(** [MakeDay]: the day number of the first day of month [month] of [year]
    (months outside 0..11 carry into the year), moved by [date - 1] days. *)
Definition MakeDay (year month date : Num) : Num :=
  match year, month, date with
  | Fin y, Fin m, Fin dt =>
      let ym := y + m / 12 in
      let mn := m mod 12 in
      let leap := if DaysInYear ym =? 366 then 1 else 0 in
      Nsub (Nadd (Fin (DayFromYear ym + monthStart mn leap)) (Fin dt)) (Fin 1)
  | _, _, _ => NaN
  end.

Definition MakeDate (day time : Num) : Num :=
  match day, time with
  | Fin _, Fin _ => Nadd (Nmul day (Fin msPerDay)) time
  | _, _ => NaN
  end.

(** A [Date] object holds a time value: an integer number of milliseconds
    within [maxTime] of the epoch, or NaN ("Invalid Date"). *)
Inductive Date : Type :=
| InvalidDate
| TimeValue (t : Z).

Definition TimeClip (time : Num) : Date :=
  match time with
  | Fin t => if Z.abs t <=? maxTime then TimeValue t else InvalidDate
  | _ => InvalidDate
  end.

(** [date.getTime()] *)
Definition getTime (d : Date) : Num :=
  match d with
  | TimeValue t => Fin t
  | InvalidDate => NaN
  end.

End JsDate.
Import JsDate.

(** ** JSON values, requests, responses and the host *)

#[local] Set Warnings "-register-all".

Inductive json : Type :=
| JNull
| JBool (b : bool)
| JNum (lexeme : string)
| JStr (s : string)
| JArr (items : list json)
| JObj (members : list (string * json)).

(** [typeof v === "object" && v !== null && !Array.isArray(v)] *)
Definition isPlainObject (v : json) : bool :=
  match v with
  | JObj _ => true
  | _ => false
  end.

(** Property read on the members of an object; a key written twice keeps
    its last value. *)
Fixpoint getField (key : string) (members : list (string * json)) : option json :=
  match members with
  | [] => None
  | (k, v) :: rest =>
      match getField key rest with
      | Some v' => Some v'
      | None => if String.eqb k key then Some v else None
      end
  end.

Record Request : Type := mkRequest {
  url : string;
  method : string;
  headers : list (string * string);
  body : string
}.

Record Response : Type := mkResponse {
  status : Z;
  text : string
}.

(** [response.ok]: the status is in the range 200-299. *)
Definition ok (r : Response) : bool := (200 <=? status r) && (status r <=? 299).

(** [PostHogConfig] of [config.ts]. *)
Inductive PostHogRegion : Type := us | eu.

Record PostHogConfig : Type := mkConfig {
  personalApiKey : string;
  projectId : string;
  region : PostHogRegion;
  apiBaseUrl : string
}.

(** [types.ts] *)
Record Person : Type := mkPerson {
  id : string;
  distinctIds : list string;
  properties : json
}.

Record PostHogEvent : Type := mkEvent {
  event : string;
  timestamp : string;
  event_properties : json
}.

Record HogQLQueryResult (T : Type) : Type := mkResult {
  columns : list string;
  types : list string;
  results : list T;
  hasMore : bool;
  limit : Z;
  offset : Z
}.
Arguments mkResult {T}.
Arguments columns {T}.
Arguments types {T}.
Arguments results {T}.
Arguments hasMore {T}.
Arguments limit {T}.
Arguments offset {T}.

Record TimeframeOptions : Type := mkTimeframe {
  from : option string;
  to : option string
}.

(** What the program takes from its surroundings: the wall clock (its k-th
    reading), the time zone of the process, the date and JSON routines of the
    engine, the remote end of [fetch] (its answer may depend on the requests
    sent before; [None] is a network failure) and the DEBUG variable. *)
Record Host : Type := mkHost {
  wallclock : nat -> Z;
  LocalTZA : Z -> bool -> Z;
  Date_parse : string -> Date;
  JSON_parse : string -> option json;
  JSON_stringify : json -> string;
  JSON_stringify_indent2 : json -> string;
  fetch : list Request -> Request -> option Response;
  env_DEBUG : bool
}.

(** ** Effects *)

Inductive JsError : Type :=
| Error (message : string)
| RangeError
| SyntaxError
| TypeError.

(** [OutsideType] marks a run that left the declared TypeScript types (a
    response whose JSON is not a [HogQLQueryResult] of the expected rows);
    nothing is claimed about such runs. *)
Inductive Outcome (A : Type) : Type :=
| Return (a : A)
| Throw (e : JsError)
| OutsideType.
Arguments Return {A}.
Arguments Throw {A}.
Arguments OutsideType {A}.

Record World : Type := mkWorld {
  reads : nat;
  sent : list Request;
  console : list string
}.

Definition M (A : Type) : Type := World -> Outcome A * World.

Definition ret {A} (a : A) : M A := fun w => (Return a, w).

Definition throw {A} (e : JsError) : M A := fun w => (Throw e, w).

Definition bind {A B} (c : M A) (k : A -> M B) : M B :=
  fun w =>
    match c w with
    | (Return a, w') => k a w'
    | (Throw e, w') => (Throw e, w')
    | (OutsideType, w') => (OutsideType, w')
    end.

Definition lift {A} (o : Outcome A) : M A := fun w => (o, w).

Notation "x <- c ;; k" := (bind c (fun x => k))
  (at level 61, c at next level, right associativity).

(** [Array.prototype.map] with a callback that may throw. *)
Fixpoint mapOutcome {A B} (f : A -> Outcome B) (l : list A) : Outcome (list B) :=
  match l with
  | [] => Return []
  | a :: l' =>
      match f a with
      | Return b =>
          match mapOutcome f l' with
          | Return bs => Return (b :: bs)
          | Throw e => Throw e
          | OutsideType => OutsideType
          end
      | Throw e => Throw e
      | OutsideType => OutsideType
      end
  end.

(** ** Date objects in the time zone of the host *)

Section HostDates.

Variable host : Host.

(** [new Date()] reads the wall clock. *)
Definition newDate : M Date :=
  fun w => (Return (TimeValue (wallclock host (reads w))),
            mkWorld (S (reads w)) (sent w) (console w)).

Definition LocalTime (t : Z) : Z := t + LocalTZA host t true.

Definition UTC (t : Num) : Num :=
  match t with
  | Fin z => Nsub t (Fin (LocalTZA host z false))
  | _ => NaN
  end.

Definition getHours (d : Date) : Num :=
  match d with
  | TimeValue t => Fin (HourFromTime (LocalTime t))
  | InvalidDate => NaN
  end.

Definition getDate (d : Date) : Num :=
  match d with
  | TimeValue t => Fin (DateFromTime (LocalTime t))
  | InvalidDate => NaN
  end.

Definition getMonth (d : Date) : Num :=
  match d with
  | TimeValue t => Fin (MonthFromTime (LocalTime t))
  | InvalidDate => NaN
  end.

(** The setters return the date object after the update. *)
Definition setHours (d : Date) (hour : Num) : Date :=
  match d with
  | InvalidDate => InvalidDate
  | TimeValue t0 =>
      let t := LocalTime t0 in
      let date := MakeDate (Fin (Day t))
                    (MakeTime hour (Fin (MinFromTime t)) (Fin (SecFromTime t))
                       (Fin (msFromTime t))) in
      TimeClip (UTC date)
  end.

Definition setDate (d : Date) (date : Num) : Date :=
  match d with
  | InvalidDate => InvalidDate
  | TimeValue t0 =>
      let t := LocalTime t0 in
      let newDate := MakeDate
                       (MakeDay (Fin (YearFromTime t)) (Fin (MonthFromTime t)) date)
                       (Fin (TimeWithinDay t)) in
      TimeClip (UTC newDate)
  end.

Definition setMonth (d : Date) (month : Num) : Date :=
  match d with
  | InvalidDate => InvalidDate
  | TimeValue t0 =>
      let t := LocalTime t0 in
      let newDate := MakeDate
                       (MakeDay (Fin (YearFromTime t)) month (Fin (DateFromTime t)))
                       (Fin (TimeWithinDay t)) in
      TimeClip (UTC newDate)
  end.

End HostDates.

(** [date.toISOString()]: the UTC fields of a valid date; a [RangeError] for
    an invalid one. *)
Definition isoYear (y : Z) : string :=
  if (0 <=? y) && (y <=? 9999) then padded 4 y
  else if y <? 0 then "-" ++ padded 6 (- y)
  else "+" ++ padded 6 y.

Definition toISOString (d : Date) : Outcome string :=
  match d with
  | InvalidDate => Throw RangeError
  | TimeValue t =>
      Return (isoYear (YearFromTime t) ++ "-" ++ padded 2 (MonthFromTime t + 1)
              ++ "-" ++ padded 2 (DateFromTime t)
              ++ "T" ++ padded 2 (HourFromTime t)
              ++ ":" ++ padded 2 (MinFromTime t)
              ++ ":" ++ padded 2 (SecFromTime t)
              ++ "." ++ padded 3 (msFromTime t) ++ "Z")
  end.

(** ** What both clients share, word for word *)

(** [formatDateForHogQL] *)
Definition formatDateForHogQL (date : Date) : Outcome string :=
  match toISOString date with
  | Return s => Return (replaceFirst "Z" "" (replaceFirst "T" " " s))
  | Throw e => Throw e
  | OutsideType => OutsideType
  end.

(** The regular expression [/^(\d+)([dhwm])$/]. *)
Fixpoint splitDigits (s : string) : string * string :=
  match s with
  | EmptyString => (EmptyString, EmptyString)
  | String c s' =>
      if isDigit c then
        let (ds, rest) := splitDigits s' in (String c ds, rest)
      else (EmptyString, s)
  end.

Definition isUnit (c : ascii) : bool :=
  Ascii.eqb c "d" || Ascii.eqb c "h" || Ascii.eqb c "w" || Ascii.eqb c "m".

Definition matchRelative (dateString : string) : option (string * ascii) :=
  match splitDigits dateString with
  | (String d ds, String u EmptyString) =>
      if isUnit u then Some (String d ds, u) else None
  | _ => None
  end.

(** The cast [as HogQLQueryResult<T>]: the parsed body seen at its declared
    type.  [row2] and [row3] are the tuple types [[string, string]] and
    [[string, string, string]] of the rows. *)
Definition asString (j : json) : option string :=
  match j with
  | JStr s => Some s
  | _ => None
  end.

Fixpoint allSome {A B} (f : A -> option B) (l : list A) : option (list B) :=
  match l with
  | [] => Some []
  | a :: l' =>
      match f a, allSome f l' with
      | Some b, Some bs => Some (b :: bs)
      | _, _ => None
      end
  end.

Definition row2 (j : json) : option (string * string) :=
  match j with
  | JArr [JStr a; JStr b] => Some (a, b)
  | _ => None
  end.

Definition row3 (j : json) : option (string * string * string) :=
  match j with
  | JArr [JStr a; JStr b; JStr c] => Some (a, b, c)
  | _ => None
  end.

Fixpoint allDigits (s : string) : bool :=
  match s with
  | EmptyString => true
  | String c s' => isDigit c && allDigits s'
  end.

Definition intOfLexeme (s : string) : option Z :=
  match s with
  | EmptyString => None
  | String c s' =>
      if Ascii.eqb c "-" then
        if truthy s' && allDigits s' then Some (- digitsValue 0 s') else None
      else if allDigits s then Some (digitsValue 0 s) else None
  end.

Definition asHogQLQueryResult {T} (row : json -> option T) (j : json)
  : option (HogQLQueryResult T) :=
  match j with
  | JObj ms =>
      match getField "columns" ms, getField "types" ms, getField "results" ms,
            getField "hasMore" ms, getField "limit" ms, getField "offset" ms with
      | Some (JArr cs), Some (JArr ts), Some (JArr rs),
        Some (JBool more), Some (JNum l), Some (JNum o) =>
          match allSome asString cs, allSome asString ts, allSome row rs,
                intOfLexeme l, intOfLexeme o with
          | Some cs', Some ts', Some rs', Some l', Some o' =>
              Some (mkResult cs' ts' rs' more l' o')
          | _, _, _, _, _ => None
          end
      | _, _, _, _, _, _ => None
      end
  | _ => None
  end.

Section Transport.

Variable host : Host.
Variable config : PostHogConfig.

(** The request [executeQuery] hands to [fetch]. *)
Definition request (query : string) : Request :=
  mkRequest
    (apiBaseUrl config ++ "/api/projects/" ++ projectId config ++ "/query/")
    "POST"
    [("Content-Type", "application/json");
     ("Authorization", "Bearer " ++ personalApiKey config)]
    (JSON_stringify host
       (JObj [("query", JObj [("kind", JStr "HogQLQuery");
                              ("query", JStr query)])])).

Definition apiErrorMessage (response : Response) : string :=
  "PostHog API error (" ++ decimal (status response) ++ "): " ++ text response.

(** [PostHogClient.executeQuery], the same in both clients. *)
Definition executeQuery {T} (row : json -> option T) (query : string)
  : M (HogQLQueryResult T) :=
  fun w =>
    let req := request query in
    let w1 := mkWorld (reads w) (sent w ++ [req]) (console w) in
    match fetch host (sent w) req with
    | None => (Throw TypeError, w1)
    | Some response =>
        if negb (ok response) then
          (Throw (Error (apiErrorMessage response)), w1)
        else
          match JSON_parse host (text response) with
          | None => (Throw SyntaxError, w1)
          | Some j =>
              match asHogQLQueryResult row j with
              | None => (OutsideType, w1)
              | Some result =>
                  if env_DEBUG host then
                    (Return result,
                     mkWorld (reads w1) (sent w1)
                       (console w1 ++
                        ["HogQL Response: " ++ JSON_stringify_indent2 host j]))
                  else (Return result, w1)
              end
          end
    end.

End Transport.

(** The query texts, with the line breaks and indentation of the template
    literals; [escaped...] is the text each client puts between the quotes. *)
Definition personByEmailQuery (escapedEmail : string) : string :=
  nl ++ "      SELECT id, properties" ++
  nl ++ "      FROM persons" ++
  nl ++ "      WHERE properties.email = '" ++ escapedEmail ++ "'" ++
  nl ++ "      LIMIT 1" ++
  nl ++ "    ".

Definition personsByEventQuery (escapedEventName timestampClause : string)
  (effectiveLimit : Z) : string :=
  nl ++ "      SELECT DISTINCT person.id, person.properties" ++
  nl ++ "      FROM events" ++
  nl ++ "      WHERE event = '" ++ escapedEventName ++ "'" ++ timestampClause ++
  nl ++ "      ORDER BY timestamp DESC" ++
  nl ++ "      LIMIT " ++ decimal effectiveLimit ++
  nl ++ "    ".

Definition personEventsQuery (escapedPersonId eventTypeClause timestampClause : string)
  (effectiveLimit : Z) : string :=
  nl ++ "      SELECT event, timestamp, properties" ++
  nl ++ "      FROM events" ++
  nl ++ "      WHERE person_id = '" ++ escapedPersonId ++ "'" ++
        eventTypeClause ++ timestampClause ++
  nl ++ "      ORDER BY timestamp DESC" ++
  nl ++ "      LIMIT " ++ decimal effectiveLimit ++
  nl ++ "    ".

(** [a ?? b] *)
Definition orDefault {A} (a : option A) (b : A) : A :=
  match a with
  | Some x => x
  | None => b
  end.

(** ** The client behind [src/mcp-server.ts] *)

Module EscapingClient.

Section Client.

Variable host : Host.
Variable config : PostHogConfig.

Definition parseRelativeDate (dateString : string) : M Date :=
  now <- newDate host ;;
  match matchRelative dateString with
  | None => ret (Date_parse host dateString)
  | Some (amountStr, unit) =>
      let amount := parseInt10 amountStr in
      if Ascii.eqb unit "h" then
        ret (TimeClip (Nsub (getTime now)
               (Nmul (Nmul (Nmul amount (Fin 60)) (Fin 60)) (Fin 1000))))
      else if Ascii.eqb unit "d" then
        ret (TimeClip (Nsub (getTime now)
               (Nmul (Nmul (Nmul (Nmul amount (Fin 24)) (Fin 60)) (Fin 60))
                  (Fin 1000))))
      else if Ascii.eqb unit "w" then
        ret (TimeClip (Nsub (getTime now)
               (Nmul (Nmul (Nmul (Nmul (Nmul amount (Fin 7)) (Fin 24)) (Fin 60))
                        (Fin 60)) (Fin 1000))))
      else if Ascii.eqb unit "m" then
        let result := TimeClip (getTime now) in
        ret (setMonth host result (Nsub (getMonth host result) amount))
      else ret now
  end.

Definition buildTimestampClause (options : TimeframeOptions) : M string :=
  fromClause <-
    match from options with
    | Some f =>
        if truthy f then
          fromDate <- parseRelativeDate f ;;
          lit <- lift (formatDateForHogQL fromDate) ;;
          ret ["timestamp >= '" ++ lit ++ "'"]
        else ret []
    | None => ret []
    end ;;
  toClause <-
    match to options with
    | Some t =>
        if truthy t then
          toDate <- parseRelativeDate t ;;
          lit <- lift (formatDateForHogQL toDate) ;;
          ret ["timestamp <= '" ++ lit ++ "'"]
        else ret []
    | None => ret []
    end ;;
  let clauses := (fromClause ++ toClause)%list in
  ret (match clauses with
       | [] => ""
       | _ :: _ => " AND " ++ join " AND " clauses
       end).

Definition safeParseJson (jsonText : string) : json :=
  match JSON_parse host jsonText with
  | Some parsed => if isPlainObject parsed then parsed else JObj []
  | None => JObj []
  end.

Definition getPersonByEmail (email : string) : M (option Person) :=
  let escapedEmail := escapeHogQLString email in
  let query := personByEmailQuery escapedEmail in
  result <- executeQuery host config row2 query ;;
  match results result with
  | [] => ret None
  | (id, propertiesJson) :: _ =>
      let properties := safeParseJson propertiesJson in
      ret (Some (mkPerson id [] properties))
  end.

Definition getPersonsByEvent (eventName : string) (limit : option Z)
  (from to : option string) : M (list Person) :=
  let escapedEventName := escapeHogQLString eventName in
  timestampClause <- buildTimestampClause (mkTimeframe from to) ;;
  let effectiveLimit := orDefault limit 10 in
  let query := personsByEventQuery escapedEventName timestampClause effectiveLimit in
  result <- executeQuery host config row2 query ;;
  ret (map (fun '(id, propertiesJson) =>
              mkPerson id [] (safeParseJson propertiesJson))
           (results result)).

Definition getPersonEvents (personId : string) (limit : option Z)
  (eventType from to : option string) : M (list PostHogEvent) :=
  let escapedPersonId := escapeHogQLString personId in
  let effectiveFrom := orDefault from "30d" in
  timestampClause <- buildTimestampClause (mkTimeframe (Some effectiveFrom) to) ;;
  let eventTypeClause :=
    match eventType with
    | Some et =>
        if truthy et then " AND event = '" ++ escapeHogQLString et ++ "'" else ""
    | None => ""
    end in
  let effectiveLimit := orDefault limit 50 in
  let query := personEventsQuery escapedPersonId eventTypeClause timestampClause
                 effectiveLimit in
  result <- executeQuery host config row3 query ;;
  ret (map (fun '(event, timestamp, propertiesJson) =>
              mkEvent event timestamp (safeParseJson propertiesJson))
           (results result)).

Definition getPersonWithEvents (email : string) (eventsLimit : option Z)
  (eventType from to : option string) : M (option (Person * list PostHogEvent)) :=
  person <- getPersonByEmail email ;;
  match person with
  | None => ret None
  | Some person =>
      events <- getPersonEvents (id person) eventsLimit eventType from to ;;
      ret (Some (person, events))
  end.

End Client.

End EscapingClient.

(** ** The client of [src/client.ts] *)

Module ClientTs.

Section Client.

Variable host : Host.
Variable config : PostHogConfig.

Definition parseRelativeDate (dateString : string) : M Date :=
  now <- newDate host ;;
  match matchRelative dateString with
  | None => ret (Date_parse host dateString)
  | Some (amountStr, unit) =>
      let amount := parseInt10 amountStr in
      if Ascii.eqb unit "h" then
        ret (setHours host now (Nsub (getHours host now) amount))
      else if Ascii.eqb unit "d" then
        ret (setDate host now (Nsub (getDate host now) amount))
      else if Ascii.eqb unit "w" then
        ret (setDate host now (Nsub (getDate host now) (Nmul amount (Fin 7))))
      else if Ascii.eqb unit "m" then
        ret (setMonth host now (Nsub (getMonth host now) amount))
      else ret now
  end.

Definition buildTimestampClause (options : TimeframeOptions) : M string :=
  fromClause <-
    match from options with
    | Some f =>
        if truthy f then
          fromDate <- parseRelativeDate f ;;
          lit <- lift (formatDateForHogQL fromDate) ;;
          ret ["timestamp >= '" ++ lit ++ "'"]
        else ret []
    | None => ret []
    end ;;
  toClause <-
    match to options with
    | Some t =>
        if truthy t then
          toDate <- parseRelativeDate t ;;
          lit <- lift (formatDateForHogQL toDate) ;;
          ret ["timestamp <= '" ++ lit ++ "'"]
        else ret []
    | None => ret []
    end ;;
  let clauses := (fromClause ++ toClause)%list in
  ret (match clauses with
       | [] => ""
       | _ :: _ => " AND " ++ join " AND " clauses
       end).

(** [JSON.parse(propertiesJson) as Record<string, unknown>] *)
Definition parseProperties (propertiesJson : string) : Outcome json :=
  match JSON_parse host propertiesJson with
  | Some parsed => Return parsed
  | None => Throw SyntaxError
  end.

Definition getPersonByEmail (email : string) : M (option Person) :=
  let query := personByEmailQuery (replaceQuotes email) in
  result <- executeQuery host config row2 query ;;
  match results result with
  | [] => ret None
  | (id, propertiesJson) :: _ =>
      properties <- lift (parseProperties propertiesJson) ;;
      ret (Some (mkPerson id [] properties))
  end.

Definition getPersonsByEvent (eventName : string) (limit : option Z)
  (from to : option string) : M (list Person) :=
  timestampClause <- buildTimestampClause (mkTimeframe from to) ;;
  let effectiveLimit := orDefault limit 10 in
  let query := personsByEventQuery (replaceQuotes eventName) timestampClause
                 effectiveLimit in
  result <- executeQuery host config row2 query ;;
  lift (mapOutcome
          (fun '(id, propertiesJson) =>
             match parseProperties propertiesJson with
             | Return properties => Return (mkPerson id [] properties)
             | Throw e => Throw e
             | OutsideType => OutsideType
             end)
          (results result)).

Definition getPersonEvents (personId : string) (limit : option Z)
  (eventType from to : option string) : M (list PostHogEvent) :=
  let effectiveFrom := orDefault from "30d" in
  timestampClause <- buildTimestampClause (mkTimeframe (Some effectiveFrom) to) ;;
  let eventTypeClause :=
    match eventType with
    | Some et =>
        if truthy et then " AND event = '" ++ replaceQuotes et ++ "'" else ""
    | None => ""
    end in
  let effectiveLimit := orDefault limit 50 in
  let query := personEventsQuery (replaceQuotes personId) eventTypeClause
                 timestampClause effectiveLimit in
  result <- executeQuery host config row3 query ;;
  lift (mapOutcome
          (fun '(event, timestamp, propertiesJson) =>
             match parseProperties propertiesJson with
             | Return properties => Return (mkEvent event timestamp properties)
             | Throw e => Throw e
             | OutsideType => OutsideType
             end)
          (results result)).

Definition getPersonWithEvents (email : string) (eventsLimit : option Z)
  (eventType from to : option string) : M (option (Person * list PostHogEvent)) :=
  person <- getPersonByEmail email ;;
  match person with
  | None => ret None
  | Some person =>
      events <- getPersonEvents (id person) eventsLimit eventType from to ;;
      ret (Some (person, events))
  end.

End Client.

End ClientTs.

(** ** A reference engine

    Concrete date and JSON routines, a fixed-offset clock and a scripted
    remote end, to run the clients on concrete inputs. *)

Module Engine.

Definition isWs (c : ascii) : bool :=
  Ascii.eqb c " " || Ascii.eqb c TAB || Ascii.eqb c LF || Ascii.eqb c CR.

Fixpoint skipWs (s : string) : string :=
  match s with
  | EmptyString => EmptyString
  | String c s' => if isWs c then skipWs s' else s
  end.

Definition hexValue (c : ascii) : option Z :=
  let n := Z.of_nat (nat_of_ascii c) in
  if (48 <=? n) && (n <=? 57) then Some (n - 48)
  else if (65 <=? n) && (n <=? 70) then Some (n - 55)
  else if (97 <=? n) && (n <=? 102) then Some (n - 87)
  else None.

Definition byte (n : Z) : ascii := ascii_of_nat (Z.to_nat n).

(** UTF-8 bytes of a code unit below 0x10000. *)
Definition utf8 (u : Z) : string :=
  if u <? 128 then str (byte u)
  else if u <? 2048 then
    String (byte (192 + u / 64)) (str (byte (128 + u mod 64)))
  else
    String (byte (224 + u / 4096))
      (String (byte (128 + (u / 64) mod 64)) (str (byte (128 + u mod 64)))).

(** The characters of a JSON string, after its opening quote. *)
Fixpoint parseChars (s : string) : option (string * string) :=
  match s with
  | EmptyString => None
  | String c s' =>
      if Ascii.eqb c dquote then Some (EmptyString, s')
      else if Z.of_nat (nat_of_ascii c) <? 32 then None
      else if Ascii.eqb c backslash then
        match s' with
        | String e s'' =>
            let simple (d : ascii) :=
              match parseChars s'' with
              | Some (content, rest) => Some (String d content, rest)
              | None => None
              end in
            if Ascii.eqb e dquote then simple dquote
            else if Ascii.eqb e backslash then simple backslash
            else if Ascii.eqb e "/" then simple "/"%char
            else if Ascii.eqb e "b" then simple "008"%char
            else if Ascii.eqb e "f" then simple "012"%char
            else if Ascii.eqb e "n" then simple LF
            else if Ascii.eqb e "r" then simple CR
            else if Ascii.eqb e "t" then simple TAB
            else if Ascii.eqb e "u" then
              match s'' with
              | String h1 (String h2 (String h3 (String h4 s3))) =>
                  match hexValue h1, hexValue h2, hexValue h3, hexValue h4,
                        parseChars s3 with
                  | Some a, Some b, Some c', Some d, Some (content, rest) =>
                      Some (utf8 (((a * 16 + b) * 16 + c') * 16 + d) ++ content,
                            rest)
                  | _, _, _, _, _ => None
                  end
              | _ => None
              end
            else None
        | EmptyString => None
        end
      else
        match parseChars s' with
        | Some (content, rest) => Some (String c content, rest)
        | None => None
        end
  end.

(** The lexeme of a JSON number at the head of [s]. *)
Definition takeDigits (s : string) : string * string := splitDigits s.

Definition parseNumber (s : string) : option (string * string) :=
  let (sign, s1) :=
    match s with
    | String c s' => if Ascii.eqb c "-" then ("-", s') else ("", s)
    | EmptyString => ("", s)
    end in
  let (int, s2) := takeDigits s1 in
  match int with
  | EmptyString => None
  | String d ds =>
      if Ascii.eqb d "0" && truthy ds then None
      else
        let frac :=
          match s2 with
          | String c s' =>
              if Ascii.eqb c "." then
                let (fd, s3) := takeDigits s' in
                if truthy fd then Some ("." ++ fd, s3) else None
              else Some ("", s2)
          | EmptyString => Some ("", s2)
          end in
        match frac with
        | None => None
        | Some (f, s3) =>
            let expo :=
              match s3 with
              | String c s' =>
                  if Ascii.eqb c "e" || Ascii.eqb c "E" then
                    let (sg, s4) :=
                      match s' with
                      | String g s'' =>
                          if Ascii.eqb g "+" || Ascii.eqb g "-"
                          then (str g, s'') else ("", s')
                      | EmptyString => ("", s')
                      end in
                    let (ed, s5) := takeDigits s4 in
                    if truthy ed then Some (str c ++ sg ++ ed, s5) else None
                  else Some ("", s3)
              | EmptyString => Some ("", s3)
              end in
            match expo with
            | None => None
            | Some (e, s5) => Some (sign ++ int ++ f ++ e, s5)
            end
        end
  end.

Definition expect (word : string) (v : json) (s : string) : option (json * string) :=
  if String.prefix word s
  then Some (v, substring (String.length word) (String.length s - String.length word) s)
  else None.

Fixpoint parseValue (fuel : nat) (s : string) {struct fuel} : option (json * string) :=
  match fuel with
  | O => None
  | S fuel' =>
      let elements :=
        fix elements (n : nat) (s : string) (acc : list json) {struct n}
          : option (json * string) :=
          match n with
          | O => None
          | S n' =>
              match parseValue fuel' s with
              | Some (v, rest) =>
                  match skipWs rest with
                  | String c r =>
                      if Ascii.eqb c "," then elements n' r (v :: acc)
                      else if Ascii.eqb c "]" then Some (JArr (rev (v :: acc)), r)
                      else None
                  | EmptyString => None
                  end
              | None => None
              end
          end in
      let members :=
        fix members (n : nat) (s : string) (acc : list (string * json)) {struct n}
          : option (json * string) :=
          match n with
          | O => None
          | S n' =>
              match skipWs s with
              | String q s1 =>
                  if Ascii.eqb q dquote then
                    match parseChars s1 with
                    | Some (key, s2) =>
                        match skipWs s2 with
                        | String colon s3 =>
                            if Ascii.eqb colon ":" then
                              match parseValue fuel' s3 with
                              | Some (v, rest) =>
                                  match skipWs rest with
                                  | String c r =>
                                      if Ascii.eqb c ","
                                      then members n' r ((key, v) :: acc)
                                      else if Ascii.eqb c "}"
                                      then Some (JObj (rev ((key, v) :: acc)), r)
                                      else None
                                  | EmptyString => None
                                  end
                              | None => None
                              end
                            else None
                        | EmptyString => None
                        end
                    | None => None
                    end
                  else None
              | EmptyString => None
              end
          end in
      match skipWs s with
      | EmptyString => None
      | String c s' =>
          if Ascii.eqb c "[" then
            match skipWs s' with
            | String c' r => if Ascii.eqb c' "]" then Some (JArr [], r)
                             else elements fuel' s' []
            | EmptyString => None
            end
          else if Ascii.eqb c "{" then
            match skipWs s' with
            | String c' r => if Ascii.eqb c' "}" then Some (JObj [], r)
                             else members fuel' s' []
            | EmptyString => None
            end
          else if Ascii.eqb c dquote then
            match parseChars s' with
            | Some (content, rest) => Some (JStr content, rest)
            | None => None
            end
          else if Ascii.eqb c "t" then expect "true" (JBool true) (String c s')
          else if Ascii.eqb c "f" then expect "false" (JBool false) (String c s')
          else if Ascii.eqb c "n" then expect "null" JNull (String c s')
          else
            match parseNumber (String c s') with
            | Some (lexeme, rest) => Some (JNum lexeme, rest)
            | None => None
            end
      end
  end.

(** [JSON.parse]: one value with nothing but white space around it. *)
Definition parse (s : string) : option json :=
  match parseValue (S (String.length s)) s with
  | Some (v, rest) =>
      match skipWs rest with
      | EmptyString => Some v
      | String _ _ => None
      end
  | None => None
  end.

Definition hexDigit (d : Z) : ascii :=
  if d <? 10 then byte (48 + d) else byte (87 + d).

Definition quoteChar (c : ascii) : string :=
  let n := Z.of_nat (nat_of_ascii c) in
  if Ascii.eqb c dquote then String backslash (str dquote)
  else if Ascii.eqb c backslash then "\\"
  else if n =? 8 then "\b"
  else if n =? 12 then "\f"
  else if n =? 10 then "\n"
  else if n =? 13 then "\r"
  else if n =? 9 then "\t"
  else if n <? 32 then "\u00" ++ String (hexDigit (n / 16)) (str (hexDigit (n mod 16)))
  else str c.

Fixpoint quoteChars (s : string) : string :=
  match s with
  | EmptyString => EmptyString
  | String c s' => quoteChar c ++ quoteChars s'
  end.

Definition quoteJSON (s : string) : string :=
  String dquote (quoteChars s ++ str dquote).

(** [JSON.stringify(v)] *)
Fixpoint stringify (v : json) : string :=
  match v with
  | JNull => "null"
  | JBool true => "true"
  | JBool false => "false"
  | JNum lexeme => lexeme
  | JStr s => quoteJSON s
  | JArr items => "[" ++ join "," (map stringify items) ++ "]"
  | JObj members =>
      "{" ++ join "," (map (fun m => quoteJSON (fst m) ++ ":" ++ stringify (snd m))
                         members) ++ "}"
  end.

(** [JSON.stringify(v, null, 2)], at the indentation [ind]. *)
Fixpoint stringifyIndent (ind : string) (v : json) : string :=
  match v with
  | JArr ((_ :: _) as items) =>
      "[" ++ nl ++ ind ++ "  " ++
      join ("," ++ nl ++ ind ++ "  ") (map (stringifyIndent (ind ++ "  ")) items)
      ++ nl ++ ind ++ "]"
  | JObj ((_ :: _) as members) =>
      "{" ++ nl ++ ind ++ "  " ++
      join ("," ++ nl ++ ind ++ "  ")
        (map (fun m => quoteJSON (fst m) ++ ": " ++ stringifyIndent (ind ++ "  ") (snd m))
           members)
      ++ nl ++ ind ++ "}"
  | _ => stringify v
  end.

(** [new Date(s)] for the two ISO forms [YYYY-MM-DD] and
    [YYYY-MM-DDTHH:mm:ss.sssZ]; any other text is an invalid date. *)
Definition twoDigits (a b : ascii) : option Z :=
  if isDigit a && isDigit b then Some (10 * digitValue a + digitValue b) else None.

Definition daysInMonth (y m : Z) : Z :=
  let leap := if DaysInYear y =? 366 then 1 else 0 in
  if m =? 12 then 31 else monthStart m leap - monthStart (m - 1) leap.

Definition isoDay (s : string) : option (Z * string) :=
  match s with
  | String y1 (String y2 (String y3 (String y4 (String d1
      (String m1 (String m2 (String d2 (String a1 (String a2 rest))))))))) =>
      match twoDigits y1 y2, twoDigits y3 y4, twoDigits m1 m2, twoDigits a1 a2 with
      | Some yh, Some yl, Some m, Some d =>
          let y := 100 * yh + yl in
          if Ascii.eqb d1 "-" && Ascii.eqb d2 "-" && (1 <=? m) && (m <=? 12)
             && (1 <=? d) && (d <=? daysInMonth y m)
          then Some (DayFromYear y + monthStart (m - 1)
                                      (if DaysInYear y =? 366 then 1 else 0)
                     + d - 1, rest)
          else None
      | _, _, _, _ => None
      end
  | _ => None
  end.

Definition isoTime (s : string) : option Z :=
  match s with
  | String t (String h1 (String h2 (String c1 (String m1 (String m2 (String c2
      (String s1 (String s2 (String dot (String f1 (String f2 (String f3
      (String z EmptyString))))))))))))) =>
      match twoDigits h1 h2, twoDigits m1 m2, twoDigits s1 s2, twoDigits f1 f2 with
      | Some h, Some m, Some sec, Some f12 =>
          if Ascii.eqb t "T" && Ascii.eqb c1 ":" && Ascii.eqb c2 ":"
             && Ascii.eqb dot "." && isDigit f3 && Ascii.eqb z "Z"
             && (h <=? 23) && (m <=? 59) && (sec <=? 59)
          then Some (h * msPerHour + m * msPerMinute + sec * msPerSecond
                     + 10 * f12 + digitValue f3)
          else None
      | _, _, _, _ => None
      end
  | _ => None
  end.

Definition dateParse (s : string) : Date :=
  match isoDay s with
  | Some (day, EmptyString) => TimeClip (Fin (day * msPerDay))
  | Some (day, rest) =>
      match isoTime rest with
      | Some time => TimeClip (Fin (day * msPerDay + time))
      | None => InvalidDate
      end
  | None => InvalidDate
  end.

(** A host in the zone UTC+[tz] ms whose clock shows [clock] ms, one more at
    every later reading, and whose remote end answers the k-th request with
    the k-th response of [script]. *)
Definition scripted (clock tz : Z) (script : list Response) (debug : bool) : Host :=
  mkHost (fun k => clock + Z.of_nat k)
         (fun _ _ => tz)
         dateParse parse stringify (stringifyIndent "")
         (fun history _ => nth_error script (List.length history))
         debug.

Definition config0 : PostHogConfig :=
  mkConfig "phx_key" "12345" us "https://us.posthog.com".

Definition world0 : World := mkWorld 0 [] [].

(** The body of a response with the given rows. *)
Definition rowsBody (cols : list string) (rows : list (list string)) : string :=
  stringify
    (JObj [("columns", JArr (map JStr cols));
           ("types", JArr (map (fun _ => JStr "String") cols));
           ("results", JArr (map (fun r => JArr (map JStr r)) rows));
           ("hasMore", JBool false);
           ("limit", JNum "100");
           ("offset", JNum "0")]).

(** A host with no remote end, and one whose remote end answers the first
    request with a single person row whose properties column is [pj]. *)
Definition offline : Host := scripted 1700000000000 0 [] false.

Definition personRow (pj : string) : Host :=
  scripted 1700000000000 0
    [mkResponse 200 (rowsBody ["id"; "properties"] [["p1"; pj]])] false.

(** A host whose remote end finds no person, and one that finds the person
    [p1] and then two events for it. *)
Definition noRows : Host :=
  scripted 1700000000000 0
    [mkResponse 200 (rowsBody ["id"; "properties"] [])] false.

Definition personThenEvents : Host :=
  scripted 1700000000000 0
    [mkResponse 200 (rowsBody ["id"; "properties"] [["p1"; "{}"]]);
     mkResponse 200 (rowsBody ["event"; "timestamp"; "properties"]
                       [["pageview"; "2023-11-14 10:00:00.000000"; "{}"];
                        ["signup"; "2023-11-13 09:00:00.000000"; "oops"]])]
    false.

End Engine.

(** ** A host with daylight saving

    A zone that is five hours behind UTC until 10 March 2024, 07:00 UTC, and
    four hours behind from then on (the change of US Eastern time in spring
    2024).  Local times of the hour that the change skips are read with the
    offset before the change. *)

Module Daylight.

Definition spring : Z := 1710054000000.

Definition LocalTZA (t : Z) (isUTC : bool) : Z :=
  if isUTC then
    if t <? spring then -5 * msPerHour else -4 * msPerHour
  else
    if t <? spring - 4 * msPerHour then -5 * msPerHour else -4 * msPerHour.

(** A host in that zone whose clock shows [clock] ms and that has no remote
    end. *)
Definition host (clock : Z) : Host :=
  mkHost (fun k => clock + Z.of_nat k) LocalTZA
         Engine.dateParse Engine.parse Engine.stringify (Engine.stringifyIndent "")
         (fun _ _ => None) false.

End Daylight.

(** ** Vocabulary of the statements *)

(** What follows the closing quote of the literal in [personByEmailQuery]. *)
Definition personByEmailTail : string :=
  nl ++ "      LIMIT 1" ++ nl ++ "    ".

(** The world after one more request. *)
Definition logged (w : World) (req : Request) : World :=
  mkWorld (reads w) (sent w ++ [req]) (console w).

(** The world after one more reading of the clock. *)
Definition ticked (w : World) : World :=
  mkWorld (S (reads w)) (sent w) (console w).

(** The event-type clause of [getPersonEvents]. *)
Definition eventTypeClause (escape : string -> string) (eventType : option string)
  : string :=
  match eventType with
  | Some et => if truthy et then " AND event = '" ++ escape et ++ "'" else ""
  | None => ""
  end.

(** A host whose zone keeps one offset from UTC. *)
Definition FixedZone (host : Host) (off : Z) : Prop :=
  forall t b, LocalTZA host t b = off.

(** 1 in a leap year. *)
Definition leapDay (y : Z) : Z := if DaysInYear y =? 366 then 1 else 0.

(** Day number of the first day of month [k], months counted from January
    of year 0. *)
Definition monthFirstDay (k : Z) : Z :=
  DayFromYear (k / 12) + monthStart (k mod 12) (leapDay (k / 12)).

(** The month of [t], counted the same way. *)
Definition monthIndex (t : Z) : Z := 12 * YearFromTime t + MonthFromTime t.

(** The time [n] calendar months before [t]: the same day of the month and
    time of day, counted from the first day of the earlier month (a day of
    the month that the earlier month lacks runs over into the next). *)
Definition monthsBefore (n t : Z) : Z :=
  (monthFirstDay (monthIndex t - n) + DateFromTime t - 1) * msPerDay
  + TimeWithinDay t.

(** What one unit of a relative expression spans: milliseconds for [h], [d]
    and [w]; for [m] the amount counts months and the span is 1. *)
Definition unitSpan (u : ascii) : Z :=
  if Ascii.eqb u "h" then msPerHour
  else if Ascii.eqb u "d" then msPerDay
  else if Ascii.eqb u "w" then 7 * msPerDay
  else 1.

(** The time that lies [n] units [u] before [now], in the zone UTC+[off]. *)
Definition resolvedTime (off : Z) (u : ascii) (n now : Z) : Z :=
  if Ascii.eqb u "m" then monthsBefore n (now + off) - off
  else now - n * unitSpan u.

(** The contract of the remote-API error, for a computation [c] run from any
    world: the requests only grow; a request answered with a non-success
    status is the last request of the run (nothing is sent again) and the run
    fails with the error that carries that status and body; and that error
    comes from nowhere else. *)
Definition ApiErrorContract {A} (host : Host) (c : M A) : Prop :=
  forall w o w', c w = (o, w') ->
    exists sentNow,
      sent w' = (sent w ++ sentNow)%list
      /\ (forall pre req post r,
            sentNow = (pre ++ req :: post)%list ->
            fetch host (sent w ++ pre)%list req = Some r ->
            ok r = false ->
            post = [] /\ o = Throw (Error (apiErrorMessage r)))
      /\ (forall msg,
            o = Throw (Error msg) ->
            exists pre req r,
              sentNow = (pre ++ [req])%list
              /\ fetch host (sent w ++ pre)%list req = Some r
              /\ ok r = false
              /\ msg = apiErrorMessage r).

(** A computation that sends no request. *)
Definition Silent {A} (c : M A) : Prop :=
  forall w, sent (snd (c w)) = sent w.

(** An outcome that is not the [Error] of [executeQuery]. *)
Definition notApiError {A} (o : Outcome A) : Prop :=
  forall msg, o <> Throw (Error msg).

(** ** Vocabulary of the further properties *)

(** Every character of [s] satisfies [p]; the number of those that do. *)
Fixpoint allChars (p : ascii -> bool) (s : string) : bool :=
  match s with
  | EmptyString => true
  | String c s' => p c && allChars p s'
  end.

Fixpoint countChars (p : ascii -> bool) (s : string) : nat :=
  match s with
  | EmptyString => O
  | String c s' => if p c then S (countChars p s') else countChars p s'
  end.

(** The characters that [escapeHogQLString] rewrites, and those of them that
    the quoting of [src/client.ts] lets through. *)
Definition rewritten (c : ascii) : bool :=
  Ascii.eqb c backslash || Ascii.eqb c quote || Ascii.eqb c NUL
  || Ascii.eqb c LF || Ascii.eqb c CR || Ascii.eqb c TAB.

Definition letThrough (c : ascii) : bool :=
  Ascii.eqb c backslash || Ascii.eqb c NUL
  || Ascii.eqb c LF || Ascii.eqb c CR || Ascii.eqb c TAB.

(** The characters of a formatted date. *)
Definition dateChar (c : ascii) : bool :=
  isDigit c || Ascii.eqb c "-" || Ascii.eqb c "+" || Ascii.eqb c ":"
  || Ascii.eqb c "." || Ascii.eqb c " ".

(** The literal of a valid date. *)
Definition dateLiteral (lit : string) : Prop :=
  (exists t, formatDateForHogQL (TimeValue t) = Return lit)
  /\ allChars dateChar lit = true.

(** A time bound that [buildTimestampClause] takes up: a non-empty string. *)
Definition bounded (bound : option string) : bool :=
  match bound with
  | Some s => truthy s
  | None => false
  end.

(** The timestamp clause with the given literals for its bounds. *)
Definition clauseOf (lower upper : option string) : string :=
  match lower, upper with
  | None, None => ""
  | Some l, None => " AND timestamp >= '" ++ l ++ "'"
  | None, Some u => " AND timestamp <= '" ++ u ++ "'"
  | Some l, Some u =>
      " AND timestamp >= '" ++ l ++ "' AND timestamp <= '" ++ u ++ "'"
  end.

(** A computation that neither sends a request nor writes to the console. *)
Definition Quiet {A} (c : M A) : Prop :=
  forall w, sent (snd (c w)) = sent w /\ console (snd (c w)) = console w.

(** What a computation adds to the world, from any world it starts in: at
    most [n] requests, each the [request] of some query text, and console
    lines, at most one per request, none when DEBUG is unset, each the line
    that [executeQuery] logs. *)
Definition Transported (host : Host) (config : PostHogConfig) (n : nat) {A}
  (c : M A) : Prop :=
  forall w, exists queries lines,
    sent (snd (c w)) = (sent w ++ map (request host config) queries)%list
    /\ (List.length queries <= n)%nat
    /\ console (snd (c w)) = (console w ++ lines)%list
    /\ (List.length lines <= List.length queries)%nat
    /\ (env_DEBUG host = false -> lines = [])
    /\ Forall (fun line => String.prefix "HogQL Response: " line = true) lines.

(** A computation that sends at most [n] requests, all of them built by
    [request]. *)
Definition SendsAtMost (host : Host) (config : PostHogConfig) (n : nat) {A}
  (c : M A) : Prop :=
  forall w, exists queries,
    (List.length queries <= n)%nat
    /\ sent (snd (c w)) = (sent w ++ map (request host config) queries)%list.

(** A computation that writes to the console only the lines [executeQuery]
    logs under DEBUG, at most one for each request it sends. *)
Definition LogsUnderDebug (host : Host) {A} (c : M A) : Prop :=
  forall w, exists lines,
    console (snd (c w)) = (console w ++ lines)%list
    /\ (env_DEBUG host = false -> lines = [])
    /\ (List.length (sent w) + List.length lines
        <= List.length (sent (snd (c w))))%nat
    /\ Forall (fun line => String.prefix "HogQL Response: " line = true) lines.

(** A query text read as a prepared statement: every single-quoted literal
    is read with [readLiteral], taken out of the text and replaced by [?];
    the result is the remaining text and the values of the literals, or
    nothing when a literal does not end. *)
Fixpoint parameterizeWith (fuel : nat) (s : string) : option (string * list string) :=
  match fuel with
  | O => None
  | S fuel' =>
      match s with
      | EmptyString => Some (EmptyString, [])
      | String c s' =>
          if Ascii.eqb c quote then
            match readLiteral s' with
            | Some (value, rest) =>
                match parameterizeWith fuel' rest with
                | Some (template, values) =>
                    Some (String "?" template, value :: values)
                | None => None
                end
            | None => None
            end
          else
            match parameterizeWith fuel' s' with
            | Some (template, values) => Some (String c template, values)
            | None => None
            end
      end
  end.

Definition parameterize (query : string) : option (string * list string) :=
  parameterizeWith (S (String.length query)) query.

(** A query text in pieces: plain text, and values that go between quotes
    through [escapeHogQLString]. *)
Inductive Piece : Type :=
| Plain (text : string)
| Quoted (value : string).

Definition renderPiece (p : Piece) : string :=
  match p with
  | Plain text => text
  | Quoted value => "'" ++ escapeHogQLString value ++ "'"
  end.

Fixpoint render (pieces : list Piece) : string :=
  match pieces with
  | [] => ""
  | p :: pieces' => renderPiece p ++ render pieces'
  end.

Fixpoint templateOf (pieces : list Piece) : string :=
  match pieces with
  | [] => ""
  | Plain text :: pieces' => text ++ templateOf pieces'
  | Quoted _ :: pieces' => "?" ++ templateOf pieces'
  end.

Fixpoint valuesOf (pieces : list Piece) : list string :=
  match pieces with
  | [] => []
  | Plain _ :: pieces' => valuesOf pieces'
  | Quoted value :: pieces' => value :: valuesOf pieces'
  end.

Definition quoteFree (p : Piece) : Prop :=
  match p with
  | Plain text => allChars (fun c => negb (Ascii.eqb c quote)) text = true
  | Quoted _ => True
  end.

(** The statements of the three lookups, with [?] for each value. *)
Definition personByEmailTemplate : string :=
  nl ++ "      SELECT id, properties" ++
  nl ++ "      FROM persons" ++
  nl ++ "      WHERE properties.email = ?" ++
  nl ++ "      LIMIT 1" ++
  nl ++ "    ".

Definition personsByEventTemplate (withLower withUpper : bool) (effectiveLimit : Z)
  : string :=
  nl ++ "      SELECT DISTINCT person.id, person.properties" ++
  nl ++ "      FROM events" ++
  nl ++ "      WHERE event = ?" ++
  (if withLower then " AND timestamp >= ?" else "") ++
  (if withUpper then " AND timestamp <= ?" else "") ++
  nl ++ "      ORDER BY timestamp DESC" ++
  nl ++ "      LIMIT " ++ decimal effectiveLimit ++
  nl ++ "    ".

Definition personEventsTemplate (withType withLower withUpper : bool)
  (effectiveLimit : Z) : string :=
  nl ++ "      SELECT event, timestamp, properties" ++
  nl ++ "      FROM events" ++
  nl ++ "      WHERE person_id = ?" ++
  (if withType then " AND event = ?" else "") ++
  (if withLower then " AND timestamp >= ?" else "") ++
  (if withUpper then " AND timestamp <= ?" else "") ++
  nl ++ "      ORDER BY timestamp DESC" ++
  nl ++ "      LIMIT " ++ decimal effectiveLimit ++
  nl ++ "    ".

(** The value of a bound or filter that is taken up, as a list. *)
Definition taken (value : option string) : list string :=
  match value with
  | Some s => if truthy s then [s] else []
  | None => []
  end.

(** The pieces an optional filter and an optional time bound add to a
    query. *)
Definition filterPieces (value : option string) : list Piece :=
  match value with
  | Some v => if truthy v then [Plain " AND event = "; Quoted v] else []
  | None => []
  end.

Definition boundPieces (comparison : string) (literal : option string)
  : list Piece :=
  match literal with
  | Some l => [Plain (" AND timestamp " ++ comparison ++ " "); Quoted l]
  | None => []
  end.

Definition isSet {A} (value : option A) : bool :=
  match value with
  | Some _ => true
  | None => false
  end.

Definition optional {A} (value : option A) : list A :=
  match value with
  | Some a => [a]
  | None => []
  end.

(** ** Loading the configuration ([config.ts]) *)

Module Config.

(** [process.env], once [dotenv] has loaded its file into it. *)
Definition Env : Type := string -> option string.

Definition getApiBaseUrl (region : PostHogRegion) : string :=
  match region with
  | eu => "https://eu.posthog.com"
  | us => "https://us.posthog.com"
  end.

(** The type guard [isValidRegion]; when it holds it hands the string on as
    a [PostHogRegion]. *)
Definition isValidRegion (region : string) : option PostHogRegion :=
  if String.eqb region "us" then Some us
  else if String.eqb region "eu" then Some eu
  else None.

(** A variable that is set to a non-empty string ([!value] is false). *)
Definition whenTruthy (value : option string) : option string :=
  match value with
  | Some s => if truthy s then Some s else None
  | None => None
  end.

Definition quoted (s : string) : string := str dquote ++ s ++ str dquote.

Definition loadConfig (env : Env) : Outcome PostHogConfig :=
  let regionInput := orDefault (env "POSTHOG_REGION") "us" in
  match whenTruthy (env "POSTHOG_PERSONAL_API_KEY") with
  | None =>
      Throw (Error "POSTHOG_PERSONAL_API_KEY environment variable is required.")
  | Some personalApiKey =>
      match whenTruthy (env "POSTHOG_PROJECT_ID") with
      | None =>
          Throw (Error "POSTHOG_PROJECT_ID environment variable is required.")
      | Some projectId =>
          match isValidRegion regionInput with
          | None =>
              Throw (Error ("POSTHOG_REGION must be " ++ quoted "us" ++ " or "
                            ++ quoted "eu" ++ ", got: " ++ quoted regionInput))
          | Some region =>
              Return (mkConfig personalApiKey projectId region
                        (getApiBaseUrl region))
          end
      end
  end.

End Config.

(** ** The tool-call server of [src/mcp-server.ts] *)

Module McpServer.

(** A value of type [unknown] that came in as JSON; [None] is [undefined]. *)
Definition unknown : Type := option json.

(** The type guards.  A guard that holds hands the value on at its narrowed
    type; a number is kept as the literal it was written with. *)
Definition isString (value : unknown) : option string :=
  match value with
  | Some (JStr s) => Some s
  | _ => None
  end.

Definition isOptionalString (value : unknown) : option (option string) :=
  match value with
  | None => Some None
  | Some (JStr s) => Some (Some s)
  | _ => None
  end.

Definition isOptionalNumber (value : unknown) : option (option string) :=
  match value with
  | None => Some None
  | Some (JNum n) => Some (Some n)
  | _ => None
  end.

(** [typedArgs.key] for one of the keys the validators read, none of which
    a prototype carries: reading from [undefined] or [null] throws a
    TypeError, an object gives its member, any other value gives
    [undefined]. *)
Definition property (key : string) (value : unknown) : Outcome unknown :=
  match value with
  | None => Throw TypeError
  | Some JNull => Throw TypeError
  | Some (JObj members) => Return (getField key members)
  | Some _ => Return None
  end.

Definition andThen {A B} (o : Outcome A) (k : A -> Outcome B) : Outcome B :=
  match o with
  | Return a => k a
  | Throw e => Throw e
  | OutsideType => OutsideType
  end.

(** [if (!guard(value)) throw new Error(message)], with the narrowed value
    for what follows. *)
Definition check {A B} (narrowed : option A) (message : string)
  (k : A -> Outcome B) : Outcome B :=
  match narrowed with
  | Some a => k a
  | None => Throw (Error message)
  end.

Module ByEmail.
Record Args : Type := mk {
  email : string;
  eventsLimit : option string;
  eventType : option string;
  from : option string;
  to : option string
}.
End ByEmail.

Module ByEvent.
Record Args : Type := mk {
  eventName : string;
  limit : option string;
  from : option string;
  to : option string
}.
End ByEvent.

Module PersonEvents.
Record Args : Type := mk {
  personId : string;
  limit : option string;
  eventType : option string;
  from : option string;
  to : option string
}.
End PersonEvents.

Definition validateLookupByEmailArgs (args : unknown) : Outcome ByEmail.Args :=
  andThen (property "email" args) (fun email =>
  check (isString email) "email is required and must be a string" (fun email =>
  andThen (property "eventsLimit" args) (fun eventsLimit =>
  check (isOptionalNumber eventsLimit) "eventsLimit must be a number"
    (fun eventsLimit =>
  andThen (property "eventType" args) (fun eventType =>
  check (isOptionalString eventType) "eventType must be a string" (fun eventType =>
  andThen (property "from" args) (fun from =>
  check (isOptionalString from) "from must be a string" (fun from =>
  andThen (property "to" args) (fun to =>
  check (isOptionalString to) "to must be a string" (fun to =>
  Return (ByEmail.mk email eventsLimit eventType from to))))))))))).

Definition validateLookupByEventArgs (args : unknown) : Outcome ByEvent.Args :=
  andThen (property "eventName" args) (fun eventName =>
  check (isString eventName) "eventName is required and must be a string"
    (fun eventName =>
  andThen (property "limit" args) (fun limit =>
  check (isOptionalNumber limit) "limit must be a number" (fun limit =>
  andThen (property "from" args) (fun from =>
  check (isOptionalString from) "from must be a string" (fun from =>
  andThen (property "to" args) (fun to =>
  check (isOptionalString to) "to must be a string" (fun to =>
  Return (ByEvent.mk eventName limit from to))))))))).

Definition validateGetPersonEventsArgs (args : unknown)
  : Outcome PersonEvents.Args :=
  andThen (property "personId" args) (fun personId =>
  check (isString personId) "personId is required and must be a string"
    (fun personId =>
  andThen (property "limit" args) (fun limit =>
  check (isOptionalNumber limit) "limit must be a number" (fun limit =>
  andThen (property "eventType" args) (fun eventType =>
  check (isOptionalString eventType) "eventType must be a string" (fun eventType =>
  andThen (property "from" args) (fun from =>
  check (isOptionalString from) "from must be a string" (fun from =>
  andThen (property "to" args) (fun to =>
  check (isOptionalString to) "to must be a string" (fun to =>
  Return (PersonEvents.mk personId limit eventType from to))))))))))).

(** The tools that the server lists, each with the properties of its input
    schema (name, type, description) and the names it requires. *)
Record Tool : Type := mkTool {
  toolName : string;
  toolDescription : string;
  schemaProperties : list (string * (string * string));
  schemaRequired : list string
}.

Definition listTools : list Tool :=
  [ mkTool "lookup_person_by_email"
      "Look up a PostHog person by their email address and retrieve their recent events. Use this to debug issues for a specific user."
      [ ("email", ("string", "The email address of the person to look up."));
        ("eventsLimit",
         ("number", "Maximum number of events to retrieve. Default: 50."));
        ("eventType", ("string", "Filter events to only this event type."));
        ("from",
         ("string",
          "Start date for events. Supports ISO dates (2024-01-01) or relative (7d, 24h, 1w)."));
        ("to",
         ("string", "End date for events. Supports ISO dates or relative formats.")) ]
      ["email"];
    mkTool "lookup_persons_by_event"
      "Find PostHog persons who triggered a specific event. Use this to find users who experienced a particular action or error."
      [ ("eventName", ("string", "The name of the event to search for."));
        ("limit",
         ("number", "Maximum number of persons to return. Default: 10."));
        ("from",
         ("string",
          "Start date. Supports ISO dates (2024-01-01) or relative (7d, 24h, 1w)."));
        ("to", ("string", "End date. Supports ISO dates or relative formats.")) ]
      ["eventName"];
    mkTool "get_person_events"
      "Get events for a specific person by their person ID. Use this after looking up a person to get more events or different filters."
      [ ("personId",
         ("string", "The person ID (from lookup_person_by_email result)."));
        ("limit",
         ("number", "Maximum number of events to retrieve. Default: 50."));
        ("eventType", ("string", "Filter events to only this event type."));
        ("from",
         ("string",
          "Start date. Supports ISO dates (2024-01-01) or relative (7d, 24h, 1w)."));
        ("to", ("string", "End date. Supports ISO dates or relative formats.")) ]
      ["personId"] ].

(** The client, as the server holds it. *)
Record PostHogClient : Type := mkPostHogClient {
  getPersonsByEvent :
    string -> option Z -> option string -> option string -> M (list Person);
  getPersonEvents :
    string -> option Z -> option string -> option string -> option string ->
    M (list PostHogEvent);
  getPersonWithEvents :
    string -> option Z -> option string -> option string -> option string ->
    M (option (Person * list PostHogEvent))
}.

Definition escapingClient (host : Host) (config : PostHogConfig) : PostHogClient :=
  mkPostHogClient (EscapingClient.getPersonsByEvent host config)
                  (EscapingClient.getPersonEvents host config)
                  (EscapingClient.getPersonWithEvents host config).

Definition clientTs (host : Host) (config : PostHogConfig) : PostHogClient :=
  mkPostHogClient (ClientTs.getPersonsByEvent host config)
                  (ClientTs.getPersonEvents host config)
                  (ClientTs.getPersonWithEvents host config).

(** The text of a tool result: a text the handler built, or, for an error
    that the engine raised, [JSON.stringify({ error: message }, null, 2)] of
    the message the engine gave that error. *)
Inductive ResultText : Type :=
| Text (text : string)
| MessageOfThrown (e : JsError).

(** [{ content: [{ type: "text", text }], isError }]; [isError] is false
    where the handler leaves it out. *)
Record ToolResult : Type := mkToolResult {
  content : ResultText;
  isError : bool
}.

(** The records as [JSON.stringify] sees them. *)
Definition personValue (person : Person) : json :=
  JObj [("id", JStr (id person));
        ("distinctIds", JArr (map JStr (distinctIds person)));
        ("properties", properties person)].

Definition eventValue (e : PostHogEvent) : json :=
  JObj [("event", JStr (event e));
        ("timestamp", JStr (timestamp e));
        ("properties", event_properties e)].

Definition count {A} (l : list A) : json :=
  JNum (decimal (Z.of_nat (List.length l))).

(** A number argument as the model of the client takes it: an integer,
    written as digits with an optional sign, that a double holds exactly.
    A call with any other number is outside the model. *)
Definition integerArgument (number : option string) : Outcome (option Z) :=
  match number with
  | None => Return None
  | Some literal =>
      match intOfLexeme literal with
      | Some z => if Z.abs z <? two53 then Return (Some z) else OutsideType
      | None => OutsideType
      end
  end.

Section Handler.

Variable host : Host.
Variable client : PostHogClient.

Definition textResult (value : json) : ToolResult :=
  mkToolResult (Text (JSON_stringify_indent2 host value)) false.

Definition errorResult (message : string) : ToolResult :=
  mkToolResult
    (Text (JSON_stringify_indent2 host (JObj [("error", JStr message)]))) true.

(** The body of the [try] block of the call handler. *)
Definition dispatch (name : string) (args : unknown) : M ToolResult :=
  if String.eqb name "lookup_person_by_email" then
    (validatedArgs <- lift (validateLookupByEmailArgs args) ;;
     eventsLimit <- lift (integerArgument (ByEmail.eventsLimit validatedArgs)) ;;
     result <- getPersonWithEvents client (ByEmail.email validatedArgs)
                 (Some (orDefault eventsLimit 50))
                 (ByEmail.eventType validatedArgs)
                 (ByEmail.from validatedArgs) (ByEmail.to validatedArgs) ;;
     match result with
     | None =>
         ret (textResult
                (JObj [("error",
                        JStr ("No person found with email: "
                              ++ ByEmail.email validatedArgs))]))
     | Some (person, events) =>
         ret (textResult (JObj [("person", personValue person);
                                ("events", JArr (map eventValue events))]))
     end)
  else if String.eqb name "lookup_persons_by_event" then
    (validatedArgs <- lift (validateLookupByEventArgs args) ;;
     limit <- lift (integerArgument (ByEvent.limit validatedArgs)) ;;
     persons <- getPersonsByEvent client (ByEvent.eventName validatedArgs)
                  (Some (orDefault limit 10))
                  (ByEvent.from validatedArgs) (ByEvent.to validatedArgs) ;;
     ret (textResult (JObj [("persons", JArr (map personValue persons));
                            ("count", count persons)])))
  else if String.eqb name "get_person_events" then
    (validatedArgs <- lift (validateGetPersonEventsArgs args) ;;
     limit <- lift (integerArgument (PersonEvents.limit validatedArgs)) ;;
     events <- getPersonEvents client (PersonEvents.personId validatedArgs)
                 (Some (orDefault limit 50))
                 (PersonEvents.eventType validatedArgs)
                 (PersonEvents.from validatedArgs) (PersonEvents.to validatedArgs) ;;
     ret (textResult (JObj [("events", JArr (map eventValue events));
                            ("count", count events)])))
  else
    ret (errorResult ("Unknown tool: " ++ name)).

(** The [catch] block: every error of the model is an [Error] object, so the
    message is its [message]. *)
Definition caught (error : JsError) : ToolResult :=
  match error with
  | Error message => errorResult message
  | _ => mkToolResult (MessageOfThrown error) true
  end.

(** The handler of [CallToolRequestSchema]. *)
Definition callTool (name : string) (args : unknown) : M ToolResult :=
  fun w =>
    match dispatch name args w with
    | (Return result, w') => (Return result, w')
    | (Throw error, w') => (Return (caught error), w')
    | (OutsideType, w') => (OutsideType, w')
    end.

End Handler.

End McpServer.

(** The input schemas of the tools, read as JSON Schema: a listed property
    that is present has the listed type, and every required name is
    present. *)
Definition hasType (type : string) (value : json) : bool :=
  if String.eqb type "string" then
    match value with JStr _ => true | _ => false end
  else if String.eqb type "number" then
    match value with JNum _ => true | _ => false end
  else false.

Definition conforms (tool : McpServer.Tool) (members : list (string * json)) : bool :=
  forallb (fun key => isSet (getField key members))
    (McpServer.schemaRequired tool)
  && forallb (fun p => match getField (fst p) members with
                       | Some value => hasType (fst (snd p)) value
                       | None => true
                       end)
       (McpServer.schemaProperties tool).

(** Whether the validator of the named tool lets the arguments through. *)
Definition returns {A} (o : Outcome A) : bool :=
  match o with
  | Return _ => true
  | _ => false
  end.

Definition validates (name : string) (args : McpServer.unknown) : bool :=
  if String.eqb name "lookup_person_by_email" then
    returns (McpServer.validateLookupByEmailArgs args)
  else if String.eqb name "lookup_persons_by_event" then
    returns (McpServer.validateLookupByEventArgs args)
  else if String.eqb name "get_person_events" then
    returns (McpServer.validateGetPersonEventsArgs args)
  else false.

(** A computation whose new requests all go to [endpoint], as POST with the
    bearer credential [key]. *)
Definition PostsOnlyTo (endpoint key : string) {A} (c : M A) : Prop :=
  forall w req,
    In req (sent (snd (c w))) ->
    In req (sent w)
    \/ (url req = endpoint /\ method req = "POST"
        /\ In ("Authorization", "Bearer " ++ key) (headers req)).

(** An environment with a key and a project id and no region, for running
    [loadConfig]. *)
Definition environment0 : Config.Env :=
  fun name =>
    if String.eqb name "POSTHOG_PERSONAL_API_KEY" then Some "phx_key"
    else if String.eqb name "POSTHOG_PROJECT_ID" then Some "12345"
    else None.

(** A tool name that the server lists. *)
Definition listed (name : string) : bool :=
  existsb (String.eqb name) (map McpServer.toolName McpServer.listTools).

(** * Properties *)

(** ** The model on concrete inputs *)

Example escapeHogQLString_quote_and_backslash :
  escapeHogQLString "o'brien\x" = "o\'brien\\x".
Proof. reflexivity. Qed.

Example escapeHogQLString_control_characters :
  escapeHogQLString (String TAB (String LF (String CR (String NUL ""))))
  = "\t\n\r\0".
Proof. reflexivity. Qed.

Example matchRelative_examples :
  matchRelative "7d" = Some ("7", "d"%char)
  /\ matchRelative "24h" = Some ("24", "h"%char)
  /\ matchRelative "d" = None
  /\ matchRelative "7 d" = None
  /\ matchRelative "7dd" = None
  /\ matchRelative "2024-01-01" = None.
Proof. repeat split. Qed.

Example rnd_examples :
  rnd 9007199254740993 = Fin 9007199254740992
  /\ rnd 9007199254740995 = Fin 9007199254740996
  /\ rnd (10 ^ 25) = Fin 10000000000000000905969664
  /\ rnd (2 ^ 1024) = PosInf.
Proof. repeat split; vm_compute; reflexivity. Qed.

Example decimal_examples :
  decimal 0 = "0" /\ decimal 404 = "404" /\ decimal (-15) = "-15"
  /\ decimal 1000 = "1000".
Proof. repeat split. Qed.

Example formatDateForHogQL_examples :
  formatDateForHogQL (TimeValue 0) = Return "1970-01-01 00:00:00.000"
  /\ formatDateForHogQL (TimeValue 1709164800123) = Return "2024-02-29 00:00:00.123"
  /\ formatDateForHogQL (TimeValue (-1)) = Return "1969-12-31 23:59:59.999"
  /\ formatDateForHogQL (TimeValue maxTime) = Return "+275760-09-13 00:00:00.000"
  /\ formatDateForHogQL InvalidDate = Throw RangeError.
Proof. repeat split; vm_compute; reflexivity. Qed.

(** 31 March 2023, 12:00 UTC, one month back: February has no 31st and the
    day runs over to 3 March. *)
Example monthsBefore_rolls_over :
  monthsBefore 1 1680264000000 = 1677844800000
  /\ formatDateForHogQL (TimeValue 1680264000000) = Return "2023-03-31 12:00:00.000"
  /\ formatDateForHogQL (TimeValue 1677844800000) = Return "2023-03-03 12:00:00.000".
Proof. repeat split; vm_compute; reflexivity. Qed.

Example engine_parse_examples :
  Engine.parse "{}" = Some (JObj [])
  /\ Engine.parse " [1, 2.5e3 ,true,null] "
     = Some (JArr [JNum "1"; JNum "2.5e3"; JBool true; JNull])
  /\ Engine.parse "not json" = None
  /\ Engine.parse "01" = None
  /\ Engine.parse "{,}" = None.
Proof. repeat split; vm_compute; reflexivity. Qed.

(** A whole lookup against a scripted remote end: the person is found, two
    event rows come back, and the second one has properties that are not
    JSON. *)
Example lookup_person_with_events :
  fst (EscapingClient.getPersonWithEvents Engine.personThenEvents Engine.config0
         "a@example.com" None None (Some "7d") None Engine.world0)
  = Return (Some (mkPerson "p1" [] (JObj []),
                  [mkEvent "pageview" "2023-11-14 10:00:00.000000" (JObj []);
                   mkEvent "signup" "2023-11-13 09:00:00.000000" (JObj [])])).
Proof. vm_compute. reflexivity. Qed.

(** ** Strings and numbers *)

Lemma append_assoc (a b c : string) : (a ++ b) ++ c = a ++ (b ++ c).
Proof.
  induction a as [|x a IH]; simpl; [reflexivity | now rewrite IH].
Qed.

Lemma append_nil_r (a : string) : a ++ "" = a.
Proof.
  induction a as [|x a IH]; simpl; [reflexivity | now rewrite IH].
Qed.

Lemma replaceAll_app (c : ascii) (rep a b : string) :
  replaceAll c rep (a ++ b) = replaceAll c rep a ++ replaceAll c rep b.
Proof.
  induction a as [|x a IH]; simpl; [reflexivity|].
  destruct (Ascii.eqb x c); rewrite IH; simpl;
    [now rewrite append_assoc | reflexivity].
Qed.

Lemma occursIn_refl (s : string) : occursIn s s.
Proof. exists "", "". simpl. now rewrite append_nil_r. Qed.

Lemma occursIn_app_l (s a b : string) : occursIn s b -> occursIn s (a ++ b).
Proof.
  intros (pre & post & ->). exists (a ++ pre), post.
  now rewrite append_assoc.
Qed.

Lemma occursIn_app_r (s a b : string) : occursIn s a -> occursIn s (a ++ b).
Proof.
  intros (pre & post & ->). exists pre, (post ++ b).
  now rewrite !append_assoc.
Qed.

Lemma rnd_exact (z : Z) : Z.abs z < two53 -> rnd z = Fin z.
Proof.
  intros H. unfold rnd. destruct (Z.abs z <? two53) eqn:E; [reflexivity|].
  apply Z.ltb_ge in E. lia.
Qed.

Section EscapingFacts.

Lemma escapeHogQLString_cons (c : ascii) (s : string) :
  escapeHogQLString (String c s) = escapeChar c ++ escapeHogQLString s.
Proof.
  unfold escapeHogQLString, escapeChar.
  cbn [replaceAll].
  destruct (Ascii.eqb c backslash) eqn:Eb.
  { rewrite !replaceAll_app. reflexivity. }
  cbn [replaceAll]. destruct (Ascii.eqb c quote) eqn:Eq.
  { rewrite !replaceAll_app. reflexivity. }
  cbn [replaceAll]. destruct (Ascii.eqb c NUL) eqn:E0.
  { rewrite !replaceAll_app. reflexivity. }
  cbn [replaceAll]. destruct (Ascii.eqb c LF) eqn:En.
  { rewrite !replaceAll_app. reflexivity. }
  cbn [replaceAll]. destruct (Ascii.eqb c CR) eqn:Er.
  { rewrite !replaceAll_app. reflexivity. }
  cbn [replaceAll]. destruct (Ascii.eqb c TAB) eqn:Et; reflexivity.
Qed.

(** The six passes amount to one left-to-right pass over the characters. *)
Lemma escapeHogQLString_one_pass (s : string) :
  escapeHogQLString s = escapeOnePass s.
Proof.
  induction s as [|c s IH]; [reflexivity|].
  rewrite escapeHogQLString_cons, IH. reflexivity.
Qed.

Lemma escapeHogQLString_app (a b : string) :
  escapeHogQLString (a ++ b) = escapeHogQLString a ++ escapeHogQLString b.
Proof.
  unfold escapeHogQLString. now rewrite !replaceAll_app.
Qed.

Lemma readLiteral_escapeChar (c : ascii) (t : string) :
  readLiteral (escapeChar c ++ t) =
  match readLiteral t with
  | Some (content, rest) => Some (String c content, rest)
  | None => None
  end.
Proof.
  unfold escapeChar.
  destruct (Ascii.eqb c backslash) eqn:Eb.
  { apply Ascii.eqb_eq in Eb. subst c. reflexivity. }
  destruct (Ascii.eqb c quote) eqn:Eq.
  { apply Ascii.eqb_eq in Eq. subst c. reflexivity. }
  destruct (Ascii.eqb c NUL) eqn:E0.
  { apply Ascii.eqb_eq in E0. subst c. reflexivity. }
  destruct (Ascii.eqb c LF) eqn:En.
  { apply Ascii.eqb_eq in En. subst c. reflexivity. }
  destruct (Ascii.eqb c CR) eqn:Er.
  { apply Ascii.eqb_eq in Er. subst c. reflexivity. }
  destruct (Ascii.eqb c TAB) eqn:Et.
  { apply Ascii.eqb_eq in Et. subst c. reflexivity. }
  cbn [str append readLiteral]. rewrite Eq, Eb. reflexivity.
Qed.

Lemma readLiteral_escape (s rest : string) :
  readLiteral (escapeHogQLString s ++ str quote ++ rest) = Some (s, rest).
Proof.
  induction s as [|c s IH]; [reflexivity|].
  rewrite escapeHogQLString_cons, append_assoc, readLiteral_escapeChar, IH.
  reflexivity.
Qed.

Lemma breaksLiteral_escapeChar (c : ascii) (t : string) :
  breaksLiteral (escapeChar c ++ t) = breaksLiteral t.
Proof.
  unfold escapeChar.
  destruct (Ascii.eqb c backslash) eqn:Eb; [reflexivity|].
  destruct (Ascii.eqb c quote) eqn:Eq; [reflexivity|].
  destruct (Ascii.eqb c NUL); [reflexivity|].
  destruct (Ascii.eqb c LF); [reflexivity|].
  destruct (Ascii.eqb c CR); [reflexivity|].
  destruct (Ascii.eqb c TAB); [reflexivity|].
  cbn [str append breaksLiteral]. rewrite Eq, Eb. reflexivity.
Qed.

Lemma breaksLiteral_escape (s : string) :
  breaksLiteral (escapeHogQLString s) = false.
Proof.
  induction s as [|c s IH]; [reflexivity|].
  now rewrite escapeHogQLString_cons, breaksLiteral_escapeChar.
Qed.

Lemma escapeHogQLString_injective (s t : string) :
  escapeHogQLString s = escapeHogQLString t -> s = t.
Proof.
  intros E.
  pose proof (readLiteral_escape s "") as Hs.
  rewrite E, readLiteral_escape in Hs. congruence.
Qed.

End EscapingFacts.

(** ** The transport monad *)

Section MonadFacts.

Variable host : Host.
Variable config : PostHogConfig.


Lemma executeQuery_sent {T} (row : json -> option T) (query : string) (w : World) :
  sent (snd (executeQuery host config row query w))
  = (sent w ++ [request host config query])%list
  /\ reads (snd (executeQuery host config row query w)) = reads w.
Proof.
  unfold executeQuery.
  destruct (fetch host (sent w) (request host config query)) as [r|];
    [|split; reflexivity].
  destruct (negb (ok r)); [split; reflexivity|].
  destruct (JSON_parse host (text r)) as [j|]; [|split; reflexivity].
  destruct (asHogQLQueryResult row j); [|split; reflexivity].
  destruct (env_DEBUG host); split; reflexivity.
Qed.

Lemma executeQuery_not_ok {T} (row : json -> option T) (query : string)
  (w : World) (r : Response) :
  fetch host (sent w) (request host config query) = Some r ->
  ok r = false ->
  executeQuery host config row query w
  = (Throw (Error (apiErrorMessage r)), logged w (request host config query)).
Proof.
  intros Hf Hok. unfold executeQuery. rewrite Hf, Hok. reflexivity.
Qed.

Lemma executeQuery_error_inv {T} (row : json -> option T) (query : string)
  (w w' : World) (msg : string) :
  executeQuery host config row query w = (Throw (Error msg), w') ->
  exists r, fetch host (sent w) (request host config query) = Some r
            /\ ok r = false /\ msg = apiErrorMessage r.
Proof.
  unfold executeQuery.
  destruct (fetch host (sent w) (request host config query)) as [r|];
    [|discriminate].
  destruct (ok r) eqn:Hok; cbn [negb].
  - destruct (JSON_parse host (text r)) as [j|]; [|discriminate].
    destruct (asHogQLQueryResult row j); [|discriminate].
    destruct (env_DEBUG host); discriminate.
  - intros E. injection E as E _. exists r. auto.
Qed.

Lemma bind_return {A B} (c : M A) (k : A -> M B) (w w1 : World) (a : A) :
  c w = (Return a, w1) -> bind c k w = k a w1.
Proof. intros E. unfold bind. now rewrite E. Qed.

Lemma bind_throw {A B} (c : M A) (k : A -> M B) (w w1 : World) (e : JsError) :
  c w = (Throw e, w1) -> bind c k w = (Throw e, w1).
Proof. intros E. unfold bind. now rewrite E. Qed.

Lemma bind_outside {A B} (c : M A) (k : A -> M B) (w w1 : World) :
  c w = (OutsideType, w1) -> bind c k w = (OutsideType, w1).
Proof. intros E. unfold bind. now rewrite E. Qed.

End MonadFacts.

(** ** Escaping of interpolated text (C1, C2) *)

Section EscapingClientQueries.

Variable host : Host.
Variable config : PostHogConfig.

(** [getPersonByEmail] of the escaping client always sends the query whose
    literal is [escapeHogQLString email]. *)
Lemma getPersonByEmail_escapes (email : string) (w : World) :
  sent (snd (EscapingClient.getPersonByEmail host config email w))
  = (sent w ++ [request host config (personByEmailQuery (escapeHogQLString email))])%list.
Proof.
  unfold EscapingClient.getPersonByEmail, bind.
  pose proof (executeQuery_sent host config row2
                (personByEmailQuery (escapeHogQLString email)) w) as [Hs _].
  destruct (executeQuery host config row2
              (personByEmailQuery (escapeHogQLString email)) w) as [[r| |] w1];
    cbn [snd] in *; try exact Hs.
  destruct (results r) as [|[i p] rest]; exact Hs.
Qed.

(** Whatever [getPersonsByEvent] of the escaping client sends is the query
    whose literal is [escapeHogQLString eventName]. *)
Lemma getPersonsByEvent_escapes (eventName : string) (limit : option Z)
  (from to : option string) (w : World) :
  let w' := snd (EscapingClient.getPersonsByEvent host config eventName limit from to w) in
  sent w' = sent (snd (EscapingClient.buildTimestampClause host (mkTimeframe from to) w))
  \/ exists clause,
       sent w' = (sent (snd (EscapingClient.buildTimestampClause host
                               (mkTimeframe from to) w))
                  ++ [request host config
                        (personsByEventQuery (escapeHogQLString eventName) clause
                           (orDefault limit 10))])%list.
Proof.
  cbv zeta. unfold EscapingClient.getPersonsByEvent, bind.
  destruct (EscapingClient.buildTimestampClause host (mkTimeframe from to) w)
    as [[clause| |] w1]; cbn [snd]; auto.
  right. exists clause.
  pose proof (executeQuery_sent host config row2
                (personsByEventQuery (escapeHogQLString eventName) clause
                   (orDefault limit 10)) w1) as [Hs _].
  destruct (executeQuery host config row2 _ w1) as [[r| |] w2];
    cbn [snd] in *; exact Hs.
Qed.


Lemma getPersonEvents_escapes (personId : string) (limit : option Z)
  (eventType from to : option string) (w : World) :
  let tf := mkTimeframe (Some (orDefault from "30d")) to in
  let w' := snd (EscapingClient.getPersonEvents host config personId limit
                   eventType from to w) in
  sent w' = sent (snd (EscapingClient.buildTimestampClause host tf w))
  \/ exists clause,
       sent w' = (sent (snd (EscapingClient.buildTimestampClause host tf w))
                  ++ [request host config
                        (personEventsQuery (escapeHogQLString personId)
                           (eventTypeClause escapeHogQLString eventType) clause
                           (orDefault limit 50))])%list.
Proof.
  cbv zeta. unfold EscapingClient.getPersonEvents, bind.
  destruct (EscapingClient.buildTimestampClause host
              (mkTimeframe (Some (orDefault from "30d")) to) w)
    as [[clause| |] w1]; cbn [snd]; auto.
  right. exists clause.
  pose proof (executeQuery_sent host config row3
                (personEventsQuery (escapeHogQLString personId)
                   (eventTypeClause escapeHogQLString eventType) clause
                   (orDefault limit 50)) w1) as [Hs _].
  unfold eventTypeClause in Hs.
  destruct (executeQuery host config row3 _ w1) as [[r| |] w2];
    cbn [snd] in *; exact Hs.
Qed.

End EscapingClientQueries.

(** C1 - the free text a lookup interpolates is escaped first, by the six
    replacements in the order backslash, quote, NUL, LF, CR, TAB.  The client
    of [src/client.ts] replaces quotes only: for the email
    [back\slash@example.com] it sends the backslash as it came, where the
    escaping client, on the same input, sends it doubled. *)
Theorem C1_client_ts_interpolates_unescaped_backslash :
  sent (snd (ClientTs.getPersonByEmail Engine.offline Engine.config0
               "back\slash@example.com" Engine.world0))
  = [request Engine.offline Engine.config0
       (personByEmailQuery "back\slash@example.com")]
  /\ sent (snd (EscapingClient.getPersonByEmail Engine.offline Engine.config0
                  "back\slash@example.com" Engine.world0))
     = [request Engine.offline Engine.config0
          (personByEmailQuery "back\\slash@example.com")]
  /\ escapeHogQLString "back\slash@example.com" = "back\\slash@example.com"
  /\ personByEmailQuery "back\slash@example.com"
     <> personByEmailQuery (escapeHogQLString "back\slash@example.com").
Proof.
  repeat split; try reflexivity.
  intros E. vm_compute in E. discriminate E.
Qed.

(** C2 - a value read back from its quoted literal is the value that went
    in, and no quote of the value ends the literal.  In [src/client.ts] the
    email [x\' OR 1=1 --] becomes the literal text [x\\' OR 1=1 --]: the
    doubled backslash is read as one backslash, the quote of the input ends
    the literal, and the rest of the input is query text.  The same input
    through [escapeHogQLString] reads back whole. *)
Theorem C2_client_ts_quote_reaches_query_text :
  sent (snd (ClientTs.getPersonByEmail Engine.offline Engine.config0
               "x\' OR 1=1 --" Engine.world0))
  = [request Engine.offline Engine.config0
       (personByEmailQuery (replaceQuotes "x\' OR 1=1 --"))]
  /\ replaceQuotes "x\' OR 1=1 --" = "x\\' OR 1=1 --"
  /\ readLiteral (replaceQuotes "x\' OR 1=1 --" ++ "'" ++ personByEmailTail)
     = Some ("x\", " OR 1=1 --'" ++ personByEmailTail)
  /\ breaksLiteral (replaceQuotes "x\' OR 1=1 --") = true
  /\ readLiteral (escapeHogQLString "x\' OR 1=1 --" ++ "'" ++ personByEmailTail)
     = Some ("x\' OR 1=1 --", personByEmailTail).
Proof.
  repeat split; reflexivity.
Qed.

(** C3 - a properties column that is not JSON, or not a JSON object, maps to
    the empty object and the lookup succeeds.  In [src/client.ts] the column
    goes through a bare [JSON.parse]: the row [("p1", "not json")] makes
    [getPersonByEmail] throw a SyntaxError, and the row [("p1", "[1,2]")]
    comes back with an array for properties; the escaping client answers
    both with empty properties. *)
Theorem C3_client_ts_throws_on_malformed_properties :
  fst (ClientTs.getPersonByEmail (Engine.personRow "not json") Engine.config0
         "a@example.com" Engine.world0)
  = Throw SyntaxError
  /\ fst (ClientTs.getPersonByEmail (Engine.personRow "[1,2]") Engine.config0
            "a@example.com" Engine.world0)
     = Return (Some (mkPerson "p1" [] (JArr [JNum "1"; JNum "2"])))
  /\ fst (EscapingClient.getPersonByEmail (Engine.personRow "not json")
            Engine.config0 "a@example.com" Engine.world0)
     = Return (Some (mkPerson "p1" [] (JObj [])))
  /\ fst (EscapingClient.getPersonByEmail (Engine.personRow "[1,2]")
            Engine.config0 "a@example.com" Engine.world0)
     = Return (Some (mkPerson "p1" [] (JObj []))).
Proof.
  repeat split; vm_compute; reflexivity.
Qed.

(** ** Remote-API errors (C9) *)

Section ApiErrors.

Variable host : Host.
Variable config : PostHogConfig.

Lemma contract_quiet {A} (c : M A) :
  (forall w, sent (snd (c w)) = sent w /\ notApiError (fst (c w))) ->
  ApiErrorContract host c.
Proof.
  intros H w o w' E. destruct (H w) as [Hs Hn]. rewrite E in Hs, Hn.
  cbn [fst snd] in *. exists []. rewrite app_nil_r. split; [exact Hs|]. split.
  - intros pre req post r E'. destruct pre; discriminate E'.
  - intros msg ->. destruct (Hn msg eq_refl).
Qed.

Lemma contract_ret {A} (a : A) : ApiErrorContract host (ret a).
Proof.
  apply contract_quiet. intros w. split; [reflexivity|]. intros msg E.
  discriminate E.
Qed.

Lemma contract_lift {A} (o : Outcome A) :
  notApiError o -> ApiErrorContract host (lift o).
Proof.
  intros H. apply contract_quiet. intros w. split; [reflexivity | exact H].
Qed.

Lemma contract_newDate : ApiErrorContract host (newDate host).
Proof.
  apply contract_quiet. intros w. split; [reflexivity|]. intros msg E.
  discriminate E.
Qed.

Lemma contract_bind {A B} (c : M A) (k : A -> M B) :
  ApiErrorContract host c ->
  (forall a, ApiErrorContract host (k a)) ->
  ApiErrorContract host (bind c k).
Proof.
  intros Hc Hk w o w' E. unfold bind in E.
  destruct (c w) as [[a|e|] w1] eqn:Ec.
  - destruct (Hc _ _ _ Ec) as (L1 & S1 & A1 & _).
    destruct (Hk a _ _ _ E) as (L2 & S2 & A2 & B2).
    exists (L1 ++ L2)%list. split; [now rewrite S2, S1, app_assoc|]. split.
    + intros pre req post r EL Hf Hok.
      apply app_eq_app in EL. destruct EL as (l & [[E1 E2] | [E1 E2]]).
      * destruct l as [|req' l'].
        -- cbn [app] in E2. rewrite app_nil_r in E1. subst pre.
           apply (A2 [] req post r); [now rewrite E2 | | exact Hok].
           now rewrite app_nil_r, S1.
        -- cbn [app] in E2. injection E2 as <- ->.
           destruct (A1 pre req l' r E1 Hf Hok) as [_ Habs]. discriminate Habs.
      * subst pre. apply (A2 l req post r E2); [|exact Hok].
        now rewrite S1, <- app_assoc.
    + intros msg Ho. destruct (B2 msg Ho) as (pre & req & r & -> & Hf & Hok & ->).
      exists (L1 ++ pre)%list, req, r. repeat split; try assumption.
      * now rewrite app_assoc.
      * now rewrite app_assoc, <- S1.
  - injection E as <- <-. destruct (Hc _ _ _ Ec) as (L1 & S1 & A1 & B1).
    exists L1. split; [exact S1|]. split.
    + intros pre req post r EL Hf Hok.
      destruct (A1 _ _ _ _ EL Hf Hok) as [-> Habs].
      injection Habs as ->. auto.
    + intros msg Ho. injection Ho as ->. apply (B1 msg eq_refl).
  - injection E as <- <-. destruct (Hc _ _ _ Ec) as (L1 & S1 & A1 & B1).
    exists L1. split; [exact S1|]. split.
    + intros pre req post r EL Hf Hok.
      destruct (A1 _ _ _ _ EL Hf Hok) as [_ Habs]. discriminate Habs.
    + intros msg Ho. discriminate Ho.
Qed.

Lemma contract_executeQuery {T} (row : json -> option T) (query : string) :
  ApiErrorContract host (executeQuery host config row query).
Proof.
  intros w o w' E. exists [request host config query].
  pose proof (executeQuery_sent host config row query w) as [Hs _].
  rewrite E in Hs. cbn [snd] in Hs. split; [exact Hs|]. split.
  - intros pre req post r EL Hf Hok.
    destruct pre as [|x pre].
    + cbn [app] in EL. injection EL as <- <-. rewrite app_nil_r in Hf.
      rewrite (executeQuery_not_ok host config row query w r Hf Hok) in E.
      injection E as <- _. auto.
    + destruct pre; discriminate EL.
  - intros msg ->. apply executeQuery_error_inv in E.
    destruct E as (r & Hf & Hok & ->). exists [], (request host config query), r.
    rewrite app_nil_r. auto.
Qed.

Lemma formatDateForHogQL_notApiError (d : Date) :
  notApiError (formatDateForHogQL d).
Proof. intros msg. destruct d; discriminate. Qed.

Lemma parseProperties_notApiError (pj : string) :
  notApiError (ClientTs.parseProperties host pj).
Proof.
  intros msg. unfold ClientTs.parseProperties.
  destruct (JSON_parse host pj); discriminate.
Qed.

Lemma mapOutcome_notApiError {A B} (f : A -> Outcome B) (l : list A) :
  (forall a, notApiError (f a)) -> notApiError (mapOutcome f l).
Proof.
  intros Hf msg. induction l as [|a l IH]; cbn [mapOutcome]; [discriminate|].
  destruct (f a) as [b|e|] eqn:Ea.
  - destruct (mapOutcome f l) as [bs|e|]; [discriminate | exact IH | discriminate].
  - intros E. injection E as ->. exact (Hf a msg Ea).
  - discriminate.
Qed.

Ltac contract_step :=
  first
    [ apply contract_ret
    | apply contract_newDate
    | apply contract_executeQuery
    | apply contract_lift
    | apply contract_bind; [|intro]
    | match goal with
      | |- ApiErrorContract _ (match ?x with _ => _ end) => destruct x
      | |- ApiErrorContract _ (if ?x then _ else _) => destruct x
      | |- ApiErrorContract _ (let (_, _) := ?x in _) => destruct x
      end ].

Lemma contract_parseRelativeDate_escaping (dateString : string) :
  ApiErrorContract host (EscapingClient.parseRelativeDate host dateString).
Proof. unfold EscapingClient.parseRelativeDate. repeat contract_step. Qed.

Lemma contract_parseRelativeDate_ts (dateString : string) :
  ApiErrorContract host (ClientTs.parseRelativeDate host dateString).
Proof. unfold ClientTs.parseRelativeDate. repeat contract_step. Qed.

Lemma contract_buildTimestampClause_escaping (options : TimeframeOptions) :
  ApiErrorContract host (EscapingClient.buildTimestampClause host options).
Proof.
  unfold EscapingClient.buildTimestampClause.
  repeat first [ apply contract_parseRelativeDate_escaping
               | apply formatDateForHogQL_notApiError
               | contract_step ].
Qed.

Lemma contract_buildTimestampClause_ts (options : TimeframeOptions) :
  ApiErrorContract host (ClientTs.buildTimestampClause host options).
Proof.
  unfold ClientTs.buildTimestampClause.
  repeat first [ apply contract_parseRelativeDate_ts
               | apply formatDateForHogQL_notApiError
               | contract_step ].
Qed.

Lemma contract_properties_ts {A} (build : json -> A) (pj : string) :
  notApiError
    (match ClientTs.parseProperties host pj with
     | Return properties => Return (build properties)
     | Throw e => Throw e
     | OutsideType => OutsideType
     end).
Proof.
  intros msg. unfold ClientTs.parseProperties.
  destruct (JSON_parse host pj); discriminate.
Qed.

Ltac client_contract :=
  repeat first
    [ apply contract_buildTimestampClause_escaping
    | apply contract_buildTimestampClause_ts
    | apply parseProperties_notApiError
    | apply mapOutcome_notApiError; intros [? ?]
    | apply contract_properties_ts
    | contract_step ].

Lemma contract_getPersonByEmail_escaping (email : string) :
  ApiErrorContract host (EscapingClient.getPersonByEmail host config email).
Proof. unfold EscapingClient.getPersonByEmail. client_contract. Qed.

Lemma contract_getPersonEvents_escaping (personId : string) (limit : option Z)
  (eventType from to : option string) :
  ApiErrorContract host
    (EscapingClient.getPersonEvents host config personId limit eventType from to).
Proof. unfold EscapingClient.getPersonEvents. client_contract. Qed.

Lemma contract_getPersonByEmail_ts (email : string) :
  ApiErrorContract host (ClientTs.getPersonByEmail host config email).
Proof. unfold ClientTs.getPersonByEmail. client_contract. Qed.

Lemma contract_getPersonEvents_ts (personId : string) (limit : option Z)
  (eventType from to : option string) :
  ApiErrorContract host
    (ClientTs.getPersonEvents host config personId limit eventType from to).
Proof.
  unfold ClientTs.getPersonEvents. client_contract.
  destruct p. apply contract_properties_ts.
Qed.

(** C9 - in both clients each of the four operations keeps the contract of
    the remote-API error: a response with a non-success status ends the run
    with [Error "PostHog API error (<status>): <body>"], no request follows
    it, and a run in which every response was a success never ends in that
    error. *)
Theorem C9_non_success_status_fails_once :
  (forall email,
     ApiErrorContract host (EscapingClient.getPersonByEmail host config email))
  /\ (forall eventName limit from to,
        ApiErrorContract host
          (EscapingClient.getPersonsByEvent host config eventName limit from to))
  /\ (forall personId limit eventType from to,
        ApiErrorContract host
          (EscapingClient.getPersonEvents host config personId limit eventType
             from to))
  /\ (forall email eventsLimit eventType from to,
        ApiErrorContract host
          (EscapingClient.getPersonWithEvents host config email eventsLimit
             eventType from to))
  /\ (forall email,
        ApiErrorContract host (ClientTs.getPersonByEmail host config email))
  /\ (forall eventName limit from to,
        ApiErrorContract host
          (ClientTs.getPersonsByEvent host config eventName limit from to))
  /\ (forall personId limit eventType from to,
        ApiErrorContract host
          (ClientTs.getPersonEvents host config personId limit eventType from to))
  /\ (forall email eventsLimit eventType from to,
        ApiErrorContract host
          (ClientTs.getPersonWithEvents host config email eventsLimit eventType
             from to))
  /\ (forall r, occursIn (decimal (status r)) (apiErrorMessage r)
                /\ occursIn (text r) (apiErrorMessage r)).
Proof.
  repeat match goal with |- _ /\ _ => split end; intros.
  - apply contract_getPersonByEmail_escaping.
  - unfold EscapingClient.getPersonsByEvent. client_contract.
  - apply contract_getPersonEvents_escaping.
  - unfold EscapingClient.getPersonWithEvents.
    apply contract_bind; [apply contract_getPersonByEmail_escaping|].
    intros [p|]; [|apply contract_ret].
    apply contract_bind; [apply contract_getPersonEvents_escaping|].
    intro. apply contract_ret.
  - apply contract_getPersonByEmail_ts.
  - unfold ClientTs.getPersonsByEvent. client_contract.
  - apply contract_getPersonEvents_ts.
  - unfold ClientTs.getPersonWithEvents.
    apply contract_bind; [apply contract_getPersonByEmail_ts|].
    intros [p|]; [|apply contract_ret].
    apply contract_bind; [apply contract_getPersonEvents_ts|].
    intro. apply contract_ret.
  - unfold apiErrorMessage. split.
    + apply occursIn_app_l, occursIn_app_r, occursIn_refl.
    + apply occursIn_app_l, occursIn_app_l, occursIn_app_l, occursIn_refl.
Qed.

End ApiErrors.

(** ** What the operations send *)

Section Requests.

Variable host : Host.
Variable config : PostHogConfig.

Lemma silent_ret {A} (a : A) : Silent (ret a).
Proof. intros w. reflexivity. Qed.

Lemma silent_lift {A} (o : Outcome A) : Silent (lift o).
Proof. intros w. reflexivity. Qed.

Lemma silent_newDate : Silent (newDate host).
Proof. intros w. reflexivity. Qed.

Lemma silent_bind {A B} (c : M A) (k : A -> M B) :
  Silent c -> (forall a, Silent (k a)) -> Silent (bind c k).
Proof.
  intros Hc Hk w. unfold bind. specialize (Hc w).
  destruct (c w) as [[a|e|] w1]; cbn [snd] in *; try exact Hc.
  now rewrite Hk.
Qed.

Ltac silent_step :=
  first
    [ apply silent_ret
    | apply silent_newDate
    | apply silent_lift
    | apply silent_bind; [|intro]
    | match goal with
      | |- Silent (match ?x with _ => _ end) => destruct x
      | |- Silent (if ?x then _ else _) => destruct x
      | |- Silent (let (_, _) := ?x in _) => destruct x
      end ].

Lemma silent_parseRelativeDate_escaping (dateString : string) :
  Silent (EscapingClient.parseRelativeDate host dateString).
Proof. unfold EscapingClient.parseRelativeDate. repeat silent_step. Qed.

Lemma silent_parseRelativeDate_ts (dateString : string) :
  Silent (ClientTs.parseRelativeDate host dateString).
Proof. unfold ClientTs.parseRelativeDate. repeat silent_step. Qed.

Lemma silent_buildTimestampClause_escaping (options : TimeframeOptions) :
  Silent (EscapingClient.buildTimestampClause host options).
Proof.
  unfold EscapingClient.buildTimestampClause.
  repeat first [apply silent_parseRelativeDate_escaping | silent_step].
Qed.

Lemma silent_buildTimestampClause_ts (options : TimeframeOptions) :
  Silent (ClientTs.buildTimestampClause host options).
Proof.
  unfold ClientTs.buildTimestampClause.
  repeat first [apply silent_parseRelativeDate_ts | silent_step].
Qed.

Lemma getPersonByEmail_ts_request (email : string) (w : World) :
  sent (snd (ClientTs.getPersonByEmail host config email w))
  = (sent w ++ [request host config (personByEmailQuery (replaceQuotes email))])%list.
Proof.
  unfold ClientTs.getPersonByEmail, bind.
  pose proof (executeQuery_sent host config row2
                (personByEmailQuery (replaceQuotes email)) w) as [Hs _].
  destruct (executeQuery host config row2
              (personByEmailQuery (replaceQuotes email)) w) as [[r| |] w1];
    cbn [snd] in *; try exact Hs.
  destruct (results r) as [|[i p] rest]; [exact Hs|].
  unfold lift. destruct (ClientTs.parseProperties host p); exact Hs.
Qed.

(** What [getPersonEvents] sends: nothing, when a time bound cannot be
    formatted, and otherwise the one query on the person id. *)
Lemma getPersonEvents_escaping_request (personId : string) (limit : option Z)
  (eventType from to : option string) (w : World) :
  let w' := snd (EscapingClient.getPersonEvents host config personId limit
                   eventType from to w) in
  sent w' = sent w
  \/ exists clause,
       sent w' = (sent w
                  ++ [request host config
                        (personEventsQuery (escapeHogQLString personId)
                           (eventTypeClause escapeHogQLString eventType) clause
                           (orDefault limit 50))])%list.
Proof.
  cbv zeta.
  pose proof (getPersonEvents_escapes host config personId limit eventType
                from to w) as H.
  cbv zeta in H.
  rewrite (silent_buildTimestampClause_escaping _ w) in H. exact H.
Qed.

Lemma getPersonEvents_ts_request (personId : string) (limit : option Z)
  (eventType from to : option string) (w : World) :
  let w' := snd (ClientTs.getPersonEvents host config personId limit
                   eventType from to w) in
  sent w' = sent w
  \/ exists clause,
       sent w' = (sent w
                  ++ [request host config
                        (personEventsQuery (replaceQuotes personId)
                           (eventTypeClause replaceQuotes eventType) clause
                           (orDefault limit 50))])%list.
Proof.
  cbv zeta. unfold ClientTs.getPersonEvents, bind.
  pose proof (silent_buildTimestampClause_ts
                (mkTimeframe (Some (orDefault from "30d")) to) w) as Hq.
  destruct (ClientTs.buildTimestampClause host
              (mkTimeframe (Some (orDefault from "30d")) to) w)
    as [[clause| |] w1]; cbn [snd] in *; auto.
  right. exists clause. rewrite <- Hq.
  pose proof (executeQuery_sent host config row3
                (personEventsQuery (replaceQuotes personId)
                   (eventTypeClause replaceQuotes eventType) clause
                   (orDefault limit 50)) w1) as [Hs _].
  unfold eventTypeClause in Hs.
  destruct (executeQuery host config row3 _ w1) as [[r| |] w2];
    cbn [snd] in *; exact Hs.
Qed.

End Requests.

(** ** The composed lookup (C7) *)

(** C7 - when the person lookup finds nobody, [getPersonWithEvents] returns
    null in the world the lookup left, in which the person query is the only
    request; when it finds a person, the events lookup runs from the world
    the person lookup left, on that person's id, and whatever it sends comes
    after the person query.  Both clients. *)
Theorem C7_events_lookup_only_after_person_found
  (host : Host) (config : PostHogConfig) (email : string)
  (eventsLimit : option Z) (eventType from to : option string) (w : World) :
  (forall w1,
     EscapingClient.getPersonByEmail host config email w = (Return None, w1) ->
     EscapingClient.getPersonWithEvents host config email eventsLimit eventType
       from to w = (Return None, w1)
     /\ sent w1 = (sent w ++ [request host config
                               (personByEmailQuery (escapeHogQLString email))])%list)
  /\ (forall p w1,
        EscapingClient.getPersonByEmail host config email w = (Return (Some p), w1) ->
        let lookup := EscapingClient.getPersonEvents host config (id p)
                        eventsLimit eventType from to in
        EscapingClient.getPersonWithEvents host config email eventsLimit
          eventType from to w
        = bind lookup (fun events => ret (Some (p, events))) w1
        /\ sent w1 = (sent w ++ [request host config
                                  (personByEmailQuery (escapeHogQLString email))])%list
        /\ (sent (snd (lookup w1)) = sent w1
            \/ exists clause,
                 sent (snd (lookup w1))
                 = (sent w1 ++ [request host config
                                  (personEventsQuery (escapeHogQLString (id p))
                                     (eventTypeClause escapeHogQLString eventType)
                                     clause (orDefault eventsLimit 50))])%list))
  /\ (forall w1,
        ClientTs.getPersonByEmail host config email w = (Return None, w1) ->
        ClientTs.getPersonWithEvents host config email eventsLimit eventType
          from to w = (Return None, w1)
        /\ sent w1 = (sent w ++ [request host config
                                  (personByEmailQuery (replaceQuotes email))])%list)
  /\ (forall p w1,
        ClientTs.getPersonByEmail host config email w = (Return (Some p), w1) ->
        let lookup := ClientTs.getPersonEvents host config (id p)
                        eventsLimit eventType from to in
        ClientTs.getPersonWithEvents host config email eventsLimit eventType
          from to w
        = bind lookup (fun events => ret (Some (p, events))) w1
        /\ sent w1 = (sent w ++ [request host config
                                  (personByEmailQuery (replaceQuotes email))])%list
        /\ (sent (snd (lookup w1)) = sent w1
            \/ exists clause,
                 sent (snd (lookup w1))
                 = (sent w1 ++ [request host config
                                  (personEventsQuery (replaceQuotes (id p))
                                     (eventTypeClause replaceQuotes eventType)
                                     clause (orDefault eventsLimit 50))])%list)).
Proof.
  repeat match goal with |- _ /\ _ => split end.
  - intros w1 E. split.
    + unfold EscapingClient.getPersonWithEvents.
      now rewrite (bind_return _ _ _ _ _ E).
    + pose proof (getPersonByEmail_escapes host config email w) as H.
      now rewrite E in H.
  - intros p w1 E. cbv zeta. split; [|split].
    + unfold EscapingClient.getPersonWithEvents.
      now rewrite (bind_return _ _ _ _ _ E).
    + pose proof (getPersonByEmail_escapes host config email w) as H.
      now rewrite E in H.
    + apply getPersonEvents_escaping_request.
  - intros w1 E. split.
    + unfold ClientTs.getPersonWithEvents.
      now rewrite (bind_return _ _ _ _ _ E).
    + pose proof (getPersonByEmail_ts_request host config email w) as H.
      now rewrite E in H.
  - intros p w1 E. cbv zeta. split; [|split].
    + unfold ClientTs.getPersonWithEvents.
      now rewrite (bind_return _ _ _ _ _ E).
    + pose proof (getPersonByEmail_ts_request host config email w) as H.
      now rewrite E in H.
    + apply getPersonEvents_ts_request.
Qed.

(** With a remote end that has no row for the email, one request is sent and
    the answer is null. *)
Lemma C7_witness_nobody :
  EscapingClient.getPersonWithEvents Engine.noRows Engine.config0
    "nobody@example.com" None None None None Engine.world0
  = (Return None,
     logged Engine.world0
       (request Engine.noRows Engine.config0
          (personByEmailQuery (escapeHogQLString "nobody@example.com")))).
Proof.
  apply (proj1 (C7_events_lookup_only_after_person_found Engine.noRows
                  Engine.config0 "nobody@example.com" None None None None
                  Engine.world0)).
  vm_compute. reflexivity.
Defined.

(** ** Rows to records (C3, C8) *)

Section Rows.

Variable host : Host.
Variable config : PostHogConfig.

(** [safeParseJson] gives the parsed object when the text is a JSON object
    and the empty object in every other case. *)
Lemma safeParseJson_object (pj : string) (members : list (string * json)) :
  JSON_parse host pj = Some (JObj members) ->
  EscapingClient.safeParseJson host pj = JObj members.
Proof. intros E. unfold EscapingClient.safeParseJson. now rewrite E. Qed.

Lemma safeParseJson_malformed (pj : string) :
  JSON_parse host pj = None
  \/ (exists v, JSON_parse host pj = Some v /\ isPlainObject v = false) ->
  EscapingClient.safeParseJson host pj = JObj [].
Proof.
  unfold EscapingClient.safeParseJson. intros [E | (v & E & Hv)]; rewrite E;
    [reflexivity | now rewrite Hv].
Qed.

Lemma safeParseJson_isObject (pj : string) :
  isPlainObject (EscapingClient.safeParseJson host pj) = true.
Proof.
  unfold EscapingClient.safeParseJson.
  destruct (JSON_parse host pj) as [v|]; [|reflexivity].
  destruct (isPlainObject v) eqn:E; [exact E | reflexivity].
Qed.

(** In the escaping client the row mapping cannot fail: once the query has
    returned, so does the operation, with one record per row. *)
Lemma getPersonsByEvent_maps_rows (eventName : string) (limit : option Z)
  (from to : option string) (w w1 w2 : World) (clause : string)
  (result : HogQLQueryResult (string * string)) :
  EscapingClient.buildTimestampClause host (mkTimeframe from to) w
  = (Return clause, w1) ->
  executeQuery host config row2
    (personsByEventQuery (escapeHogQLString eventName) clause (orDefault limit 10))
    w1 = (Return result, w2) ->
  EscapingClient.getPersonsByEvent host config eventName limit from to w
  = (Return (map (fun row => mkPerson (fst row) []
                               (EscapingClient.safeParseJson host (snd row)))
               (results result)), w2).
Proof.
  intros Ec Eq. unfold EscapingClient.getPersonsByEvent.
  rewrite (bind_return _ _ _ _ _ Ec), (bind_return _ _ _ _ _ Eq).
  unfold ret. f_equal. f_equal. apply map_ext. now intros [i p].
Qed.

Lemma getPersonEvents_maps_rows (personId : string) (limit : option Z)
  (eventType from to : option string) (w w1 w2 : World) (clause : string)
  (result : HogQLQueryResult (string * string * string)) :
  EscapingClient.buildTimestampClause host
    (mkTimeframe (Some (orDefault from "30d")) to) w = (Return clause, w1) ->
  executeQuery host config row3
    (personEventsQuery (escapeHogQLString personId)
       (eventTypeClause escapeHogQLString eventType) clause (orDefault limit 50))
    w1 = (Return result, w2) ->
  EscapingClient.getPersonEvents host config personId limit eventType from to w
  = (Return (map (fun row => mkEvent (fst (fst row)) (snd (fst row))
                               (EscapingClient.safeParseJson host (snd row)))
               (results result)), w2).
Proof.
  intros Ec Eq. unfold EscapingClient.getPersonEvents.
  rewrite (bind_return _ _ _ _ _ Ec).
  unfold eventTypeClause in Eq. rewrite (bind_return _ _ _ _ _ Eq).
  unfold ret. f_equal. f_equal. apply map_ext. now intros [[e t] p].
Qed.


End Rows.


(** ** The timestamp clause (C10) *)

Section TimestampClause.

Variable host : Host.
Variable config : PostHogConfig.

Ltac upper_cases upto parse :=
  let t := fresh "t" in
  destruct upto as [t|]; [destruct (truthy t)|]; cbn [app join];
  [ let d := fresh "d" in let w0 := fresh "w0" in let lit := fresh "lit" in
    destruct (parse t) as [[d| |] w0]; try discriminate;
    destruct (formatDateForHogQL d) as [lit| |]; try discriminate
  | | ].

(** With an empty [from] the clause, when there is one, carries the upper
    bound only. *)
Lemma clause_empty_from_escaping (upto : option string) (w w1 : World)
  (clause : string) :
  EscapingClient.buildTimestampClause host (mkTimeframe (Some "") upto) w
  = (Return clause, w1) ->
  clause = "" \/ exists lit, clause = " AND timestamp <= '" ++ lit ++ "'".
Proof.
  unfold EscapingClient.buildTimestampClause, bind, ret, lift.
  cbn [from to truthy].
  upper_cases upto (fun t => EscapingClient.parseRelativeDate host t w);
    intros E; injection E as <- _;
    first [now left | right; eexists; reflexivity].
Qed.

Lemma clause_empty_from_ts (upto : option string) (w w1 : World)
  (clause : string) :
  ClientTs.buildTimestampClause host (mkTimeframe (Some "") upto) w
  = (Return clause, w1) ->
  clause = "" \/ exists lit, clause = " AND timestamp <= '" ++ lit ++ "'".
Proof.
  unfold ClientTs.buildTimestampClause, bind, ret, lift.
  cbn [from to truthy].
  upper_cases upto (fun t => ClientTs.parseRelativeDate host t w);
    intros E; injection E as <- _;
    first [now left | right; eexists; reflexivity].
Qed.

(** With a non-empty [from] the clause starts with the lower bound, the
    formatted date that [parseRelativeDate] resolved. *)
Lemma clause_from_escaping (f : string) (upto : option string) (w w1 : World)
  (clause : string) :
  truthy f = true ->
  EscapingClient.buildTimestampClause host (mkTimeframe (Some f) upto) w
  = (Return clause, w1) ->
  exists d w0 lit rest,
    EscapingClient.parseRelativeDate host f w = (Return d, w0)
    /\ formatDateForHogQL d = Return lit
    /\ clause = " AND timestamp >= '" ++ lit ++ "'" ++ rest.
Proof.
  intros Ht. unfold EscapingClient.buildTimestampClause, bind, ret, lift.
  cbn [from to]. rewrite Ht.
  destruct (EscapingClient.parseRelativeDate host f w) as [[d| |] w0];
    try discriminate.
  destruct (formatDateForHogQL d) as [lit| |] eqn:Ef; try discriminate.
  upper_cases upto (fun t => EscapingClient.parseRelativeDate host t w0);
    intros E; injection E as <- _;
    exists d, w0, lit; eexists; (split; [reflexivity|]); (split; [exact Ef|]);
    cbn [join app]; rewrite ?append_assoc; cbn [append]; reflexivity.
Qed.

Lemma clause_from_ts (f : string) (upto : option string) (w w1 : World)
  (clause : string) :
  truthy f = true ->
  ClientTs.buildTimestampClause host (mkTimeframe (Some f) upto) w
  = (Return clause, w1) ->
  exists d w0 lit rest,
    ClientTs.parseRelativeDate host f w = (Return d, w0)
    /\ formatDateForHogQL d = Return lit
    /\ clause = " AND timestamp >= '" ++ lit ++ "'" ++ rest.
Proof.
  intros Ht. unfold ClientTs.buildTimestampClause, bind, ret, lift.
  cbn [from to]. rewrite Ht.
  destruct (ClientTs.parseRelativeDate host f w) as [[d| |] w0];
    try discriminate.
  destruct (formatDateForHogQL d) as [lit| |] eqn:Ef; try discriminate.
  upper_cases upto (fun t => ClientTs.parseRelativeDate host t w0);
    intros E; injection E as <- _;
    exists d, w0, lit; eexists; (split; [reflexivity|]); (split; [exact Ef|]);
    cbn [join app]; rewrite ?append_assoc; cbn [append]; reflexivity.
Qed.

(** The run of [getPersonEvents], by the outcome of its timestamp clause. *)
Lemma getPersonEvents_escaping_run (personId : string) (limit : option Z)
  (eventType from to : option string) (w : World) :
  match EscapingClient.buildTimestampClause host
          (mkTimeframe (Some (orDefault from "30d")) to) w with
  | (Return clause, w1) =>
      EscapingClient.getPersonEvents host config personId limit eventType from to w
      = bind (executeQuery host config row3
                (personEventsQuery (escapeHogQLString personId)
                   (eventTypeClause escapeHogQLString eventType) clause
                   (orDefault limit 50)))
             (fun result =>
                ret (map (fun '(event, timestamp, propertiesJson) =>
                            mkEvent event timestamp
                              (EscapingClient.safeParseJson host propertiesJson))
                       (results result))) w1
  | (Throw e, w1) =>
      EscapingClient.getPersonEvents host config personId limit eventType from to w
      = (Throw e, w1)
  | (OutsideType, w1) =>
      EscapingClient.getPersonEvents host config personId limit eventType from to w
      = (OutsideType, w1)
  end.
Proof.
  destruct (EscapingClient.buildTimestampClause host _ w) as [[clause| |] w1] eqn:Ec;
    unfold EscapingClient.getPersonEvents;
    [ rewrite (bind_return _ _ _ _ _ Ec)
    | rewrite (bind_throw _ _ _ _ _ Ec)
    | rewrite (bind_outside _ _ _ _ Ec) ]; reflexivity.
Qed.

Lemma getPersonEvents_ts_run (personId : string) (limit : option Z)
  (eventType from to : option string) (w : World) :
  match ClientTs.buildTimestampClause host
          (mkTimeframe (Some (orDefault from "30d")) to) w with
  | (Return clause, w1) =>
      ClientTs.getPersonEvents host config personId limit eventType from to w
      = bind (executeQuery host config row3
                (personEventsQuery (replaceQuotes personId)
                   (eventTypeClause replaceQuotes eventType) clause
                   (orDefault limit 50)))
             (fun result =>
                lift (mapOutcome
                        (fun '(event, timestamp, propertiesJson) =>
                           match ClientTs.parseProperties host propertiesJson with
                           | Return properties =>
                               Return (mkEvent event timestamp properties)
                           | Throw e => Throw e
                           | OutsideType => OutsideType
                           end)
                        (results result))) w1
  | (Throw e, w1) =>
      ClientTs.getPersonEvents host config personId limit eventType from to w
      = (Throw e, w1)
  | (OutsideType, w1) =>
      ClientTs.getPersonEvents host config personId limit eventType from to w
      = (OutsideType, w1)
  end.
Proof.
  destruct (ClientTs.buildTimestampClause host _ w) as [[clause| |] w1] eqn:Ec;
    unfold ClientTs.getPersonEvents;
    [ rewrite (bind_return _ _ _ _ _ Ec)
    | rewrite (bind_throw _ _ _ _ _ Ec)
    | rewrite (bind_outside _ _ _ _ Ec) ]; reflexivity.
Qed.

Lemma sent_after_query {T B} (row : json -> option T) (query : string)
  (k : HogQLQueryResult T -> M B) (w : World) :
  (forall r, Silent (k r)) ->
  sent (snd (bind (executeQuery host config row query) k w))
  = (sent w ++ [request host config query])%list.
Proof.
  intros Hk. unfold bind.
  pose proof (executeQuery_sent host config row query w) as [Hs _].
  destruct (executeQuery host config row query w) as [[r| |] w1];
    cbn [snd] in *; try exact Hs.
  now rewrite Hk.
Qed.


End TimestampClause.

(** ** Numbers and dates *)

Lemma rnd_within (z : Z) : - two53 < z < two53 -> rnd z = Fin z.
Proof. intros H. apply rnd_exact. lia. Qed.

Lemma Nadd_exact (a b : Z) : - two53 < a + b < two53 -> Nadd (Fin a) (Fin b) = Fin (a + b).
Proof. intros H. cbn [Nadd]. now apply rnd_within. Qed.

Lemma Nsub_exact (a b : Z) : - two53 < a - b < two53 -> Nsub (Fin a) (Fin b) = Fin (a - b).
Proof.
  intros H. unfold Nsub. cbn [Nneg Nadd]. replace (a + - b) with (a - b) by lia.
  now apply rnd_within.
Qed.

Lemma Nmul_exact (a b : Z) : - two53 < a * b < two53 -> Nmul (Fin a) (Fin b) = Fin (a * b).
Proof. intros H. cbn [Nmul]. now apply rnd_within. Qed.

Lemma isDigit_value (c : ascii) : isDigit c = true -> 0 <= digitValue c <= 9.
Proof.
  unfold isDigit, digitValue. intros H. apply andb_prop in H as [H1 H2].
  apply Z.leb_le in H1, H2. lia.
Qed.

Lemma digitsValue_ge (s : string) (acc : Z) : 0 <= acc -> acc <= digitsValue acc s.
Proof.
  revert acc. induction s as [|c s IH]; intros acc H; cbn [digitsValue]; [lia|].
  destruct (isDigit c) eqn:E; [|lia].
  pose proof (isDigit_value c E). specialize (IH (10 * acc + digitValue c)). lia.
Qed.

Lemma splitDigits_app (s : string) :
  fst (splitDigits s) ++ snd (splitDigits s) = s.
Proof.
  induction s as [|c s IH]; [reflexivity|]. cbn [splitDigits].
  destruct (isDigit c); [|reflexivity].
  destruct (splitDigits s) as [ds rest]. cbn [fst snd append] in *. now rewrite IH.
Qed.

Lemma matchRelative_inv (ds amountStr : string) (u : ascii) :
  matchRelative ds = Some (amountStr, u) ->
  ds = amountStr ++ str u /\ isUnit u = true
  /\ exists d rest, amountStr = String d rest /\ isDigit d = true.
Proof.
  unfold matchRelative. pose proof (splitDigits_app ds) as Happ.
  assert (Hd : forall d r, fst (splitDigits ds) = String d r -> isDigit d = true).
  { destruct ds as [|c s]; [discriminate|]. cbn [splitDigits].
    destruct (isDigit c) eqn:E; [|discriminate].
    destruct (splitDigits s). cbn [fst]. intros d r H. now injection H as <- _. }
  destruct (splitDigits ds) as [a rest]. cbn [fst snd] in *.
  destruct a as [|d a]; [discriminate|].
  destruct rest as [|u' rest]; [discriminate|].
  destruct rest; [|discriminate].
  destruct (isUnit u') eqn:Eu; [|discriminate].
  intros E. injection E as <- <-. repeat split; auto.
  exists d, a. split; [reflexivity|]. now apply (Hd d a).
Qed.

Lemma parseInt10_exact (s : string) (d : ascii) (rest : string) :
  s = String d rest -> isDigit d = true -> digitsValue 0 s < two53 ->
  parseInt10 s = Fin (digitsValue 0 s) /\ 0 <= digitsValue 0 s.
Proof.
  intros -> Hd Hlt. pose proof (digitsValue_ge (String d rest) 0 ltac:(lia)) as H0.
  split; [|exact H0]. unfold parseInt10. rewrite Hd. apply rnd_exact. lia.
Qed.

Ltac exact_arith :=
  unfold two53, maxTime, msPerDay, msPerHour, msPerMinute, msPerSecond in *; lia.

Lemma isUnit_cases (u : ascii) :
  isUnit u = true -> u = "d"%char \/ u = "h"%char \/ u = "w"%char \/ u = "m"%char.
Proof.
  unfold isUnit. intros H.
  repeat (apply orb_prop in H as [H|H]); apply Ascii.eqb_eq in H; auto.
Qed.

Lemma TimeClip_rnd (x : Z) : TimeClip (rnd x) = TimeClip (Fin x).
Proof.
  unfold rnd. destruct (Z.abs x <? two53) eqn:E; [reflexivity|].
  apply Z.ltb_ge in E. cbv zeta.
  set (a := Z.abs x) in *. set (e := Z.log2 a - 52).
  assert (Ha : 0 < a) by (unfold two53 in E; lia).
  pose proof (Z.log2_spec a Ha) as [Hlo Hhi].
  assert (He : 1 <= e).
  { subst e. assert (53 <= Z.log2 a); [|lia].
    apply Z.log2_le_pow2; [exact Ha|]. exact E. }
  assert (Hpow : 2 ^ Z.log2 a = 2 ^ 52 * 2 ^ e).
  { subst e. rewrite <- Z.pow_add_r by lia. f_equal. lia. }
  assert (Hpe : 2 <= 2 ^ e).
  { change 2 with (2 ^ 1) at 1. apply Z.pow_le_mono_r; lia. }
  assert (Hq : 2 ^ 52 <= a / 2 ^ e).
  { apply Z.div_le_lower_bound; [lia|]. rewrite Z.mul_comm. lia. }
  set (q := a / 2 ^ e) in *.
  set (q' := if a mod 2 ^ e <? 2 ^ (e - 1) then q
             else if 2 ^ (e - 1) <? a mod 2 ^ e then q + 1
             else if Z.even q then q else q + 1).
  assert (Hq' : q <= q').
  { subst q'. destruct (a mod 2 ^ e <? 2 ^ (e - 1)); [lia|].
    destruct (2 ^ (e - 1) <? a mod 2 ^ e); [lia|]. destruct (Z.even q); lia. }
  assert (Hm : two53 <= q' * 2 ^ e).
  { unfold two53. change 9007199254740992 with (2 ^ 52 * 2). nia. }
  assert (Hx : TimeClip (Fin x) = InvalidDate).
  { cbn [TimeClip]. fold a. destruct (a <=? maxTime) eqn:Ea; [|reflexivity].
    apply Z.leb_le in Ea. unfold maxTime, two53 in *. lia. }
  rewrite Hx.
  destruct (2 ^ 1024 <=? q' * 2 ^ e); [destruct (x <? 0); reflexivity|].
  cbn [TimeClip].
  destruct (Z.abs (Z.sgn x * (q' * 2 ^ e)) <=? maxTime) eqn:Ea; [|reflexivity].
  apply Z.leb_le in Ea. exfalso.
  rewrite Z.abs_mul in Ea. subst a.
  assert (Z.abs (Z.sgn x) = 1) by lia.
  unfold maxTime, two53 in *. nia.
Qed.

Lemma parseRelativeDate_escaping_exact (host : Host) (ds amountStr : string)
  (u : ascii) (w : World) :
  matchRelative ds = Some (amountStr, u) ->
  u <> "m"%char ->
  digitsValue 0 amountStr * unitSpan u < two53 ->
  EscapingClient.parseRelativeDate host ds w
  = (Return (TimeClip (Fin (wallclock host (reads w)
                            - digitsValue 0 amountStr * unitSpan u))),
     ticked w).
Proof.
  intros Hm Hu Hn.
  destruct (matchRelative_inv _ _ _ Hm) as (_ & Hunit & d & rest & Ha & Hd).
  unfold EscapingClient.parseRelativeDate, bind, newDate, ret. rewrite Hm.
  cbn [getTime]. fold (ticked w).
  set (now := wallclock host (reads w)) in *.
  set (n := digitsValue 0 amountStr) in *.
  assert (Hp : parseInt10 amountStr = Fin n /\ 0 <= n).
  { apply (parseInt10_exact amountStr d rest Ha Hd).
    pose proof (digitsValue_ge amountStr 0 ltac:(lia)).
    destruct (isUnit_cases u Hunit) as [-> | [-> | [-> | ->]]];
      try congruence; cbv [unitSpan Ascii.eqb Bool.eqb] in Hn; fold n in H |- *; exact_arith. }
  destruct Hp as [-> Hn0].
  destruct (isUnit_cases u Hunit) as [-> | [-> | [-> | ->]]]; try congruence;
    cbv [unitSpan Ascii.eqb Bool.eqb] in Hn; cbn [Ascii.eqb Bool.eqb];
    rewrite !Nmul_exact by exact_arith;
    unfold Nsub; cbn [Nneg Nadd]; rewrite TimeClip_rnd;
    do 4 f_equal; cbv [unitSpan Ascii.eqb Bool.eqb]; exact_arith.
Qed.

Lemma time_fields (t : Z) :
  t = Day t * msPerDay + HourFromTime t * msPerHour + MinFromTime t * msPerMinute
      + SecFromTime t * msPerSecond + msFromTime t
  /\ 0 <= HourFromTime t < 24 /\ 0 <= MinFromTime t < 60
  /\ 0 <= SecFromTime t < 60 /\ 0 <= msFromTime t < 1000.
Proof.
  unfold Day, HourFromTime, MinFromTime, SecFromTime, msFromTime,
    msPerDay, msPerHour, msPerMinute, msPerSecond.
  Z.to_euclidean_division_equations; lia.
Qed.

Lemma day_fields (t : Z) :
  t = Day t * msPerDay + TimeWithinDay t /\ 0 <= TimeWithinDay t < msPerDay.
Proof.
  unfold Day, TimeWithinDay, msPerDay. Z.to_euclidean_division_equations; lia.
Qed.

Lemma DayFromYear_succ (y : Z) : DayFromYear (y + 1) = DayFromYear y + DaysInYear y.
Proof.
  unfold DayFromYear, DaysInYear.
  destruct (y mod 4 =? 0) eqn:E4; destruct (y mod 100 =? 0) eqn:E100;
  destruct (y mod 400 =? 0) eqn:E400; cbn [negb];
  rewrite ?Z.eqb_eq, ?Z.eqb_neq in *;
  Z.to_euclidean_division_equations; lia.
Qed.

Lemma YearFromDay_spec (d : Z) :
  DayFromYear (YearFromDay d) <= d < DayFromYear (YearFromDay d + 1).
Proof.
  unfold YearFromDay.
  set (y := 1970 + 400 * d / 146097).
  destruct (DayFromYear (y + 1) <=? d) eqn:E1.
  - apply Z.leb_le in E1. split; [exact E1|].
    unfold DayFromYear in *. subst y.
    Z.to_euclidean_division_equations; lia.
  - apply Z.leb_gt in E1. destruct (DayFromYear y <=? d) eqn:E2.
    + apply Z.leb_le in E2. lia.
    + apply Z.leb_gt in E2. replace (y - 1 + 1) with y by lia. split; [|lia].
      unfold DayFromYear in *. subst y.
      Z.to_euclidean_division_equations; lia.
Qed.

Lemma leapDay_cases (y : Z) :
  (leapDay y = 0 /\ DaysInYear y = 365) \/ (leapDay y = 1 /\ DaysInYear y = 366).
Proof.
  unfold leapDay, DaysInYear.
  destruct (y mod 4 =? 0); destruct (y mod 100 =? 0); destruct (y mod 400 =? 0);
    cbn; auto.
Qed.

Lemma MonthFromTime_range (t : Z) : 0 <= MonthFromTime t <= 11.
Proof.
  unfold MonthFromTime.
  repeat match goal with |- context [if ?c then _ else _] => destruct c end; lia.
Qed.

Lemma DayWithinYear_range (t : Z) :
  0 <= DayWithinYear t < DaysInYear (YearFromTime t).
Proof.
  unfold DayWithinYear, YearFromTime.
  pose proof (YearFromDay_spec (Day t)) as H.
  rewrite DayFromYear_succ in H. lia.
Qed.

Lemma InLeapYear_leapDay (t : Z) : InLeapYear t = leapDay (YearFromTime t).
Proof. reflexivity. Qed.

Lemma DateFromTime_range (t : Z) : 1 <= DateFromTime t <= 31.
Proof.
  unfold DateFromTime, MonthFromTime. pose proof (DayWithinYear_range t) as H.
  rewrite InLeapYear_leapDay.
  destruct (leapDay_cases (YearFromTime t)) as [[-> Hy]|[-> Hy]]; rewrite Hy in H;
  repeat match goal with
         | |- context [if ?a <? ?b then _ else _] =>
             destruct (Z.ltb_spec a b)
         end; cbn; lia.
Qed.

Lemma monthIndex_split (t : Z) :
  monthIndex t / 12 = YearFromTime t /\ monthIndex t mod 12 = MonthFromTime t.
Proof.
  unfold monthIndex. pose proof (MonthFromTime_range t).
  Z.to_euclidean_division_equations; lia.
Qed.

Lemma Day_monthFirstDay (t : Z) :
  Day t = monthFirstDay (monthIndex t) + DateFromTime t - 1.
Proof.
  unfold monthFirstDay. destruct (monthIndex_split t) as [-> ->].
  unfold DateFromTime, DayWithinYear. rewrite InLeapYear_leapDay. lia.
Qed.

Lemma monthStart_step (m l : Z) :
  0 <= m <= 10 -> l = 0 \/ l = 1 ->
  monthStart m l + 28 <= monthStart (m + 1) l <= monthStart m l + 31.
Proof.
  intros Hm Hl.
  assert (Hc : m = 0 \/ m = 1 \/ m = 2 \/ m = 3 \/ m = 4 \/ m = 5 \/ m = 6
               \/ m = 7 \/ m = 8 \/ m = 9 \/ m = 10) by lia.
  destruct Hl as [-> | ->];
    repeat (destruct Hc as [Hc|Hc]; [subst m; vm_compute; split; discriminate|]);
    subst m; vm_compute; split; discriminate.
Qed.

Lemma monthFirstDay_step (k : Z) :
  monthFirstDay k + 28 <= monthFirstDay (k + 1) <= monthFirstDay k + 31.
Proof.
  unfold monthFirstDay.
  assert (Hm : 0 <= k mod 12 < 12) by (apply Z.mod_pos_bound; lia).
  destruct (Z.eq_dec (k mod 12) 11) as [E|E].
  - assert (E1 : (k + 1) / 12 = k / 12 + 1) by (Z.to_euclidean_division_equations; lia).
    assert (E2 : (k + 1) mod 12 = 0) by (Z.to_euclidean_division_equations; lia).
    rewrite E1, E2, E, DayFromYear_succ.
    destruct (leapDay_cases (k / 12)) as [[-> ->]|[-> ->]]; cbn; lia.
  - assert (E1 : (k + 1) / 12 = k / 12) by (Z.to_euclidean_division_equations; lia).
    assert (E2 : (k + 1) mod 12 = k mod 12 + 1) by (Z.to_euclidean_division_equations; lia).
    rewrite E1, E2.
    pose proof (monthStart_step (k mod 12) (leapDay (k / 12)) ltac:(lia)) as H.
    destruct (leapDay_cases (k / 12)) as [[El _]|[El _]]; rewrite El in *; lia.
Qed.

Lemma monthFirstDay_back (n : nat) (k : Z) :
  monthFirstDay k - 31 * Z.of_nat n <= monthFirstDay (k - Z.of_nat n)
  <= monthFirstDay k - 28 * Z.of_nat n.
Proof.
  induction n as [|n IH]; [replace (k - Z.of_nat 0) with k by lia; lia|].
  pose proof (monthFirstDay_step (k - Z.of_nat (S n))) as H.
  replace (k - Z.of_nat (S n) + 1) with (k - Z.of_nat n) in H by lia. lia.
Qed.

Lemma monthFirstDay_before (n k : Z) :
  0 <= n ->
  monthFirstDay k - 31 * n <= monthFirstDay (k - n) <= monthFirstDay k - 28 * n.
Proof.
  intros Hn. pose proof (monthFirstDay_back (Z.to_nat n) k) as H.
  rewrite Z2Nat.id in H by exact Hn. exact H.
Qed.

Section Fixed.

Variable host : Host.
Variable off : Z.
Hypothesis zone : FixedZone host off.
Hypothesis off_small : - msPerDay <= off <= msPerDay.

Lemma LocalTime_fixed (t : Z) : LocalTime host t = t + off.
Proof. unfold LocalTime. now rewrite zone. Qed.

Lemma UTC_fixed (x : Z) :
  - two53 < x - off < two53 -> UTC host (Fin x) = Fin (x - off).
Proof. intros H. unfold UTC. rewrite zone. now apply Nsub_exact. Qed.

Lemma TimeClip_valid (t : Z) :
  - maxTime <= t <= maxTime -> TimeClip (Fin t) = TimeValue t.
Proof.
  intros H. cbn [TimeClip]. destruct (Z.abs t <=? maxTime) eqn:E; [reflexivity|].
  apply Z.leb_gt in E. lia.
Qed.

Lemma MakeDate_exact (day time : Z) :
  - two53 < day * msPerDay < two53 -> - two53 < day * msPerDay + time < two53 ->
  MakeDate (Fin day) (Fin time) = Fin (day * msPerDay + time).
Proof.
  intros H1 H2. unfold MakeDate. now rewrite Nmul_exact, Nadd_exact.
Qed.

Lemma MakeTime_exact (h m s ms : Z) :
  - two53 < h * msPerHour < two53 - msPerHour ->
  0 <= m < 60 -> 0 <= s < 60 -> 0 <= ms < 1000 ->
  MakeTime (Fin h) (Fin m) (Fin s) (Fin ms)
  = Fin (h * msPerHour + m * msPerMinute + s * msPerSecond + ms).
Proof.
  intros Hh Hm Hs Hms. unfold MakeTime.
  rewrite !Nmul_exact by exact_arith. rewrite !Nadd_exact by exact_arith.
  reflexivity.
Qed.

Lemma MakeDay_exact (y m dt : Z) :
  - two53 + 1 < monthFirstDay (12 * y + m) + dt < two53 - 1 ->
  MakeDay (Fin y) (Fin m) (Fin dt) = Fin (monthFirstDay (12 * y + m) + dt - 1).
Proof.
  intros H. unfold MakeDay. cbv zeta. fold (leapDay (y + m / 12)).
  assert (E1 : (12 * y + m) / 12 = y + m / 12)
    by (Z.to_euclidean_division_equations; lia).
  assert (E2 : (12 * y + m) mod 12 = m mod 12)
    by (Z.to_euclidean_division_equations; lia).
  unfold monthFirstDay in *. rewrite E1, E2 in *.
  rewrite Nadd_exact by exact_arith. rewrite Nsub_exact by exact_arith.
  reflexivity.
Qed.

Lemma setHours_fixed (t0 n : Z) :
  - maxTime <= t0 <= maxTime -> 0 <= n -> n * msPerHour < two53 ->
  - maxTime <= t0 - n * msPerHour ->
  setHours host (TimeValue t0) (Nsub (getHours host (TimeValue t0)) (Fin n))
  = TimeValue (t0 - n * msPerHour).
Proof.
  intros Ht Hn Hs Hr. unfold setHours, getHours. rewrite LocalTime_fixed.
  pose proof (time_fields (t0 + off)) as (Hf & Hh & Hmi & Hse & Hms).
  rewrite Nsub_exact by exact_arith.
  rewrite MakeTime_exact by exact_arith.
  rewrite MakeDate_exact by exact_arith.
  rewrite UTC_fixed by exact_arith.
  rewrite <- TimeClip_valid by exact_arith. f_equal. f_equal. exact_arith.
Qed.

Lemma setDate_fixed (t0 n : Z) :
  - maxTime <= t0 <= maxTime -> 0 <= n -> n * msPerDay < two53 ->
  - maxTime <= t0 - n * msPerDay ->
  setDate host (TimeValue t0) (Nsub (getDate host (TimeValue t0)) (Fin n))
  = TimeValue (t0 - n * msPerDay).
Proof.
  intros Ht Hn Hs Hr. unfold setDate, getDate. rewrite LocalTime_fixed.
  pose proof (day_fields (t0 + off)) as [Hd Hw].
  pose proof (DateFromTime_range (t0 + off)) as HD.
  pose proof (Day_monthFirstDay (t0 + off)) as Hday. unfold monthIndex in Hday.
  rewrite Nsub_exact by exact_arith.
  rewrite MakeDay_exact by exact_arith.
  rewrite MakeDate_exact by exact_arith.
  rewrite UTC_fixed by exact_arith.
  rewrite <- TimeClip_valid by exact_arith. f_equal. f_equal. exact_arith.
Qed.

Lemma monthsBefore_eq (n t : Z) :
  monthsBefore n t
  = (monthFirstDay (monthIndex t - n) + DateFromTime t - 1) * msPerDay
    + TimeWithinDay t.
Proof. reflexivity. Qed.

Lemma setMonth_fixed (t0 n : Z) :
  - maxTime <= t0 <= maxTime -> 0 <= n ->
  - maxTime <= monthsBefore n (t0 + off) - off ->
  setMonth host (TimeValue t0) (Nsub (getMonth host (TimeValue t0)) (Fin n))
  = TimeValue (monthsBefore n (t0 + off) - off)
  /\ monthsBefore n (t0 + off) - off <= t0.
Proof.
  intros Ht Hn Hr. unfold setMonth, getMonth. rewrite LocalTime_fixed.
  rewrite monthsBefore_eq in *.
  pose proof (day_fields (t0 + off)) as [Hd Hw].
  pose proof (DateFromTime_range (t0 + off)) as HD.
  pose proof (MonthFromTime_range (t0 + off)) as HM.
  pose proof (Day_monthFirstDay (t0 + off)) as Hday.
  pose proof (monthFirstDay_before n (monthIndex (t0 + off)) Hn) as Hback.
  assert (Ek : 12 * YearFromTime (t0 + off) + (MonthFromTime (t0 + off) - n)
               = monthIndex (t0 + off) - n) by (unfold monthIndex; lia).
  split; [|exact_arith].
  rewrite Nsub_exact by exact_arith.
  rewrite MakeDay_exact by (rewrite Ek; exact_arith).
  rewrite Ek.
  rewrite MakeDate_exact by exact_arith.
  rewrite UTC_fixed by exact_arith.
  apply TimeClip_valid. exact_arith.
Qed.

End Fixed.

Lemma DayFromYear_lt (a b : Z) : a < b -> DayFromYear a + 365 <= DayFromYear b.
Proof.
  intros H. unfold DayFromYear. Z.to_euclidean_division_equations; lia.
Qed.

Lemma YearFromDay_unique (d y : Z) :
  DayFromYear y <= d < DayFromYear (y + 1) -> YearFromDay d = y.
Proof.
  intros H. pose proof (YearFromDay_spec d) as S.
  destruct (Z.lt_trichotomy (YearFromDay d) y) as [L|[E|G]]; [|exact E|].
  - pose proof (DayFromYear_lt (YearFromDay d) y L).
    pose proof (DayFromYear_succ (YearFromDay d)).
    assert (YearFromDay d + 1 <= y) by lia.
    destruct (Z.eq_dec (YearFromDay d + 1) y) as [<-|N]; [lia|].
    pose proof (DayFromYear_lt (YearFromDay d + 1) y ltac:(lia)). lia.
  - destruct (Z.eq_dec (y + 1) (YearFromDay d)) as [E|N].
    + rewrite <- E in S. lia.
    + pose proof (DayFromYear_lt (y + 1) (YearFromDay d) ltac:(lia)). lia.
Qed.

Lemma monthFirstDay_eq (k : Z) :
  monthFirstDay k = DayFromYear (k / 12) + monthStart (k mod 12) (leapDay (k / 12)).
Proof. reflexivity. Qed.

Lemma monthStart_range (m l : Z) :
  0 <= m <= 11 -> l = 0 \/ l = 1 -> 0 <= monthStart m l <= 334 + l.
Proof.
  intros Hm Hl.
  assert (Hc : m = 0 \/ m = 1 \/ m = 2 \/ m = 3 \/ m = 4 \/ m = 5 \/ m = 6
               \/ m = 7 \/ m = 8 \/ m = 9 \/ m = 10 \/ m = 11) by lia.
  destruct Hl as [-> | ->];
    repeat (destruct Hc as [Hc|Hc]; [subst m; vm_compute; split; discriminate|]);
    subst m; vm_compute; split; discriminate.
Qed.

(** The fields of the day [dt] (at most 28) of month [k]. *)
Lemma fields_of_month_day (k dt tod : Z) :
  1 <= dt <= 28 -> 0 <= tod < msPerDay ->
  let t := (monthFirstDay k + dt - 1) * msPerDay + tod in
  YearFromTime t = k / 12 /\ MonthFromTime t = k mod 12 /\ DateFromTime t = dt
  /\ TimeWithinDay t = tod.
Proof.
  intros Hdt Htod t.
  assert (Hm : 0 <= k mod 12 < 12) by (apply Z.mod_pos_bound; lia).
  assert (Hday : Day t = monthFirstDay k + dt - 1).
  { subst t. unfold Day, msPerDay in *. Z.to_euclidean_division_equations; lia. }
  assert (Hw : TimeWithinDay t = tod).
  { subst t. unfold TimeWithinDay, msPerDay in *.
    Z.to_euclidean_division_equations; lia. }
  pose proof (leapDay_cases (k / 12)) as Hl.
  pose proof (monthStart_range (k mod 12) (leapDay (k / 12)) ltac:(lia)
                ltac:(destruct Hl as [[-> _]|[-> _]]; auto)) as Hs.
  assert (Hy : YearFromTime t = k / 12).
  { unfold YearFromTime. rewrite Hday. apply YearFromDay_unique.
    rewrite DayFromYear_succ, monthFirstDay_eq.
    destruct Hl as [[El Ed]|[El Ed]]; rewrite El in *; rewrite Ed; lia. }
  assert (Hdw : DayWithinYear t = monthStart (k mod 12) (leapDay (k / 12)) + dt - 1).
  { unfold DayWithinYear. rewrite Hy, Hday, monthFirstDay_eq. lia. }
  assert (Hleap : InLeapYear t = leapDay (k / 12)).
  { rewrite InLeapYear_leapDay. now rewrite Hy. }
  assert (Hmo : MonthFromTime t = k mod 12).
  { unfold MonthFromTime. rewrite Hdw, Hleap.
    assert (Hc : k mod 12 = 0 \/ k mod 12 = 1 \/ k mod 12 = 2 \/ k mod 12 = 3
                 \/ k mod 12 = 4 \/ k mod 12 = 5 \/ k mod 12 = 6 \/ k mod 12 = 7
                 \/ k mod 12 = 8 \/ k mod 12 = 9 \/ k mod 12 = 10 \/ k mod 12 = 11)
      by lia.
    clear - Hc Hdt Hl.
    destruct Hl as [[El _]|[El _]]; rewrite El;
      repeat (destruct Hc as [Hc|Hc];
              [rewrite Hc; cbv [monthStart Z.eqb Pos.eqb];
               repeat match goal with
                      | |- context [if ?a <? ?b then _ else _] =>
                          destruct (Z.ltb_spec a b); try lia
                      end; reflexivity|]);
      rewrite Hc; cbv [monthStart Z.eqb Pos.eqb];
      repeat match goal with
             | |- context [if ?a <? ?b then _ else _] =>
                 destruct (Z.ltb_spec a b); try lia
             end; reflexivity. }
  repeat split; auto.
  unfold DateFromTime. rewrite Hdw, Hmo, Hleap. lia.
Qed.

(** Where the day of the month exists in every month (28 at most), going
    [n] months back keeps the day of the month and the time of day and
    lowers the month count by [n]. *)
Lemma monthsBefore_fields (n t : Z) :
  DateFromTime t <= 28 ->
  monthIndex (monthsBefore n t) = monthIndex t - n
  /\ DateFromTime (monthsBefore n t) = DateFromTime t
  /\ TimeWithinDay (monthsBefore n t) = TimeWithinDay t.
Proof.
  intros H. rewrite monthsBefore_eq.
  pose proof (DateFromTime_range t) as HD. pose proof (day_fields t) as [_ Hw].
  destruct (fields_of_month_day (monthIndex t - n) (DateFromTime t)
              (TimeWithinDay t) ltac:(lia) Hw) as (Hy & Hm & Hd & Ht).
  split; [|split; assumption].
  unfold monthIndex at 1. rewrite Hy, Hm.
  generalize (monthIndex t - n). intros k.
  Z.to_euclidean_division_equations; lia.
Qed.

(** ** Relative dates (C4) *)

Lemma resolvedTime_month (off n now : Z) :
  resolvedTime off "m" n now = monthsBefore n (now + off) - off.
Proof. reflexivity. Qed.

Lemma resolvedTime_span (off : Z) (u : ascii) (n now : Z) :
  u <> "m"%char -> resolvedTime off u n now = now - n * unitSpan u.
Proof.
  intros Hu. unfold resolvedTime. destruct (Ascii.eqb u "m") eqn:E; [|reflexivity].
  apply Ascii.eqb_eq in E. contradiction.
Qed.

Lemma unitSpan_h : unitSpan "h" = msPerHour.
Proof. reflexivity. Qed.

Lemma unitSpan_d : unitSpan "d" = msPerDay.
Proof. reflexivity. Qed.

Lemma unitSpan_w : unitSpan "w" = 7 * msPerDay.
Proof. reflexivity. Qed.

Lemma unitSpan_m : unitSpan "m" = 1.
Proof. reflexivity. Qed.

Section RelativeDates.

Variable host : Host.
Variable off : Z.
Hypothesis zone : FixedZone host off.
Hypothesis off_small : - msPerDay <= off <= msPerDay.

Variables (ds amountStr : string) (u : ascii) (w : World).
Hypothesis matches : matchRelative ds = Some (amountStr, u).

Let now : Z := wallclock host (reads w).
Let n : Z := digitsValue 0 amountStr.

Hypothesis clock_valid : - maxTime <= now <= maxTime.
Hypothesis span_exact : n * unitSpan u < two53.
Hypothesis in_range : - maxTime <= resolvedTime off u n now.

Lemma amount_exact : parseInt10 amountStr = Fin n /\ 0 <= n.
Proof.
  destruct (matchRelative_inv _ _ _ matches) as (_ & Hunit & d & rest & Ha & Hd).
  apply (parseInt10_exact amountStr d rest Ha Hd).
  pose proof (digitsValue_ge amountStr 0 ltac:(lia)) as H0. fold n in H0 |- *.
  revert span_exact. clear - Hunit H0.
  destruct (isUnit_cases u Hunit) as [-> | [-> | [-> | ->]]];
    rewrite ?unitSpan_h, ?unitSpan_d, ?unitSpan_w, ?unitSpan_m; exact_arith.
Qed.

Lemma resolvedTime_le_now : resolvedTime off u n now <= now.
Proof.
  destruct amount_exact as [_ Hn0]. pose proof in_range as Hr.
  destruct (Ascii.eqb u "m") eqn:E.
  - apply Ascii.eqb_eq in E. revert Hr. rewrite E, !resolvedTime_month. intros Hr.
    exact (proj2 (setMonth_fixed host off zone off_small now n clock_valid Hn0 Hr)).
  - apply Ascii.eqb_neq in E. rewrite resolvedTime_span by exact E.
    destruct (matchRelative_inv _ _ _ matches) as (_ & Hunit & _).
    clear - Hunit Hn0 E.
    destruct (isUnit_cases u Hunit) as [-> | [-> | [-> | ->]]]; try congruence;
      rewrite ?unitSpan_h, ?unitSpan_d, ?unitSpan_w; exact_arith.
Qed.

Lemma parseRelativeDate_escaping_resolved :
  EscapingClient.parseRelativeDate host ds w
  = (Return (TimeValue (resolvedTime off u n now)), ticked w).
Proof.
  destruct amount_exact as [Hp Hn0]. pose proof in_range as Hr.
  pose proof resolvedTime_le_now as Hle.
  destruct (Ascii.eqb u "m") eqn:E.
  - apply Ascii.eqb_eq in E.
    unfold EscapingClient.parseRelativeDate, bind, newDate, ret.
    rewrite matches, Hp. fold now. fold (ticked w).
    revert Hr. rewrite E. cbn [Ascii.eqb Bool.eqb getTime].
    rewrite !resolvedTime_month. intros Hr.
    rewrite TimeClip_valid by exact clock_valid.
    now rewrite (proj1 (setMonth_fixed host off zone off_small now n clock_valid
                          Hn0 Hr)).
  - apply Ascii.eqb_neq in E.
    rewrite (parseRelativeDate_escaping_exact host ds amountStr u w matches E
               span_exact).
    fold now n. rewrite resolvedTime_span in Hr, Hle |- * by exact E.
    rewrite TimeClip_valid; [reflexivity | lia].
Qed.

Lemma parseRelativeDate_ts_resolved :
  ClientTs.parseRelativeDate host ds w
  = (Return (TimeValue (resolvedTime off u n now)), ticked w).
Proof.
  destruct amount_exact as [Hp Hn0].
  destruct (matchRelative_inv _ _ _ matches) as (_ & Hunit & _).
  unfold ClientTs.parseRelativeDate, bind, newDate, ret.
  rewrite matches, Hp. fold now. fold (ticked w).
  pose proof span_exact as Hs. pose proof in_range as Hr. revert Hs Hr.
  destruct (isUnit_cases u Hunit) as [E | [E | [E | E]]]; rewrite E;
    cbn [Ascii.eqb Bool.eqb]; intros Hs Hr.
  - rewrite resolvedTime_span in Hr |- * by discriminate.
    rewrite unitSpan_d in *.
    now rewrite (setDate_fixed host off zone off_small now n clock_valid Hn0 Hs Hr).
  - rewrite resolvedTime_span in Hr |- * by discriminate.
    rewrite unitSpan_h in *.
    now rewrite (setHours_fixed host off zone off_small now n clock_valid Hn0 Hs Hr).
  - rewrite resolvedTime_span in Hr |- * by discriminate.
    rewrite unitSpan_w in *.
    rewrite Nmul_exact by exact_arith.
    rewrite (setDate_fixed host off zone off_small now (n * 7) clock_valid);
      [do 3 f_equal; lia | lia | exact_arith | exact_arith].
  - rewrite resolvedTime_month in Hr |- *.
    now rewrite (proj1 (setMonth_fixed host off zone off_small now n clock_valid
                          Hn0 Hr)).
Qed.

End RelativeDates.

Lemma unitSpan_positive (u : ascii) : 0 < unitSpan u.
Proof.
  unfold unitSpan.
  destruct (Ascii.eqb u "h"); [exact_arith|].
  destruct (Ascii.eqb u "d"); [exact_arith|].
  destruct (Ascii.eqb u "w"); exact_arith.
Qed.

Lemma TimeClip_below (t : Z) : t < - maxTime -> TimeClip (Fin t) = InvalidDate.
Proof.
  intros H. cbn [TimeClip]. destruct (Z.abs t <=? maxTime) eqn:E; [|reflexivity].
  apply Z.leb_le in E. lia.
Qed.




(** ** Absolute dates (C5) *)

Section AbsoluteDates.

Variable host : Host.
Variable config : PostHogConfig.

Lemma parseRelativeDate_escaping_absolute (ds : string) (w : World) :
  matchRelative ds = None ->
  EscapingClient.parseRelativeDate host ds w
  = (Return (Date_parse host ds), ticked w).
Proof.
  intros E. unfold EscapingClient.parseRelativeDate, bind, newDate. now rewrite E.
Qed.

Lemma parseRelativeDate_ts_absolute (ds : string) (w : World) :
  matchRelative ds = None ->
  ClientTs.parseRelativeDate host ds w = (Return (Date_parse host ds), ticked w).
Proof.
  intros E. unfold ClientTs.parseRelativeDate, bind, newDate. now rewrite E.
Qed.

Lemma clause_invalid_from_escaping (ds : string) (upto : option string) (w : World) :
  matchRelative ds = None -> truthy ds = true -> Date_parse host ds = InvalidDate ->
  EscapingClient.buildTimestampClause host (mkTimeframe (Some ds) upto) w
  = (Throw RangeError, ticked w).
Proof.
  intros Em Ht Ed. unfold EscapingClient.buildTimestampClause. cbn [from].
  rewrite Ht. unfold bind at 1 2.
  now rewrite (parseRelativeDate_escaping_absolute ds w Em), Ed.
Qed.

Lemma clause_invalid_from_ts (ds : string) (upto : option string) (w : World) :
  matchRelative ds = None -> truthy ds = true -> Date_parse host ds = InvalidDate ->
  ClientTs.buildTimestampClause host (mkTimeframe (Some ds) upto) w
  = (Throw RangeError, ticked w).
Proof.
  intros Em Ht Ed. unfold ClientTs.buildTimestampClause. cbn [from].
  rewrite Ht. unfold bind at 1 2.
  now rewrite (parseRelativeDate_ts_absolute ds w Em), Ed.
Qed.

Lemma parseRelativeDate_escaping_returns (ds : string) (w : World) :
  exists d, EscapingClient.parseRelativeDate host ds w = (Return d, ticked w).
Proof.
  unfold EscapingClient.parseRelativeDate, bind, newDate, ret.
  destruct (matchRelative ds) as [[amountStr u]|]; [|eexists; reflexivity].
  destruct (Ascii.eqb u "h"); [eexists; reflexivity|].
  destruct (Ascii.eqb u "d"); [eexists; reflexivity|].
  destruct (Ascii.eqb u "w"); [eexists; reflexivity|].
  destruct (Ascii.eqb u "m"); eexists; reflexivity.
Qed.

Lemma parseRelativeDate_ts_returns (ds : string) (w : World) :
  exists d, ClientTs.parseRelativeDate host ds w = (Return d, ticked w).
Proof.
  unfold ClientTs.parseRelativeDate, bind, newDate, ret.
  destruct (matchRelative ds) as [[amountStr u]|]; [|eexists; reflexivity].
  destruct (Ascii.eqb u "h"); [eexists; reflexivity|].
  destruct (Ascii.eqb u "d"); [eexists; reflexivity|].
  destruct (Ascii.eqb u "w"); [eexists; reflexivity|].
  destruct (Ascii.eqb u "m"); eexists; reflexivity.
Qed.

Lemma formatDateForHogQL_outcomes (d : Date) :
  (exists lit, formatDateForHogQL d = Return lit)
  \/ formatDateForHogQL d = Throw RangeError.
Proof. destruct d; [now right | left; eexists; reflexivity]. Qed.

(** An invalid upper bound fails the clause whatever the lower bound is:
    in formatting the lower bound, or else in formatting the upper one. *)
Lemma clause_invalid_to_escaping (ds : string) (lower : option string) (w : World) :
  matchRelative ds = None -> truthy ds = true -> Date_parse host ds = InvalidDate ->
  exists w',
    EscapingClient.buildTimestampClause host (mkTimeframe lower (Some ds)) w
    = (Throw RangeError, w')
    /\ sent w' = sent w.
Proof.
  intros Em Ht Ed. unfold EscapingClient.buildTimestampClause.
  cbn [from to]. rewrite Ht.
  assert (Hup : forall (clauses : list string) (w0 : World),
            bind (bind (EscapingClient.parseRelativeDate host ds)
                    (fun toDate =>
                       bind (lift (formatDateForHogQL toDate))
                         (fun lit => ret ["timestamp <= '" ++ lit ++ "'"])))
              (fun toClause =>
                 ret (match (clauses ++ toClause)%list with
                      | [] => ""
                      | _ :: _ => " AND " ++ join " AND " (clauses ++ toClause)%list
                      end)) w0
            = (Throw RangeError, ticked w0)).
  { intros clauses w0. unfold bind at 1 2.
    rewrite (parseRelativeDate_escaping_absolute ds w0 Em), Ed. reflexivity. }
  destruct lower as [f|]; [destruct (truthy f)|].
  - unfold bind at 1 2.
    destruct (parseRelativeDate_escaping_returns f w) as [d ->].
    destruct (formatDateForHogQL_outcomes d) as [[lit Ef] | Ef].
    + unfold bind at 1, lift at 1. rewrite Ef. unfold ret at 1.
      rewrite Hup. now exists (ticked (ticked w)).
    + unfold bind at 1, lift at 1. rewrite Ef. now exists (ticked w).
  - unfold bind at 1, ret at 1. rewrite Hup. now exists (ticked w).
  - unfold bind at 1, ret at 1. rewrite Hup. now exists (ticked w).
Qed.

Lemma clause_invalid_to_ts (ds : string) (lower : option string) (w : World) :
  matchRelative ds = None -> truthy ds = true -> Date_parse host ds = InvalidDate ->
  exists w',
    ClientTs.buildTimestampClause host (mkTimeframe lower (Some ds)) w
    = (Throw RangeError, w')
    /\ sent w' = sent w.
Proof.
  intros Em Ht Ed. unfold ClientTs.buildTimestampClause.
  cbn [from to]. rewrite Ht.
  assert (Hup : forall (clauses : list string) (w0 : World),
            bind (bind (ClientTs.parseRelativeDate host ds)
                    (fun toDate =>
                       bind (lift (formatDateForHogQL toDate))
                         (fun lit => ret ["timestamp <= '" ++ lit ++ "'"])))
              (fun toClause =>
                 ret (match (clauses ++ toClause)%list with
                      | [] => ""
                      | _ :: _ => " AND " ++ join " AND " (clauses ++ toClause)%list
                      end)) w0
            = (Throw RangeError, ticked w0)).
  { intros clauses w0. unfold bind at 1 2.
    rewrite (parseRelativeDate_ts_absolute ds w0 Em), Ed. reflexivity. }
  destruct lower as [f|]; [destruct (truthy f)|].
  - unfold bind at 1 2.
    destruct (parseRelativeDate_ts_returns f w) as [d ->].
    destruct (formatDateForHogQL_outcomes d) as [[lit Ef] | Ef].
    + unfold bind at 1, lift at 1. rewrite Ef. unfold ret at 1.
      rewrite Hup. now exists (ticked (ticked w)).
    + unfold bind at 1, lift at 1. rewrite Ef. now exists (ticked w).
  - unfold bind at 1, ret at 1. rewrite Hup. now exists (ticked w).
  - unfold bind at 1, ret at 1. rewrite Hup. now exists (ticked w).
Qed.

(** A clause with the invalid date for one of its bounds. *)
Lemma clause_invalid_bound_escaping (ds : string) (lower upper : option string)
  (w : World) :
  matchRelative ds = None -> truthy ds = true -> Date_parse host ds = InvalidDate ->
  lower = Some ds \/ upper = Some ds ->
  exists w',
    EscapingClient.buildTimestampClause host (mkTimeframe lower upper) w
    = (Throw RangeError, w')
    /\ sent w' = sent w.
Proof.
  intros Em Ht Ed [-> | ->].
  - exists (ticked w). split; [|reflexivity].
    now apply clause_invalid_from_escaping.
  - now apply clause_invalid_to_escaping.
Qed.

Lemma clause_invalid_bound_ts (ds : string) (lower upper : option string)
  (w : World) :
  matchRelative ds = None -> truthy ds = true -> Date_parse host ds = InvalidDate ->
  lower = Some ds \/ upper = Some ds ->
  exists w',
    ClientTs.buildTimestampClause host (mkTimeframe lower upper) w
    = (Throw RangeError, w')
    /\ sent w' = sent w.
Proof.
  intros Em Ht Ed [-> | ->].
  - exists (ticked w). split; [|reflexivity].
    now apply clause_invalid_from_ts.
  - now apply clause_invalid_to_ts.
Qed.

(** C5, as amended - on a string that is no relative expression the resolver
    returns what the date parsing of the host makes of it and does not
    raise; when that is Invalid Date, formatting it for the query raises a
    RangeError, so no literal of it is ever sent.  [getPersonEvents] and
    [getPersonsByEvent] given that string for [from] or for [to] fail with
    the RangeError and send nothing.  [getPersonWithEvents] sends the person
    query first: it returns null when nobody is found, and when a person is
    found it fails with the RangeError before the events query is sent. *)
Theorem C5_unparseable_date_is_invalid_and_formatting_throws
  (ds : string) (w : World) :
  matchRelative ds = None ->
  EscapingClient.parseRelativeDate host ds w = (Return (Date_parse host ds), ticked w)
  /\ ClientTs.parseRelativeDate host ds w = (Return (Date_parse host ds), ticked w)
  /\ (Date_parse host ds = InvalidDate ->
      truthy ds = true ->
      formatDateForHogQL (Date_parse host ds) = Throw RangeError
      /\ sent (ticked w) = sent w
      /\ (forall personId limit eventType upto,
            EscapingClient.getPersonEvents host config personId limit eventType
              (Some ds) upto w = (Throw RangeError, ticked w))
      /\ (forall eventName limit upto,
            EscapingClient.getPersonsByEvent host config eventName limit
              (Some ds) upto w = (Throw RangeError, ticked w))
      /\ (forall personId limit eventType upto,
            ClientTs.getPersonEvents host config personId limit eventType
              (Some ds) upto w = (Throw RangeError, ticked w))
      /\ (forall eventName limit upto,
            ClientTs.getPersonsByEvent host config eventName limit
              (Some ds) upto w = (Throw RangeError, ticked w))
      /\ (forall personId limit eventType lower,
            exists w',
              EscapingClient.getPersonEvents host config personId limit
                eventType lower (Some ds) w = (Throw RangeError, w')
              /\ sent w' = sent w)
      /\ (forall eventName limit lower,
            exists w',
              EscapingClient.getPersonsByEvent host config eventName limit
                lower (Some ds) w = (Throw RangeError, w')
              /\ sent w' = sent w)
      /\ (forall personId limit eventType lower,
            exists w',
              ClientTs.getPersonEvents host config personId limit
                eventType lower (Some ds) w = (Throw RangeError, w')
              /\ sent w' = sent w)
      /\ (forall eventName limit lower,
            exists w',
              ClientTs.getPersonsByEvent host config eventName limit
                lower (Some ds) w = (Throw RangeError, w')
              /\ sent w' = sent w)
      /\ (forall email eventsLimit eventType lower upper,
            lower = Some ds \/ upper = Some ds ->
            (forall w1,
               EscapingClient.getPersonByEmail host config email w
               = (Return None, w1) ->
               EscapingClient.getPersonWithEvents host config email eventsLimit
                 eventType lower upper w = (Return None, w1))
            /\ (forall person w1,
                  EscapingClient.getPersonByEmail host config email w
                  = (Return (Some person), w1) ->
                  exists w2,
                    EscapingClient.getPersonWithEvents host config email
                      eventsLimit eventType lower upper w = (Throw RangeError, w2)
                    /\ sent w2
                       = (sent w ++ [request host config
                                       (personByEmailQuery
                                          (escapeHogQLString email))])%list))
      /\ (forall email eventsLimit eventType lower upper,
            lower = Some ds \/ upper = Some ds ->
            (forall w1,
               ClientTs.getPersonByEmail host config email w = (Return None, w1) ->
               ClientTs.getPersonWithEvents host config email eventsLimit
                 eventType lower upper w = (Return None, w1))
            /\ (forall person w1,
                  ClientTs.getPersonByEmail host config email w
                  = (Return (Some person), w1) ->
                  exists w2,
                    ClientTs.getPersonWithEvents host config email
                      eventsLimit eventType lower upper w = (Throw RangeError, w2)
                    /\ sent w2
                       = (sent w ++ [request host config
                                       (personByEmailQuery
                                          (replaceQuotes email))])%list))).
Proof.
  intros Em.
  split; [exact (parseRelativeDate_escaping_absolute ds w Em)|].
  split; [exact (parseRelativeDate_ts_absolute ds w Em)|].
  intros Ed Ht. rewrite Ed.
  split; [reflexivity|]. split; [reflexivity|].
  repeat match goal with |- _ /\ _ => split end.
  - intros. unfold EscapingClient.getPersonEvents. cbn [orDefault].
    now rewrite (bind_throw _ _ _ _ _ (clause_invalid_from_escaping ds upto w Em Ht Ed)).
  - intros. unfold EscapingClient.getPersonsByEvent.
    now rewrite (bind_throw _ _ _ _ _ (clause_invalid_from_escaping ds upto w Em Ht Ed)).
  - intros. unfold ClientTs.getPersonEvents. cbn [orDefault].
    now rewrite (bind_throw _ _ _ _ _ (clause_invalid_from_ts ds upto w Em Ht Ed)).
  - intros. unfold ClientTs.getPersonsByEvent.
    now rewrite (bind_throw _ _ _ _ _ (clause_invalid_from_ts ds upto w Em Ht Ed)).
  - intros personId limit eventType lower.
    destruct (clause_invalid_to_escaping ds (Some (orDefault lower "30d")) w
                Em Ht Ed) as (w' & Ec & Hs).
    exists w'. split; [|exact Hs]. unfold EscapingClient.getPersonEvents.
    now rewrite (bind_throw _ _ _ _ _ Ec).
  - intros eventName limit lower.
    destruct (clause_invalid_to_escaping ds lower w Em Ht Ed) as (w' & Ec & Hs).
    exists w'. split; [|exact Hs]. unfold EscapingClient.getPersonsByEvent.
    now rewrite (bind_throw _ _ _ _ _ Ec).
  - intros personId limit eventType lower.
    destruct (clause_invalid_to_ts ds (Some (orDefault lower "30d")) w
                Em Ht Ed) as (w' & Ec & Hs).
    exists w'. split; [|exact Hs]. unfold ClientTs.getPersonEvents.
    now rewrite (bind_throw _ _ _ _ _ Ec).
  - intros eventName limit lower.
    destruct (clause_invalid_to_ts ds lower w Em Ht Ed) as (w' & Ec & Hs).
    exists w'. split; [|exact Hs]. unfold ClientTs.getPersonsByEvent.
    now rewrite (bind_throw _ _ _ _ _ Ec).
  - intros email eventsLimit eventType lower upper Hb. split.
    + intros w1 E. unfold EscapingClient.getPersonWithEvents.
      now rewrite (bind_return _ _ _ _ _ E).
    + intros person w1 E.
      pose proof (getPersonByEmail_escapes host config email w) as Hs.
      rewrite E in Hs. cbn [snd] in Hs.
      assert (Hb' : Some (orDefault lower "30d") = Some ds \/ upper = Some ds).
      { destruct Hb as [-> | ->]; auto. }
      destruct (clause_invalid_bound_escaping ds _ _ w1 Em Ht Ed Hb')
        as (w2 & Ec & Hs2).
      exists w2. split; [|now rewrite Hs2].
      unfold EscapingClient.getPersonWithEvents.
      rewrite (bind_return _ _ _ _ _ E).
      unfold EscapingClient.getPersonEvents.
      unfold bind at 1. now rewrite (bind_throw _ _ _ _ _ Ec).
  - intros email eventsLimit eventType lower upper Hb. split.
    + intros w1 E. unfold ClientTs.getPersonWithEvents.
      now rewrite (bind_return _ _ _ _ _ E).
    + intros person w1 E.
      pose proof (getPersonByEmail_ts_request host config email w) as Hs.
      rewrite E in Hs. cbn [snd] in Hs.
      assert (Hb' : Some (orDefault lower "30d") = Some ds \/ upper = Some ds).
      { destruct Hb as [-> | ->]; auto. }
      destruct (clause_invalid_bound_ts ds _ _ w1 Em Ht Ed Hb')
        as (w2 & Ec & Hs2).
      exists w2. split; [|now rewrite Hs2].
      unfold ClientTs.getPersonWithEvents.
      rewrite (bind_return _ _ _ _ _ E).
      unfold ClientTs.getPersonEvents.
      unfold bind at 1. now rewrite (bind_throw _ _ _ _ _ Ec).
Qed.

End AbsoluteDates.

(** The resolver returns Invalid Date for "not a date" without raising; a
    lookup bounded by it below fails in formatting, one clock reading later,
    and so does a lookup bounded by it above, with nothing sent; the
    composed lookup fails after the person query when the person is found. *)
Lemma C5_witness_not_a_date :
  EscapingClient.parseRelativeDate Engine.offline "not a date" Engine.world0
  = (Return (Date_parse Engine.offline "not a date"), ticked Engine.world0)
  /\ EscapingClient.getPersonEvents Engine.offline Engine.config0 "p1" None None
       (Some "not a date") None Engine.world0
     = (Throw RangeError, ticked Engine.world0)
  /\ (exists w',
        EscapingClient.getPersonsByEvent Engine.offline Engine.config0 "signup"
          None (Some "7d") (Some "not a date") Engine.world0
        = (Throw RangeError, w')
        /\ sent w' = [])
  /\ (exists w2,
        EscapingClient.getPersonWithEvents Engine.personThenEvents Engine.config0
          "a@example.com" None None None (Some "not a date") Engine.world0
        = (Throw RangeError, w2)
        /\ sent w2
           = [request Engine.personThenEvents Engine.config0
                (personByEmailQuery "a@example.com")]).
Proof.
  destruct (C5_unparseable_date_is_invalid_and_formatting_throws Engine.offline
              Engine.config0 "not a date" Engine.world0 eq_refl)
    as (Hp & _ & Hf).
  destruct (Hf eq_refl eq_refl) as (_ & _ & He & _ & _ & _ & _ & Hu & _).
  destruct (C5_unparseable_date_is_invalid_and_formatting_throws
              Engine.personThenEvents Engine.config0 "not a date" Engine.world0
              eq_refl) as (_ & _ & Hf').
  destruct (Hf' eq_refl eq_refl)
    as (_ & _ & _ & _ & _ & _ & _ & _ & _ & _ & Hw & _).
  split; [exact Hp|]. split; [apply He|]. split; [apply Hu|].
  apply (proj2 (Hw "a@example.com" None None None (Some "not a date")
                  (or_intror eq_refl))
           (mkPerson "p1" [] (JObj []))
           (mkWorld 0 [request Engine.personThenEvents Engine.config0
                         (personByEmailQuery "a@example.com")] [])).
  vm_compute. reflexivity.
Defined.

(** C5 as stated fails: no literal of the invalid date goes out.  A lookup
    bounded by "not a date" ends in a RangeError with no request sent, in
    both clients; the composed lookup ends in the RangeError after the
    person query when the person is found, and in null when nobody is. *)
Lemma C5_counterexample_invalid_date_fails_the_lookup :
  matchRelative "not a date" = None
  /\ fst (EscapingClient.parseRelativeDate Engine.personThenEvents "not a date"
            Engine.world0) = Return InvalidDate
  /\ formatDateForHogQL InvalidDate = Throw RangeError
  /\ EscapingClient.getPersonEvents Engine.personThenEvents Engine.config0 "p1"
       None None (Some "not a date") None Engine.world0
     = (Throw RangeError, mkWorld 1 [] [])
  /\ ClientTs.getPersonEvents Engine.personThenEvents Engine.config0 "p1"
       None None (Some "not a date") None Engine.world0
     = (Throw RangeError, mkWorld 1 [] [])
  /\ EscapingClient.getPersonWithEvents Engine.personThenEvents Engine.config0
       "a@example.com" None None (Some "not a date") None Engine.world0
     = (Throw RangeError,
        mkWorld 1 [request Engine.personThenEvents Engine.config0
                     (personByEmailQuery "a@example.com")] [])
  /\ ClientTs.getPersonWithEvents Engine.personThenEvents Engine.config0
       "a@example.com" None None (Some "not a date") None Engine.world0
     = (Throw RangeError,
        mkWorld 1 [request Engine.personThenEvents Engine.config0
                     (personByEmailQuery "a@example.com")] [])
  /\ EscapingClient.getPersonWithEvents Engine.noRows Engine.config0
       "a@example.com" None None (Some "not a date") None Engine.world0
     = (Return None,
        mkWorld 0 [request Engine.noRows Engine.config0
                     (personByEmailQuery "a@example.com")] []).
Proof.
  repeat split; vm_compute; reflexivity.
Qed.

(** ** The default lower bound and the event filter (C6) *)

Lemma formatDateForHogQL_valid (t : Z) :
  exists lit, formatDateForHogQL (TimeValue t) = Return lit.
Proof. eexists. reflexivity. Qed.

Section DefaultLowerBound.

Variable host : Host.
Variable config : PostHogConfig.
Variable w : World.

(** The date [src/client.ts] makes of "30d": the same local time thirty days
    of the calendar earlier. *)
Lemma default_from_ts_calendar :
  ClientTs.parseRelativeDate host "30d" w
  = (Return (setDate host (TimeValue (wallclock host (reads w)))
               (Nsub (getDate host (TimeValue (wallclock host (reads w))))
                  (Fin 30))),
     ticked w).
Proof. reflexivity. Qed.

Lemma default_clause_ts_calendar (lit : string) :
  formatDateForHogQL
    (setDate host (TimeValue (wallclock host (reads w)))
       (Nsub (getDate host (TimeValue (wallclock host (reads w)))) (Fin 30)))
  = Return lit ->
  ClientTs.buildTimestampClause host (mkTimeframe (Some "30d") None) w
  = (Return (" AND timestamp >= '" ++ lit ++ "'"), ticked w).
Proof.
  intros Ef. unfold ClientTs.buildTimestampClause. cbn [from to truthy].
  unfold bind at 1 2. rewrite default_from_ts_calendar.
  unfold bind, lift, ret. rewrite Ef. reflexivity.
Qed.

Section ClockInRange.

Hypothesis clock_valid :
  - maxTime + 30 * msPerDay <= wallclock host (reads w) <= maxTime.

Lemma default_from_escaping :
  EscapingClient.parseRelativeDate host "30d" w
  = (Return (TimeValue (wallclock host (reads w) - 30 * msPerDay)), ticked w).
Proof.
  rewrite (parseRelativeDate_escaping_exact host "30d" "30" "d" w eq_refl);
    [|discriminate|reflexivity].
  change (digitsValue 0 "30" * unitSpan "d") with (30 * msPerDay).
  rewrite TimeClip_valid; [reflexivity|]. pose proof clock_valid. exact_arith.
Qed.

Lemma default_clause_escaping (lit : string) :
  formatDateForHogQL (TimeValue (wallclock host (reads w) - 30 * msPerDay))
  = Return lit ->
  EscapingClient.buildTimestampClause host (mkTimeframe (Some "30d") None) w
  = (Return (" AND timestamp >= '" ++ lit ++ "'"), ticked w).
Proof.
  intros Ef. unfold EscapingClient.buildTimestampClause. cbn [from to truthy].
  unfold bind at 1 2. rewrite default_from_escaping.
  unfold bind, lift, ret. rewrite Ef. reflexivity.
Qed.

(** In a zone of fixed offset thirty days of the calendar are thirty times
    twenty-four hours. *)
Lemma default_calendar_fixed (off : Z) :
  FixedZone host off -> - msPerDay <= off <= msPerDay ->
  setDate host (TimeValue (wallclock host (reads w)))
    (Nsub (getDate host (TimeValue (wallclock host (reads w)))) (Fin 30))
  = TimeValue (wallclock host (reads w) - 30 * msPerDay).
Proof.
  intros zone off_small. pose proof clock_valid as Hc.
  apply (setDate_fixed host off zone off_small); exact_arith.
Qed.

End ClockInRange.


End DefaultLowerBound.



(** * Further properties of the code *)

(** ** Where the two ways of quoting agree *)

Lemma length_append (a b : string) :
  String.length (a ++ b) = (String.length a + String.length b)%nat.
Proof. induction a as [|c a IH]; cbn; [reflexivity | now rewrite IH]. Qed.

Lemma escapeChar_cases (c : ascii) :
  (rewritten c = true /\ String.length (escapeChar c) = 2%nat
   /\ exists e, escapeChar c = String backslash (str e))
  \/ (rewritten c = false /\ escapeChar c = str c).
Proof.
  unfold rewritten, escapeChar.
  destruct (Ascii.eqb c backslash); [left; repeat split; eexists; reflexivity|].
  destruct (Ascii.eqb c quote); [left; repeat split; eexists; reflexivity|].
  destruct (Ascii.eqb c NUL); [left; repeat split; eexists; reflexivity|].
  destruct (Ascii.eqb c LF); [left; repeat split; eexists; reflexivity|].
  destruct (Ascii.eqb c CR); [left; repeat split; eexists; reflexivity|].
  destruct (Ascii.eqb c TAB); [left; repeat split; eexists; reflexivity|].
  right. split; reflexivity.
Qed.

Lemma length_escapeHogQLString (s : string) :
  String.length (escapeHogQLString s)
  = (String.length s + countChars rewritten s)%nat.
Proof.
  induction s as [|c s IH]; [reflexivity|].
  rewrite escapeHogQLString_cons, length_append, IH. cbn [String.length countChars].
  destruct (escapeChar_cases c) as [(-> & -> & _) | (-> & ->)]; cbn; lia.
Qed.

Lemma length_replaceQuotes (s : string) :
  String.length (replaceQuotes s)
  = (String.length s + countChars (fun c => Ascii.eqb c quote) s)%nat.
Proof.
  unfold replaceQuotes.
  induction s as [|c s IH]; [reflexivity|].
  cbn [replaceAll countChars String.length].
  destruct (Ascii.eqb c quote); cbn; rewrite IH; lia.
Qed.

Lemma rewritten_split (c : ascii) :
  rewritten c = Ascii.eqb c quote || letThrough c.
Proof.
  unfold rewritten, letThrough.
  destruct (Ascii.eqb c backslash), (Ascii.eqb c quote), (Ascii.eqb c NUL),
    (Ascii.eqb c LF), (Ascii.eqb c CR), (Ascii.eqb c TAB); reflexivity.
Qed.

Lemma quote_not_letThrough (c : ascii) :
  Ascii.eqb c quote = true -> letThrough c = false.
Proof. intros E. apply Ascii.eqb_eq in E. subst c. reflexivity. Qed.

Lemma countChars_rewritten (s : string) :
  countChars rewritten s
  = (countChars (fun c => Ascii.eqb c quote) s + countChars letThrough s)%nat.
Proof.
  induction s as [|c s IH]; [reflexivity|].
  cbn [countChars]. rewrite rewritten_split.
  destruct (Ascii.eqb c quote) eqn:Eq.
  - rewrite (quote_not_letThrough c Eq). cbn [orb]. lia.
  - cbn [orb]. destruct (letThrough c); lia.
Qed.

Lemma countChars_zero (p : ascii -> bool) (s : string) :
  countChars p s = O <-> allChars (fun c => negb (p c)) s = true.
Proof.
  induction s as [|c s IH]; [cbn; tauto|].
  cbn [countChars allChars]. destruct (p c); cbn [negb andb].
  - split; discriminate.
  - exact IH.
Qed.

Lemma replaceQuotes_escape_agree (s : string) :
  allChars (fun c => negb (letThrough c)) s = true ->
  replaceQuotes s = escapeHogQLString s.
Proof.
  unfold replaceQuotes. induction s as [|c s IH]; [reflexivity|].
  cbn [allChars]. intros H. apply andb_true_iff in H. destruct H as [Hc Hs].
  rewrite escapeHogQLString_cons, <- (IH Hs). cbn [replaceAll].
  apply negb_true_iff in Hc. unfold escapeChar.
  unfold letThrough in Hc.
  destruct (Ascii.eqb c backslash); [discriminate|].
  destruct (Ascii.eqb c quote); [reflexivity|].
  destruct (Ascii.eqb c NUL); [discriminate|].
  destruct (Ascii.eqb c LF); [discriminate|].
  destruct (Ascii.eqb c CR); [discriminate|].
  destruct (Ascii.eqb c TAB); [discriminate|].
  reflexivity.
Qed.

(** The quoting of [src/client.ts] gives the text that [escapeHogQLString]
    gives exactly on the strings that hold no backslash, NUL, line feed,
    carriage return or tab: on every other string the two clients send
    different query texts. *)
Theorem replaceQuotes_agrees_with_escaping_iff (s : string) :
  replaceQuotes s = escapeHogQLString s
  <-> allChars (fun c => negb (letThrough c)) s = true.
Proof.
  split; [|apply replaceQuotes_escape_agree].
  intros E. apply countChars_zero.
  apply (f_equal String.length) in E.
  rewrite length_replaceQuotes, length_escapeHogQLString, countChars_rewritten in E.
  lia.
Qed.

Lemma escape_plain (s : string) :
  allChars (fun c => negb (rewritten c)) s = true -> escapeHogQLString s = s.
Proof.
  induction s as [|c s IH]; [reflexivity|].
  cbn [allChars]. intros H. apply andb_true_iff in H. destruct H as [Hc Hs].
  rewrite escapeHogQLString_cons, (IH Hs). apply negb_true_iff in Hc.
  destruct (escapeChar_cases c) as [(E & _) | (_ & ->)]; [congruence | reflexivity].
Qed.

Lemma countChars_app (p : ascii -> bool) (a b : string) :
  countChars p (a ++ b) = (countChars p a + countChars p b)%nat.
Proof.
  induction a as [|c a IH]; [reflexivity|].
  cbn [append countChars]. destruct (p c); rewrite IH; reflexivity.
Qed.

Lemma countChars_escape (s : string) :
  (countChars rewritten s <= countChars rewritten (escapeHogQLString s))%nat.
Proof.
  induction s as [|c s IH]; [reflexivity|].
  rewrite escapeHogQLString_cons, countChars_app. cbn [countChars].
  destruct (escapeChar_cases c) as [(-> & _ & e & ->) | (E & ->)].
  - cbn [countChars str]. change (rewritten backslash) with true.
    destruct (rewritten e); lia.
  - cbn [countChars str]. rewrite E. lia.
Qed.

(** [escapeHogQLString] adds one character for each backslash, quote, NUL,
    line feed, carriage return and tab of its input and nothing else; it
    leaves a string as it is exactly when the string holds none of them, and
    only then is escaping twice the same as escaping once. *)
Theorem escaping_changes_exactly_what_it_must (s : string) :
  String.length (escapeHogQLString s)
  = (String.length s + countChars rewritten s)%nat
  /\ (escapeHogQLString s = s
      <-> allChars (fun c => negb (rewritten c)) s = true)
  /\ (escapeHogQLString (escapeHogQLString s) = escapeHogQLString s
      <-> allChars (fun c => negb (rewritten c)) s = true).
Proof.
  split; [apply length_escapeHogQLString|]. split; split.
  - intros E. apply countChars_zero. apply (f_equal String.length) in E.
    rewrite length_escapeHogQLString in E. lia.
  - apply escape_plain.
  - intros E. apply countChars_zero. apply (f_equal String.length) in E.
    rewrite (length_escapeHogQLString (escapeHogQLString s)) in E.
    pose proof (countChars_escape s). lia.
  - intros H. now rewrite !(escape_plain s H).
Qed.

(** ** The literal of a date *)

Lemma allChars_app (p : ascii -> bool) (a b : string) :
  allChars p (a ++ b) = allChars p a && allChars p b.
Proof.
  induction a as [|c a IH]; [reflexivity|].
  cbn [append allChars]. now rewrite IH, andb_assoc.
Qed.

Lemma allChars_impl (p q : ascii -> bool) (s : string) :
  (forall c, p c = true -> q c = true) ->
  allChars p s = true -> allChars q s = true.
Proof.
  intros Hpq. induction s as [|c s IH]; [reflexivity|].
  cbn [allChars]. intros H. apply andb_true_iff in H. destruct H as [Hc Hs].
  now rewrite (Hpq c Hc), (IH Hs).
Qed.

Lemma isDigit_digitChar (z : Z) : isDigit (digitChar (z mod 10)) = true.
Proof.
  pose proof (Z.mod_pos_bound z 10 ltac:(lia)) as Hb.
  assert (E : z mod 10 = 0 \/ z mod 10 = 1 \/ z mod 10 = 2 \/ z mod 10 = 3
              \/ z mod 10 = 4 \/ z mod 10 = 5 \/ z mod 10 = 6 \/ z mod 10 = 7
              \/ z mod 10 = 8 \/ z mod 10 = 9) by lia.
  repeat (destruct E as [E|E]; [rewrite E; reflexivity|]).
  rewrite E. reflexivity.
Qed.

Lemma padded_digits (w : nat) (z : Z) : allChars isDigit (padded w z) = true.
Proof.
  revert z. induction w as [|w IH]; intros z; [reflexivity|].
  cbn [padded]. rewrite allChars_app, IH. cbn [str allChars].
  now rewrite isDigit_digitChar.
Qed.

Lemma length_padded (w : nat) (z : Z) : String.length (padded w z) = w.
Proof.
  revert z. induction w as [|w IH]; intros z; [reflexivity|].
  cbn [padded]. rewrite length_append, IH. cbn. lia.
Qed.

Lemma isDigit_inv (c : ascii) :
  isDigit c = true -> exists d, 0 <= d <= 9 /\ c = digitChar d.
Proof.
  unfold isDigit. intros H. apply andb_true_iff in H. destruct H as [Hl Hu].
  apply Z.leb_le in Hl, Hu.
  exists (Z.of_nat (nat_of_ascii c) - 48). split; [lia|].
  unfold digitChar.
  replace (Z.to_nat (48 + (Z.of_nat (nat_of_ascii c) - 48))) with (nat_of_ascii c)
    by lia.
  now rewrite ascii_nat_embedding.
Qed.

Lemma digit_cases (c : ascii) (p : ascii -> bool) :
  p "0"%char = true -> p "1"%char = true -> p "2"%char = true ->
  p "3"%char = true -> p "4"%char = true -> p "5"%char = true ->
  p "6"%char = true -> p "7"%char = true -> p "8"%char = true ->
  p "9"%char = true ->
  isDigit c = true -> p c = true.
Proof.
  intros H0 H1 H2 H3 H4 H5 H6 H7 H8 H9 Hc.
  destruct (isDigit_inv c Hc) as (d & Hd & ->).
  assert (E : d = 0 \/ d = 1 \/ d = 2 \/ d = 3 \/ d = 4 \/ d = 5 \/ d = 6
              \/ d = 7 \/ d = 8 \/ d = 9) by lia.
  repeat (destruct E as [E|E]; [subst d; assumption|]).
  subst d. assumption.
Qed.

Lemma isoYear_chars (y : Z) :
  allChars (fun c => isDigit c || Ascii.eqb c "-" || Ascii.eqb c "+") (isoYear y)
  = true.
Proof.
  unfold isoYear.
  destruct ((0 <=? y) && (y <=? 9999)).
  - apply (allChars_impl isDigit); [|apply padded_digits].
    intros c ->. reflexivity.
  - destruct (y <? 0); cbn [append allChars]; cbn [isDigit Ascii.eqb orb andb];
      (apply (allChars_impl isDigit); [|apply padded_digits]);
      intros c ->; reflexivity.
Qed.

Lemma replaceFirst_skip (c : ascii) (rep a b : string) :
  allChars (fun x => negb (Ascii.eqb x c)) a = true ->
  replaceFirst c rep (a ++ b) = a ++ replaceFirst c rep b.
Proof.
  induction a as [|x a IH]; [reflexivity|].
  cbn [allChars append replaceFirst]. intros H.
  apply andb_true_iff in H. destruct H as [Hx Ha].
  apply negb_true_iff in Hx. now rewrite Hx, (IH Ha).
Qed.

Lemma digits_avoid (c : ascii) (s : string) :
  isDigit c = false -> allChars isDigit s = true ->
  allChars (fun x => negb (Ascii.eqb x c)) s = true.
Proof.
  intros Hc. apply allChars_impl. intros x Hx.
  destruct (Ascii.eqb_spec x c) as [->|]; [congruence | reflexivity].
Qed.

Lemma isoYear_avoids (c : ascii) (y : Z) :
  isDigit c = false -> Ascii.eqb c "-" = false -> Ascii.eqb c "+" = false ->
  allChars (fun x => negb (Ascii.eqb x c)) (isoYear y) = true.
Proof.
  intros Hd Hm Hp.
  apply (allChars_impl (fun c => isDigit c || Ascii.eqb c "-" || Ascii.eqb c "+"));
    [|apply isoYear_chars].
  intros x Hx. destruct (Ascii.eqb_spec x c) as [->|]; [|reflexivity].
  rewrite Hd, Hm, Hp in Hx. discriminate Hx.
Qed.

(** [formatDateForHogQL] on a valid date, written out. *)
Lemma formatDateForHogQL_fields (t : Z) :
  formatDateForHogQL (TimeValue t)
  = Return (isoYear (YearFromTime t) ++ "-" ++ padded 2 (MonthFromTime t + 1)
            ++ "-" ++ padded 2 (DateFromTime t)
            ++ " " ++ padded 2 (HourFromTime t)
            ++ ":" ++ padded 2 (MinFromTime t)
            ++ ":" ++ padded 2 (SecFromTime t)
            ++ "." ++ padded 3 (msFromTime t)).
Proof.
  unfold formatDateForHogQL, toISOString. f_equal.
  rewrite (replaceFirst_skip "T") by (now apply isoYear_avoids).
  change ("-" ++ ?x) with (String "-" x). cbn [replaceFirst Ascii.eqb Bool.eqb].
  rewrite (replaceFirst_skip "T")
    by (apply digits_avoid; [reflexivity | apply padded_digits]).
  cbn [append replaceFirst Ascii.eqb Bool.eqb].
  rewrite (replaceFirst_skip "T")
    by (apply digits_avoid; [reflexivity | apply padded_digits]).
  cbn [append replaceFirst Ascii.eqb Bool.eqb].
  rewrite (replaceFirst_skip "Z") by (now apply isoYear_avoids).
  cbn [append replaceFirst Ascii.eqb Bool.eqb].
  repeat (rewrite (replaceFirst_skip "Z")
            by (apply digits_avoid; [reflexivity | apply padded_digits]);
          cbn [append replaceFirst Ascii.eqb Bool.eqb]).
  reflexivity.
Qed.

Lemma dateChar_plain (s : string) :
  allChars dateChar s = true ->
  allChars (fun c => negb (rewritten c)) s = true.
Proof.
  apply allChars_impl. intros c Hc. unfold dateChar in Hc.
  destruct (isDigit c) eqn:Hd.
  - revert Hd. apply (digit_cases c (fun c => negb (rewritten c))); reflexivity.
  - cbn [orb] in Hc.
    destruct (Ascii.eqb_spec c "-") as [->|]; [reflexivity|].
    destruct (Ascii.eqb_spec c "+") as [->|]; [reflexivity|].
    destruct (Ascii.eqb_spec c ":") as [->|]; [reflexivity|].
    destruct (Ascii.eqb_spec c ".") as [->|]; [reflexivity|].
    destruct (Ascii.eqb_spec c " ") as [->|]; [reflexivity|].
    discriminate Hc.
Qed.

Lemma Return_inj {A} (a b : A) : Return a = Return b -> a = b.
Proof. intros E. now injection E. Qed.

Lemma digits_dateChar (s : string) :
  allChars isDigit s = true -> allChars dateChar s = true.
Proof. apply allChars_impl. intros c H. unfold dateChar. now rewrite H. Qed.

Lemma formatDateForHogQL_chars (t : Z) (lit : string) :
  formatDateForHogQL (TimeValue t) = Return lit -> allChars dateChar lit = true.
Proof.
  rewrite formatDateForHogQL_fields. intros E. apply Return_inj in E. subst lit.
  rewrite allChars_app. apply andb_true_iff. split.
  { apply (allChars_impl (fun c => isDigit c || Ascii.eqb c "-" || Ascii.eqb c "+"));
      [|apply isoYear_chars].
    intros c Hc. unfold dateChar.
    destruct (isDigit c); [reflexivity|]. cbn [orb] in *.
    destruct (Ascii.eqb c "-"); [reflexivity|]. cbn [orb] in *.
    now rewrite Hc. }
  rewrite !allChars_app, !(digits_dateChar _ (padded_digits _ _)).
  reflexivity.
Qed.

Lemma formatDateForHogQL_dateLiteral (d : Date) (lit : string) :
  formatDateForHogQL d = Return lit -> dateLiteral lit.
Proof.
  destruct d as [|t]; [discriminate|]. intros E. split.
  - now exists t.
  - now apply (formatDateForHogQL_chars t).
Qed.

Lemma dateLiteral_reads_back (lit rest : string) :
  dateLiteral lit -> readLiteral (lit ++ "'" ++ rest) = Some (lit, rest).
Proof.
  intros [_ Hc]. rewrite <- (escape_plain lit (dateChar_plain lit Hc)) at 1.
  apply readLiteral_escape.
Qed.

(** [formatDateForHogQL] returns only for a valid date, and what it returns
    is the date in UTC as [YYYY-MM-DD HH:MM:SS.mmm]: digits and [-+:. ]
    only, 23 characters for the years 0 to 9999, a text that escaping
    leaves as it is and that reads back between quotes as itself. *)
Theorem date_literal_has_fixed_fields_and_needs_no_escaping
  (d : Date) (lit : string) :
  formatDateForHogQL d = Return lit ->
  exists t,
    d = TimeValue t
    /\ lit = isoYear (YearFromTime t) ++ "-" ++ padded 2 (MonthFromTime t + 1)
             ++ "-" ++ padded 2 (DateFromTime t)
             ++ " " ++ padded 2 (HourFromTime t)
             ++ ":" ++ padded 2 (MinFromTime t)
             ++ ":" ++ padded 2 (SecFromTime t)
             ++ "." ++ padded 3 (msFromTime t)
    /\ allChars dateChar lit = true
    /\ escapeHogQLString lit = lit
    /\ (forall rest, readLiteral (lit ++ "'" ++ rest) = Some (lit, rest))
    /\ (0 <= YearFromTime t <= 9999 -> String.length lit = 23%nat).
Proof.
  intros E. pose proof (formatDateForHogQL_dateLiteral d lit E) as Hl.
  destruct d as [|t]; [discriminate|]. exists t.
  split; [reflexivity|]. split.
  { rewrite formatDateForHogQL_fields in E. now apply Return_inj in E. }
  split; [apply Hl|]. split.
  { apply escape_plain, dateChar_plain, Hl. }
  split.
  { intros rest. now apply dateLiteral_reads_back. }
  intros Hy. rewrite formatDateForHogQL_fields in E. apply Return_inj in E.
  subst lit. unfold isoYear.
  replace ((0 <=? YearFromTime t) && (YearFromTime t <=? 9999)) with true
    by (symmetry; apply andb_true_iff; split; apply Z.leb_le; lia).
  repeat (rewrite length_append, ?length_padded; cbn [String.length]).
  reflexivity.
Qed.

Lemma date_literal_witness :
  formatDateForHogQL (TimeValue 1709164800123) = Return "2024-02-29 00:00:00.123"
  /\ String.length "2024-02-29 00:00:00.123" = 23%nat
  /\ escapeHogQLString "2024-02-29 00:00:00.123" = "2024-02-29 00:00:00.123".
Proof.
  destruct (date_literal_has_fixed_fields_and_needs_no_escaping
              (TimeValue 1709164800123) "2024-02-29 00:00:00.123"
              ltac:(vm_compute; reflexivity))
    as (t & Et & _ & _ & He & _ & Hlen).
  split; [vm_compute; reflexivity|]. split; [|exact He].
  apply Hlen. injection Et as <-. vm_compute. split; discriminate.
Defined.

(** ** The shape of the timestamp clause *)

Section ClauseShape.

Variable host : Host.

Ltac bound_cases b parse :=
  let s := fresh "s" in
  let d := fresh "d" in
  let w0 := fresh "w0" in
  let lit := fresh "lit" in
  let Ef := fresh "Ef" in
  destruct b as [s|]; cbn [bounded];
  [ destruct (truthy s);
    [ destruct (parse s) as [[d| |] w0]; try discriminate;
      destruct (formatDateForHogQL d) as [lit| |] eqn:Ef; try discriminate;
      apply formatDateForHogQL_dateLiteral in Ef
    | ]
  | ].

Ltac shape_done :=
  intros E; apply (f_equal fst) in E; cbn [fst] in E; apply Return_inj in E;
  subst;
  match goal with
  | L : dateLiteral ?l, U : dateLiteral ?u |- _ => exists (Some l), (Some u)
  | L : dateLiteral ?l |- context ["timestamp >= '"] => exists (Some l), None
  | U : dateLiteral ?u |- context ["timestamp <= '"] => exists None, (Some u)
  | |- _ => exists None, None
  end;
  (split; [cbn [clauseOf app join]; rewrite ?append_assoc; reflexivity|]);
  (split; [split; intro; first [discriminate | reflexivity | congruence]|]);
  (split; [split; intro; first [discriminate | reflexivity | congruence]|]);
  split; (let E' := fresh in
          intros ? E'; first [injection E' as <-; assumption | discriminate E']).

Lemma clause_shape_escaping (options : TimeframeOptions) (w w1 : World)
  (clause : string) :
  EscapingClient.buildTimestampClause host options w = (Return clause, w1) ->
  exists lower upper,
    clause = clauseOf lower upper
    /\ (lower = None <-> bounded (from options) = false)
    /\ (upper = None <-> bounded (to options) = false)
    /\ (forall l, lower = Some l -> dateLiteral l)
    /\ (forall u, upper = Some u -> dateLiteral u).
Proof.
  destruct options as [f t].
  unfold EscapingClient.buildTimestampClause, bind, ret, lift. cbn [from to].
  bound_cases f (fun s => EscapingClient.parseRelativeDate host s w).
  - bound_cases t (fun s => EscapingClient.parseRelativeDate host s w0); shape_done.
  - bound_cases t (fun s => EscapingClient.parseRelativeDate host s w); shape_done.
  - bound_cases t (fun s => EscapingClient.parseRelativeDate host s w); shape_done.
Qed.

Lemma clause_shape_ts (options : TimeframeOptions) (w w1 : World)
  (clause : string) :
  ClientTs.buildTimestampClause host options w = (Return clause, w1) ->
  exists lower upper,
    clause = clauseOf lower upper
    /\ (lower = None <-> bounded (from options) = false)
    /\ (upper = None <-> bounded (to options) = false)
    /\ (forall l, lower = Some l -> dateLiteral l)
    /\ (forall u, upper = Some u -> dateLiteral u).
Proof.
  destruct options as [f t].
  unfold ClientTs.buildTimestampClause, bind, ret, lift. cbn [from to].
  bound_cases f (fun s => ClientTs.parseRelativeDate host s w).
  - bound_cases t (fun s => ClientTs.parseRelativeDate host s w0); shape_done.
  - bound_cases t (fun s => ClientTs.parseRelativeDate host s w); shape_done.
  - bound_cases t (fun s => ClientTs.parseRelativeDate host s w); shape_done.
Qed.

End ClauseShape.

(** ** Requests and console lines of the operations *)

Section Transport.

Variable host : Host.
Variable config : PostHogConfig.

Lemma quiet_ret {A} (a : A) : Quiet (ret a).
Proof. intros w. split; reflexivity. Qed.

Lemma quiet_lift {A} (o : Outcome A) : Quiet (lift o).
Proof. intros w. split; reflexivity. Qed.

Lemma quiet_newDate : Quiet (newDate host).
Proof. intros w. split; reflexivity. Qed.

Lemma quiet_bind {A B} (c : M A) (k : A -> M B) :
  Quiet c -> (forall a, Quiet (k a)) -> Quiet (bind c k).
Proof.
  intros Hc Hk w. unfold bind. specialize (Hc w).
  destruct (c w) as [[a|e|] w1]; cbn [snd] in *; try exact Hc.
  destruct (Hk a w1) as [-> ->]. exact Hc.
Qed.

Ltac quiet_step :=
  first
    [ apply quiet_ret
    | apply quiet_newDate
    | apply quiet_lift
    | apply quiet_bind; [|intro]
    | match goal with
      | |- Quiet (match ?x with _ => _ end) => destruct x
      | |- Quiet (if ?x then _ else _) => destruct x
      | |- Quiet (let (_, _) := ?x in _) => destruct x
      end ].

Lemma quiet_parseRelativeDate_escaping (dateString : string) :
  Quiet (EscapingClient.parseRelativeDate host dateString).
Proof. unfold EscapingClient.parseRelativeDate. repeat quiet_step. Qed.

Lemma quiet_parseRelativeDate_ts (dateString : string) :
  Quiet (ClientTs.parseRelativeDate host dateString).
Proof. unfold ClientTs.parseRelativeDate. repeat quiet_step. Qed.

Lemma quiet_buildTimestampClause_escaping (options : TimeframeOptions) :
  Quiet (EscapingClient.buildTimestampClause host options).
Proof.
  unfold EscapingClient.buildTimestampClause.
  repeat first [apply quiet_parseRelativeDate_escaping | quiet_step].
Qed.

Lemma quiet_buildTimestampClause_ts (options : TimeframeOptions) :
  Quiet (ClientTs.buildTimestampClause host options).
Proof.
  unfold ClientTs.buildTimestampClause.
  repeat first [apply quiet_parseRelativeDate_ts | quiet_step].
Qed.

Lemma transported_quiet {A} (c : M A) (n : nat) :
  Quiet c -> Transported host config n c.
Proof.
  intros H w. destruct (H w) as [Hs Hc]. exists [], [].
  cbn [map List.length]. rewrite !app_nil_r.
  repeat split; auto; lia.
Qed.

Lemma transported_weaken {A} (c : M A) (n m : nat) :
  (n <= m)%nat -> Transported host config n c -> Transported host config m c.
Proof.
  intros Hnm H w.
  destruct (H w) as (queries & lines & Hs & Hn & Hc & Hl & Hd & Hp).
  exists queries, lines. repeat split; auto; lia.
Qed.

Lemma transported_bind {A B} (c : M A) (k : A -> M B) (n m : nat) :
  Transported host config n c ->
  (forall a, Transported host config m (k a)) ->
  Transported host config (n + m) (bind c k).
Proof.
  intros Hc Hk w. unfold bind.
  destruct (Hc w) as (q1 & l1 & Hs1 & Hn1 & Hc1 & Hl1 & Hd1 & Hp1).
  destruct (c w) as [[a|e|] w1]; cbn [snd] in *;
    try (exists q1, l1; repeat split; auto; lia).
  destruct (Hk a w1) as (q2 & l2 & Hs2 & Hn2 & Hc2 & Hl2 & Hd2 & Hp2).
  exists (q1 ++ q2)%list, (l1 ++ l2)%list.
  rewrite Hs2, Hs1, Hc2, Hc1, map_app, !app_assoc, !length_app.
  repeat split; try lia.
  - intros Hd. now rewrite (Hd1 Hd), (Hd2 Hd).
  - apply Forall_app. now split.
Qed.

Lemma prefix_append (a b : string) : String.prefix a (a ++ b) = true.
Proof.
  induction a as [|c a IH]; [now destruct b|].
  cbn [append String.prefix]. destruct (ascii_dec c c); [exact IH | congruence].
Qed.

Lemma transported_executeQuery {T} (row : json -> option T) (query : string) :
  Transported host config 1 (executeQuery host config row query).
Proof.
  intros w. exists [query]. unfold executeQuery.
  destruct (fetch host (sent w) (request host config query)) as [r|];
    [|exists []; cbn; rewrite app_nil_r; repeat split; auto].
  destruct (negb (ok r));
    [exists []; cbn; rewrite app_nil_r; repeat split; auto|].
  destruct (JSON_parse host (text r)) as [j|];
    [|exists []; cbn; rewrite app_nil_r; repeat split; auto].
  destruct (asHogQLQueryResult row j);
    [|exists []; cbn; rewrite app_nil_r; repeat split; auto].
  destruct (env_DEBUG host) eqn:Ed.
  - exists ["HogQL Response: " ++ JSON_stringify_indent2 host j].
    cbn [snd sent console reads map List.length].
    repeat split; auto; [discriminate|].
    constructor; [apply prefix_append | constructor].
  - exists []. cbn. rewrite app_nil_r. repeat split; auto.
Qed.

Ltac transported_step :=
  first
    [ apply transported_executeQuery
    | apply transported_quiet;
      first [ apply quiet_buildTimestampClause_escaping
            | apply quiet_buildTimestampClause_ts
            | apply quiet_ret
            | apply quiet_lift ]
    | match goal with
      | |- Transported _ _ _ (match ?x with _ => _ end) => destruct x
      | |- Transported _ _ _ (let (_, _) := ?x in _) => destruct x
      end ].

Lemma transported_getPersonByEmail_escaping (email : string) :
  Transported host config 1 (EscapingClient.getPersonByEmail host config email).
Proof.
  unfold EscapingClient.getPersonByEmail.
  apply (transported_bind _ _ 1 0); [apply transported_executeQuery|].
  intros r. repeat transported_step.
Qed.

Lemma transported_getPersonsByEvent_escaping (eventName : string)
  (limit : option Z) (from to : option string) :
  Transported host config 1
    (EscapingClient.getPersonsByEvent host config eventName limit from to).
Proof.
  unfold EscapingClient.getPersonsByEvent.
  apply (transported_bind _ _ 0 1); [repeat transported_step|]. intros clause.
  apply (transported_bind _ _ 1 0); [apply transported_executeQuery|].
  intros r. repeat transported_step.
Qed.

Lemma transported_getPersonEvents_escaping (personId : string)
  (limit : option Z) (eventType from to : option string) :
  Transported host config 1
    (EscapingClient.getPersonEvents host config personId limit eventType from to).
Proof.
  unfold EscapingClient.getPersonEvents.
  apply (transported_bind _ _ 0 1); [repeat transported_step|]. intros clause.
  apply (transported_bind _ _ 1 0); [apply transported_executeQuery|].
  intros r. repeat transported_step.
Qed.

Lemma transported_getPersonWithEvents_escaping (email : string)
  (eventsLimit : option Z) (eventType from to : option string) :
  Transported host config 2
    (EscapingClient.getPersonWithEvents host config email eventsLimit eventType
       from to).
Proof.
  unfold EscapingClient.getPersonWithEvents.
  apply (transported_bind _ _ 1 1); [apply transported_getPersonByEmail_escaping|].
  intros [person|]; [|apply transported_quiet, quiet_ret].
  apply (transported_bind _ _ 1 0); [apply transported_getPersonEvents_escaping|].
  intros events. apply transported_quiet, quiet_ret.
Qed.

Lemma transported_getPersonByEmail_ts (email : string) :
  Transported host config 1 (ClientTs.getPersonByEmail host config email).
Proof.
  unfold ClientTs.getPersonByEmail.
  apply (transported_bind _ _ 1 0); [apply transported_executeQuery|].
  intros r. destruct (results r) as [|[i p] rest];
    [apply transported_quiet, quiet_ret|].
  apply transported_quiet, quiet_bind; [apply quiet_lift|].
  intro. apply quiet_ret.
Qed.

Lemma transported_getPersonsByEvent_ts (eventName : string)
  (limit : option Z) (from to : option string) :
  Transported host config 1
    (ClientTs.getPersonsByEvent host config eventName limit from to).
Proof.
  unfold ClientTs.getPersonsByEvent.
  apply (transported_bind _ _ 0 1); [repeat transported_step|]. intros clause.
  apply (transported_bind _ _ 1 0); [apply transported_executeQuery|].
  intros r. repeat transported_step.
Qed.

Lemma transported_getPersonEvents_ts (personId : string)
  (limit : option Z) (eventType from to : option string) :
  Transported host config 1
    (ClientTs.getPersonEvents host config personId limit eventType from to).
Proof.
  unfold ClientTs.getPersonEvents.
  apply (transported_bind _ _ 0 1); [repeat transported_step|]. intros clause.
  apply (transported_bind _ _ 1 0); [apply transported_executeQuery|].
  intros r. repeat transported_step.
Qed.

Lemma transported_getPersonWithEvents_ts (email : string)
  (eventsLimit : option Z) (eventType from to : option string) :
  Transported host config 2
    (ClientTs.getPersonWithEvents host config email eventsLimit eventType
       from to).
Proof.
  unfold ClientTs.getPersonWithEvents.
  apply (transported_bind _ _ 1 1); [apply transported_getPersonByEmail_ts|].
  intros [person|]; [|apply transported_quiet, quiet_ret].
  apply (transported_bind _ _ 1 0); [apply transported_getPersonEvents_ts|].
  intros events. apply transported_quiet, quiet_ret.
Qed.

Lemma transported_sends {A} (c : M A) (n : nat) :
  Transported host config n c -> SendsAtMost host config n c.
Proof.
  intros H w. destruct (H w) as (queries & lines & Hs & Hn & _).
  exists queries. now split.
Qed.

Lemma transported_logs {A} (c : M A) (n : nat) :
  Transported host config n c -> LogsUnderDebug host c.
Proof.
  intros H w. destruct (H w) as (queries & lines & Hs & Hn & Hc & Hl & Hd & Hp).
  exists lines. repeat split; auto.
  rewrite Hs, length_app, length_map. lia.
Qed.

End Transport.

(** Every request of the client is a POST to the one query endpoint of
    the configured project, with the bearer credential; the three single
    lookups send at most one request and the composed lookup at most two,
    the second only after the person lookup has returned a person.  Both
    clients. *)
Theorem operations_post_to_the_query_endpoint_once_or_twice
  (host : Host) (config : PostHogConfig) :
  (forall query,
     url (request host config query)
     = apiBaseUrl config ++ "/api/projects/" ++ projectId config ++ "/query/"
     /\ method (request host config query) = "POST"
     /\ headers (request host config query)
        = [("Content-Type", "application/json");
           ("Authorization", "Bearer " ++ personalApiKey config)]
     /\ body (request host config query)
        = JSON_stringify host
            (JObj [("query", JObj [("kind", JStr "HogQLQuery");
                                   ("query", JStr query)])]))
  /\ (forall email,
        SendsAtMost host config 1 (EscapingClient.getPersonByEmail host config email)
        /\ SendsAtMost host config 1 (ClientTs.getPersonByEmail host config email))
  /\ (forall eventName limit from to,
        SendsAtMost host config 1
          (EscapingClient.getPersonsByEvent host config eventName limit from to)
        /\ SendsAtMost host config 1
             (ClientTs.getPersonsByEvent host config eventName limit from to))
  /\ (forall personId limit eventType from to,
        SendsAtMost host config 1
          (EscapingClient.getPersonEvents host config personId limit eventType
             from to)
        /\ SendsAtMost host config 1
             (ClientTs.getPersonEvents host config personId limit eventType
                from to))
  /\ (forall email eventsLimit eventType from to,
        SendsAtMost host config 2
          (EscapingClient.getPersonWithEvents host config email eventsLimit
             eventType from to)
        /\ SendsAtMost host config 2
             (ClientTs.getPersonWithEvents host config email eventsLimit
                eventType from to))
  /\ (forall email eventsLimit eventType from to w,
        (List.length (sent (snd (EscapingClient.getPersonWithEvents host config
                                   email eventsLimit eventType from to w)))
         = List.length (sent w) + 2)%nat ->
        exists person w1,
          EscapingClient.getPersonByEmail host config email w
          = (Return (Some person), w1))
  /\ (forall email eventsLimit eventType from to w,
        (List.length (sent (snd (ClientTs.getPersonWithEvents host config
                                   email eventsLimit eventType from to w)))
         = List.length (sent w) + 2)%nat ->
        exists person w1,
          ClientTs.getPersonByEmail host config email w
          = (Return (Some person), w1)).
Proof.
  split; [intros query; repeat split|].
  split; [intros; split; eapply transported_sends;
          [apply transported_getPersonByEmail_escaping
          |apply transported_getPersonByEmail_ts]|].
  split; [intros; split; eapply transported_sends;
          [apply transported_getPersonsByEvent_escaping
          |apply transported_getPersonsByEvent_ts]|].
  split; [intros; split; eapply transported_sends;
          [apply transported_getPersonEvents_escaping
          |apply transported_getPersonEvents_ts]|].
  split; [intros; split; eapply transported_sends;
          [apply transported_getPersonWithEvents_escaping
          |apply transported_getPersonWithEvents_ts]|].
  split.
  - intros email eventsLimit eventType from to w.
    pose proof (getPersonByEmail_escapes host config email w) as Hs.
    unfold EscapingClient.getPersonWithEvents, bind.
    destruct (EscapingClient.getPersonByEmail host config email w)
      as [[[person|]|e|] w1]; unfold ret; cbn [snd] in *;
      [ intros _; now exists person, w1 | | | ];
      rewrite Hs, length_app; cbn [List.length]; lia.
  - intros email eventsLimit eventType from to w.
    pose proof (getPersonByEmail_ts_request host config email w) as Hs.
    unfold ClientTs.getPersonWithEvents, bind.
    destruct (ClientTs.getPersonByEmail host config email w)
      as [[[person|]|e|] w1]; unfold ret; cbn [snd] in *;
      [ intros _; now exists person, w1 | | | ];
      rewrite Hs, length_app; cbn [List.length]; lia.
Qed.

(** With DEBUG unset no operation of either client writes to the console;
    with DEBUG set the only lines written are those [executeQuery] logs for a
    response it could read, at most one for each request. *)
Theorem console_is_written_only_under_DEBUG
  (host : Host) (config : PostHogConfig) :
  (forall email,
     LogsUnderDebug host (EscapingClient.getPersonByEmail host config email)
     /\ LogsUnderDebug host (ClientTs.getPersonByEmail host config email))
  /\ (forall eventName limit from to,
        LogsUnderDebug host
          (EscapingClient.getPersonsByEvent host config eventName limit from to)
        /\ LogsUnderDebug host
             (ClientTs.getPersonsByEvent host config eventName limit from to))
  /\ (forall personId limit eventType from to,
        LogsUnderDebug host
          (EscapingClient.getPersonEvents host config personId limit eventType
             from to)
        /\ LogsUnderDebug host
             (ClientTs.getPersonEvents host config personId limit eventType
                from to))
  /\ (forall email eventsLimit eventType from to,
        LogsUnderDebug host
          (EscapingClient.getPersonWithEvents host config email eventsLimit
             eventType from to)
        /\ LogsUnderDebug host
             (ClientTs.getPersonWithEvents host config email eventsLimit
                eventType from to)).
Proof.
  split; [intros; split; eapply transported_logs;
          [apply transported_getPersonByEmail_escaping
          |apply transported_getPersonByEmail_ts]|].
  split; [intros; split; eapply transported_logs;
          [apply transported_getPersonsByEvent_escaping
          |apply transported_getPersonsByEvent_ts]|].
  split; [intros; split; eapply transported_logs;
          [apply transported_getPersonEvents_escaping
          |apply transported_getPersonEvents_ts]|].
  intros; split; eapply transported_logs;
    [apply transported_getPersonWithEvents_escaping
    |apply transported_getPersonWithEvents_ts].
Qed.

(** ** The queries of the escaping client as prepared statements *)

Lemma parameterizeWith_mono (n m : nat) (s : string) (r : string * list string) :
  parameterizeWith n s = Some r -> (n <= m)%nat -> parameterizeWith m s = Some r.
Proof.
  revert m s r. induction n as [|n IH]; intros m s r E Hnm; [discriminate|].
  destruct m as [|m]; [lia|]. cbn [parameterizeWith] in *.
  destruct s as [|c s]; [exact E|].
  destruct (Ascii.eqb c quote).
  - destruct (readLiteral s) as [[value rest]|]; [|discriminate].
    destruct (parameterizeWith n rest) as [[t vs]|] eqn:En; [|discriminate].
    now rewrite (IH m rest (t, vs) En ltac:(lia)).
  - destruct (parameterizeWith n s) as [[t vs]|] eqn:En; [|discriminate].
    now rewrite (IH m s (t, vs) En ltac:(lia)).
Qed.

Lemma parameterizeWith_plain (p s t : string) (vs : list string) (n : nat) :
  allChars (fun c => negb (Ascii.eqb c quote)) p = true ->
  parameterizeWith n s = Some (t, vs) ->
  parameterizeWith (String.length p + n) (p ++ s) = Some (p ++ t, vs).
Proof.
  intros Hp E. induction p as [|c p IH]; [exact E|].
  cbn [allChars] in Hp. apply andb_true_iff in Hp. destruct Hp as [Hc Hp].
  apply negb_true_iff in Hc.
  cbn [String.length Nat.add append parameterizeWith]. now rewrite Hc, (IH Hp).
Qed.

Lemma parameterizeWith_quoted (v s t : string) (vs : list string) (n : nat) :
  parameterizeWith n s = Some (t, vs) ->
  parameterizeWith (S n) (("'" ++ escapeHogQLString v ++ "'") ++ s)
  = Some ("?" ++ t, v :: vs).
Proof.
  intros E. rewrite append_assoc. cbn [append parameterizeWith].
  change (Ascii.eqb "'" quote) with true. cbv iota.
  rewrite append_assoc.
  change ("'" ++ s) with (str quote ++ s).
  now rewrite readLiteral_escape, E.
Qed.

Lemma parameterizeWith_render (pieces : list Piece) :
  Forall quoteFree pieces ->
  exists n, (n <= S (String.length (render pieces)))%nat
            /\ parameterizeWith n (render pieces)
               = Some (templateOf pieces, valuesOf pieces).
Proof.
  induction 1 as [|p pieces Hp _ (n & Hn & E)].
  - exists 1%nat. split; [cbn; lia | reflexivity].
  - destruct p as [text|value]; cbn [render renderPiece templateOf valuesOf].
    + exists (String.length text + n)%nat. split.
      * rewrite length_append. lia.
      * now apply parameterizeWith_plain.
    + exists (S n). split.
      * rewrite !length_append. cbn [String.length]. lia.
      * now apply parameterizeWith_quoted.
Qed.

Lemma parameterize_render (pieces : list Piece) :
  Forall quoteFree pieces ->
  parameterize (render pieces) = Some (templateOf pieces, valuesOf pieces).
Proof.
  intros H. destruct (parameterizeWith_render pieces H) as (n & Hn & E).
  exact (parameterizeWith_mono _ _ _ _ E Hn).
Qed.

Lemma decimalDigits_digits (fuel : nat) (z : Z) (acc : string) :
  allChars isDigit acc = true ->
  allChars isDigit (decimalDigits fuel z acc) = true.
Proof.
  revert z acc. induction fuel as [|fuel IH]; intros z acc Ha;
    cbn [decimalDigits].
  - cbn [allChars]. now rewrite isDigit_digitChar.
  - destruct (z / 10 =? 0).
    + cbn [allChars]. now rewrite isDigit_digitChar.
    + apply IH. cbn [allChars]. now rewrite isDigit_digitChar.
Qed.

Lemma decimal_quoteFree (z : Z) :
  allChars (fun c => negb (Ascii.eqb c quote)) (decimal z) = true.
Proof.
  unfold decimal. destruct (z <? 0).
  - cbn [append allChars]. apply andb_true_iff. split; [reflexivity|].
    apply digits_avoid; [reflexivity|]. now apply decimalDigits_digits.
  - apply digits_avoid; [reflexivity|]. now apply decimalDigits_digits.
Qed.

Lemma dateLiteral_escape (lit : string) :
  dateLiteral lit -> escapeHogQLString lit = lit.
Proof. intros [_ H]. apply escape_plain, dateChar_plain, H. Qed.

(** The pieces of the three queries. *)
Lemma limit_tail_quoteFree (limit : Z) :
  allChars (fun c => negb (Ascii.eqb c quote))
    (nl ++ "      ORDER BY timestamp DESC" ++ nl ++ "      LIMIT "
     ++ decimal limit ++ nl ++ "    ") = true.
Proof.
  rewrite !allChars_app, decimal_quoteFree. reflexivity.
Qed.

Lemma personByEmailQuery_statement (email : string) :
  parameterize (personByEmailQuery (escapeHogQLString email))
  = Some (personByEmailTemplate, [email]).
Proof.
  replace (personByEmailQuery (escapeHogQLString email))
    with (render [Plain (nl ++ "      SELECT id, properties" ++
                         nl ++ "      FROM persons" ++
                         nl ++ "      WHERE properties.email = ");
                  Quoted email;
                  Plain (nl ++ "      LIMIT 1" ++ nl ++ "    ")])
    by (unfold personByEmailQuery; cbn [render renderPiece];
        rewrite !append_assoc, ?append_nil_r; reflexivity).
  rewrite parameterize_render; [reflexivity|].
  repeat constructor.
Qed.

Ltac literal_cases lower upper Hl Hu :=
  let l := fresh "l" in
  let u := fresh "u" in
  destruct lower as [l|];
    [ pose proof (dateLiteral_escape l (Hl l eq_refl)) | ];
  (destruct upper as [u|];
    [ pose proof (dateLiteral_escape u (Hu u eq_refl)) | ]).

Ltac filter_cases eventType :=
  let e := fresh "e" in
  destruct eventType as [e|];
    cbn [filterPieces eventTypeClause bounded taken];
    [destruct (truthy e)|].

Ltac as_pieces pieces cases :=
  match goal with
  | |- parameterize ?query = _ =>
      replace query with (render pieces)
        by (cases;
            cbn [render renderPiece app filterPieces boundPieces
                 clauseOf eventTypeClause];
            unfold personsByEventQuery, personEventsQuery;
            repeat match goal with
                   | E : escapeHogQLString ?l = ?l |- _ => rewrite E; clear E
                   end;
            rewrite ?append_assoc, ?append_nil_r; reflexivity)
  end;
  rewrite parameterize_render;
  [ cases;
    cbn [templateOf valuesOf app filterPieces boundPieces];
    unfold personsByEventTemplate, personEventsTemplate;
    cbn [isSet bounded taken optional app];
    rewrite ?append_assoc, ?append_nil_r; reflexivity
  | cases;
    cbn [app filterPieces boundPieces];
    repeat constructor; apply limit_tail_quoteFree ].

Lemma personsByEventQuery_statement (eventName : string)
  (lower upper : option string) (limit : Z) :
  (forall l, lower = Some l -> dateLiteral l) ->
  (forall u, upper = Some u -> dateLiteral u) ->
  parameterize (personsByEventQuery (escapeHogQLString eventName)
                  (clauseOf lower upper) limit)
  = Some (personsByEventTemplate (isSet lower) (isSet upper) limit,
          eventName :: (optional lower ++ optional upper)%list).
Proof.
  intros Hl Hu.
  as_pieces
    ([Plain (nl ++ "      SELECT DISTINCT person.id, person.properties" ++
             nl ++ "      FROM events" ++
             nl ++ "      WHERE event = ");
      Quoted eventName]
     ++ boundPieces ">=" lower ++ boundPieces "<=" upper
     ++ [Plain (nl ++ "      ORDER BY timestamp DESC" ++
                nl ++ "      LIMIT " ++ decimal limit ++ nl ++ "    ")])%list
    ltac:(literal_cases lower upper Hl Hu).
Qed.

Lemma personEventsQuery_statement (personId : string)
  (eventType lower upper : option string) (limit : Z) :
  (forall l, lower = Some l -> dateLiteral l) ->
  (forall u, upper = Some u -> dateLiteral u) ->
  parameterize (personEventsQuery (escapeHogQLString personId)
                  (eventTypeClause escapeHogQLString eventType)
                  (clauseOf lower upper) limit)
  = Some (personEventsTemplate (bounded eventType) (isSet lower) (isSet upper)
            limit,
          personId :: (taken eventType ++ optional lower ++ optional upper)%list).
Proof.
  intros Hl Hu.
  as_pieces
    ([Plain (nl ++ "      SELECT event, timestamp, properties" ++
             nl ++ "      FROM events" ++
             nl ++ "      WHERE person_id = ");
      Quoted personId]
     ++ filterPieces eventType
     ++ boundPieces ">=" lower ++ boundPieces "<=" upper
     ++ [Plain (nl ++ "      ORDER BY timestamp DESC" ++
                nl ++ "      LIMIT " ++ decimal limit ++ nl ++ "    ")])%list
    ltac:(filter_cases eventType; literal_cases lower upper Hl Hu).
Qed.

Section PreparedStatements.

Variable host : Host.
Variable config : PostHogConfig.

Lemma isSet_bounded {A} (lit : option A) (bound : option string) :
  (lit = None <-> bounded bound = false) -> isSet lit = bounded bound.
Proof.
  intros [H1 H2]. destruct lit as [a|]; cbn [isSet].
  - destruct (bounded bound); [reflexivity|]. discriminate (H2 eq_refl).
  - symmetry. now apply H1.
Qed.

Lemma optional_dates (lower upper : option string) :
  (forall l, lower = Some l -> dateLiteral l) ->
  (forall u, upper = Some u -> dateLiteral u) ->
  Forall dateLiteral (optional lower ++ optional upper)%list.
Proof.
  intros Hl Hu. apply Forall_app. split.
  - destruct lower as [l|]; constructor; [now apply Hl | constructor].
  - destruct upper as [u|]; constructor; [now apply Hu | constructor].
Qed.

Lemma getPersonsByEvent_escaping_sends (eventName : string) (limit : option Z)
  (from to : option string) (w : World) :
  sent (snd (EscapingClient.getPersonsByEvent host config eventName limit from to w))
  = sent w
  \/ exists lower upper,
       isSet lower = bounded from /\ isSet upper = bounded to
       /\ (forall l, lower = Some l -> dateLiteral l)
       /\ (forall u, upper = Some u -> dateLiteral u)
       /\ sent (snd (EscapingClient.getPersonsByEvent host config eventName limit
                       from to w))
          = (sent w ++ [request host config
                          (personsByEventQuery (escapeHogQLString eventName)
                             (clauseOf lower upper) (orDefault limit 10))])%list.
Proof.
  unfold EscapingClient.getPersonsByEvent, bind.
  destruct (quiet_buildTimestampClause_escaping host (mkTimeframe from to) w)
    as [Hq _].
  destruct (EscapingClient.buildTimestampClause host (mkTimeframe from to) w)
    as [[clause| |] w1] eqn:Ec; cbn [snd] in *; auto.
  right.
  destruct (clause_shape_escaping host _ _ _ _ Ec)
    as (lower & upper & -> & Hl & Hu & Dl & Du).
  exists lower, upper. simpl in Hl, Hu.
  split; [now apply isSet_bounded|]. split; [now apply isSet_bounded|].
  split; [exact Dl|]. split; [exact Du|].
  rewrite <- Hq.
  pose proof (executeQuery_sent host config row2
                (personsByEventQuery (escapeHogQLString eventName)
                   (clauseOf lower upper) (orDefault limit 10)) w1) as [Hs _].
  destruct (executeQuery host config row2 _ w1) as [[r| |] w2];
    cbn [snd] in *; exact Hs.
Qed.

Lemma getPersonEvents_escaping_sends (personId : string) (limit : option Z)
  (eventType from to : option string) (w : World) :
  sent (snd (EscapingClient.getPersonEvents host config personId limit eventType
               from to w))
  = sent w
  \/ exists lower upper,
       isSet lower = bounded (Some (orDefault from "30d"))
       /\ isSet upper = bounded to
       /\ (forall l, lower = Some l -> dateLiteral l)
       /\ (forall u, upper = Some u -> dateLiteral u)
       /\ sent (snd (EscapingClient.getPersonEvents host config personId limit
                       eventType from to w))
          = (sent w ++ [request host config
                          (personEventsQuery (escapeHogQLString personId)
                             (eventTypeClause escapeHogQLString eventType)
                             (clauseOf lower upper) (orDefault limit 50))])%list.
Proof.
  unfold EscapingClient.getPersonEvents, bind.
  destruct (quiet_buildTimestampClause_escaping host
              (mkTimeframe (Some (orDefault from "30d")) to) w) as [Hq _].
  destruct (EscapingClient.buildTimestampClause host
              (mkTimeframe (Some (orDefault from "30d")) to) w)
    as [[clause| |] w1] eqn:Ec; cbn [snd] in *; auto.
  right.
  destruct (clause_shape_escaping host _ _ _ _ Ec)
    as (lower & upper & -> & Hl & Hu & Dl & Du).
  exists lower, upper. simpl in Hl, Hu.
  split; [now apply isSet_bounded|]. split; [now apply isSet_bounded|].
  split; [exact Dl|]. split; [exact Du|].
  rewrite <- Hq.
  pose proof (executeQuery_sent host config row3
                (personEventsQuery (escapeHogQLString personId)
                   (eventTypeClause escapeHogQLString eventType)
                   (clauseOf lower upper) (orDefault limit 50)) w1) as [Hs _].
  unfold eventTypeClause in Hs.
  destruct (executeQuery host config row3 _ w1) as [[r| |] w2];
    cbn [snd] in *; exact Hs.
Qed.

End PreparedStatements.

(** The queries of the escaping client read as prepared statements: for
    every input, taking the quoted literals out of the query that a lookup
    sends leaves a text that does not depend on the values looked up, and
    the literals read back as exactly the values passed in, followed by the
    literals of the time bounds. *)
Theorem escaping_client_queries_are_prepared_statements
  (host : Host) (config : PostHogConfig) :
  (forall email w,
     exists query,
       sent (snd (EscapingClient.getPersonByEmail host config email w))
       = (sent w ++ [request host config query])%list
       /\ parameterize query = Some (personByEmailTemplate, [email]))
  /\ (forall eventName limit from to w,
        sent (snd (EscapingClient.getPersonsByEvent host config eventName limit
                     from to w)) = sent w
        \/ exists query dates,
             sent (snd (EscapingClient.getPersonsByEvent host config eventName
                          limit from to w))
             = (sent w ++ [request host config query])%list
             /\ Forall dateLiteral dates
             /\ parameterize query
                = Some (personsByEventTemplate (bounded from) (bounded to)
                          (orDefault limit 10),
                        eventName :: dates))
  /\ (forall personId limit eventType from to w,
        sent (snd (EscapingClient.getPersonEvents host config personId limit
                     eventType from to w)) = sent w
        \/ exists query dates,
             sent (snd (EscapingClient.getPersonEvents host config personId
                          limit eventType from to w))
             = (sent w ++ [request host config query])%list
             /\ Forall dateLiteral dates
             /\ parameterize query
                = Some (personEventsTemplate (bounded eventType)
                          (bounded (Some (orDefault from "30d"))) (bounded to)
                          (orDefault limit 50),
                        personId :: (taken eventType ++ dates)%list)).
Proof.
  split; [|split].
  - intros email w. eexists. split; [apply getPersonByEmail_escapes|].
    apply personByEmailQuery_statement.
  - intros eventName limit from to w.
    destruct (getPersonsByEvent_escaping_sends host config eventName limit from
                to w) as [H | (lower & upper & Il & Iu & Dl & Du & Hs)];
      [now left | right].
    eexists. exists (optional lower ++ optional upper)%list.
    split; [exact Hs|]. split; [now apply optional_dates|].
    rewrite <- Il, <- Iu. now apply personsByEventQuery_statement.
  - intros personId limit eventType from to w.
    destruct (getPersonEvents_escaping_sends host config personId limit
                eventType from to w)
      as [H | (lower & upper & Il & Iu & Dl & Du & Hs)]; [now left | right].
    eexists. exists (optional lower ++ optional upper)%list.
    split; [exact Hs|]. split; [now apply optional_dates|].
    rewrite <- Il, <- Iu. now apply personEventsQuery_statement.
Qed.

(** Whatever strings are given for the time bounds, a timestamp clause that
    either client builds consists of the fixed words and of literals of
    valid dates (digits and [-+:. ] only): a bound contributes its literal
    exactly when it is a non-empty string, and building the clause sends
    nothing. *)
Theorem timestamp_clause_holds_only_date_literals
  (host : Host) (options : TimeframeOptions) (w w1 : World) (clause : string) :
  EscapingClient.buildTimestampClause host options w = (Return clause, w1)
  \/ ClientTs.buildTimestampClause host options w = (Return clause, w1) ->
  exists lower upper,
    clause = clauseOf lower upper
    /\ isSet lower = bounded (from options)
    /\ isSet upper = bounded (to options)
    /\ Forall dateLiteral (optional lower ++ optional upper)%list
    /\ sent w1 = sent w.
Proof.
  intros [E | E].
  - destruct (clause_shape_escaping host _ _ _ _ E)
      as (lower & upper & -> & Hl & Hu & Dl & Du).
    exists lower, upper. split; [reflexivity|].
    split; [now apply isSet_bounded|]. split; [now apply isSet_bounded|].
    split; [now apply optional_dates|].
    destruct (quiet_buildTimestampClause_escaping host options w) as [Hq _].
    now rewrite E in Hq.
  - destruct (clause_shape_ts host _ _ _ _ E)
      as (lower & upper & -> & Hl & Hu & Dl & Du).
    exists lower, upper. split; [reflexivity|].
    split; [now apply isSet_bounded|]. split; [now apply isSet_bounded|].
    split; [now apply optional_dates|].
    destruct (quiet_buildTimestampClause_ts host options w) as [Hq _].
    now rewrite E in Hq.
Qed.

Lemma timestamp_clause_witness :
  exists lower upper,
    " AND timestamp >= '2023-11-07 22:13:20.000' AND timestamp <= '2024-01-31 00:00:00.000'"
    = clauseOf lower upper
    /\ isSet lower = true
    /\ isSet upper = true
    /\ Forall dateLiteral (optional lower ++ optional upper)%list
    /\ @nil Request = [].
Proof.
  apply (timestamp_clause_holds_only_date_literals Engine.offline
           (mkTimeframe (Some "7d") (Some "2024-01-31")) Engine.world0
           (mkWorld 2 [] [])).
  left. vm_compute. reflexivity.
Defined.

(** ** One record for each row *)

(** In the escaping client a lookup that returns has mapped every row of the
    response, in the order of the response, whatever limit was asked for:
    the ids (or event names and timestamps) are those of the rows, no person
    carries distinct ids, and every properties value is an object. *)
Theorem escaping_client_maps_every_row_in_order
  (host : Host) (config : PostHogConfig) :
  (forall eventName limit from to w persons w2,
     EscapingClient.getPersonsByEvent host config eventName limit from to w
     = (Return persons, w2) ->
     exists clause w1 result,
       EscapingClient.buildTimestampClause host (mkTimeframe from to) w
       = (Return clause, w1)
       /\ executeQuery host config row2
            (personsByEventQuery (escapeHogQLString eventName) clause
               (orDefault limit 10)) w1 = (Return result, w2)
       /\ List.length persons = List.length (results result)
       /\ map id persons = map fst (results result)
       /\ map properties persons
          = map (fun row => EscapingClient.safeParseJson host (snd row))
              (results result)
       /\ (forall p, In p persons ->
             distinctIds p = [] /\ isPlainObject (properties p) = true))
  /\ (forall personId limit eventType from to w events w2,
        EscapingClient.getPersonEvents host config personId limit eventType
          from to w = (Return events, w2) ->
        exists clause w1 result,
          EscapingClient.buildTimestampClause host
            (mkTimeframe (Some (orDefault from "30d")) to) w = (Return clause, w1)
          /\ executeQuery host config row3
               (personEventsQuery (escapeHogQLString personId)
                  (eventTypeClause escapeHogQLString eventType) clause
                  (orDefault limit 50)) w1 = (Return result, w2)
          /\ List.length events = List.length (results result)
          /\ map event events = map (fun row => fst (fst row)) (results result)
          /\ map timestamp events
             = map (fun row => snd (fst row)) (results result)
          /\ map event_properties events
             = map (fun row => EscapingClient.safeParseJson host (snd row))
                 (results result)
          /\ (forall e, In e events ->
                isPlainObject (event_properties e) = true)).
Proof.
  split.
  - intros eventName limit from to w persons w2 E.
    destruct (EscapingClient.buildTimestampClause host (mkTimeframe from to) w)
      as [[clause| |] w1] eqn:Ec;
      [ | unfold EscapingClient.getPersonsByEvent in E;
          rewrite (bind_throw _ _ _ _ _ Ec) in E; discriminate E
        | unfold EscapingClient.getPersonsByEvent in E;
          rewrite (bind_outside _ _ _ _ Ec) in E; discriminate E ].
    destruct (executeQuery host config row2
                (personsByEventQuery (escapeHogQLString eventName) clause
                   (orDefault limit 10)) w1) as [[result| |] w3] eqn:Eq;
      [ | unfold EscapingClient.getPersonsByEvent in E;
          rewrite (bind_return _ _ _ _ _ Ec), (bind_throw _ _ _ _ _ Eq) in E;
          discriminate E
        | unfold EscapingClient.getPersonsByEvent in E;
          rewrite (bind_return _ _ _ _ _ Ec), (bind_outside _ _ _ _ Eq) in E;
          discriminate E ].
    rewrite (getPersonsByEvent_maps_rows host config eventName limit from to
               w w1 w3 clause result Ec Eq) in E.
    injection E as <- <-. exists clause, w1, result.
    split; [first [exact Ec | reflexivity]|].
    split; [first [exact Eq | reflexivity]|].
    rewrite length_map, !map_map. cbn [id properties].
    split; [reflexivity|]. split; [reflexivity|]. split; [reflexivity|].
    intros p H. apply in_map_iff in H. destruct H as (row & <- & _).
    split; [reflexivity | apply safeParseJson_isObject].
  - intros personId limit eventType from to w events w2 E.
    destruct (EscapingClient.buildTimestampClause host
                (mkTimeframe (Some (orDefault from "30d")) to) w)
      as [[clause| |] w1] eqn:Ec;
      [ | unfold EscapingClient.getPersonEvents in E;
          rewrite (bind_throw _ _ _ _ _ Ec) in E; discriminate E
        | unfold EscapingClient.getPersonEvents in E;
          rewrite (bind_outside _ _ _ _ Ec) in E; discriminate E ].
    destruct (executeQuery host config row3
                (personEventsQuery (escapeHogQLString personId)
                   (eventTypeClause escapeHogQLString eventType) clause
                   (orDefault limit 50)) w1) as [[result| |] w3] eqn:Eq;
      [ | unfold EscapingClient.getPersonEvents in E;
          rewrite (bind_return _ _ _ _ _ Ec) in E;
          unfold eventTypeClause in Eq;
          rewrite (bind_throw _ _ _ _ _ Eq) in E; discriminate E
        | unfold EscapingClient.getPersonEvents in E;
          rewrite (bind_return _ _ _ _ _ Ec) in E;
          unfold eventTypeClause in Eq;
          rewrite (bind_outside _ _ _ _ Eq) in E; discriminate E ].
    rewrite (getPersonEvents_maps_rows host config personId limit eventType
               from to w w1 w3 clause result Ec Eq) in E.
    injection E as <- <-. exists clause, w1, result.
    split; [first [exact Ec | reflexivity]|].
    split; [first [exact Eq | reflexivity]|].
    rewrite length_map, !map_map. cbn [event timestamp event_properties].
    split; [reflexivity|]. split; [reflexivity|]. split; [reflexivity|].
    split; [reflexivity|].
    intros e H. apply in_map_iff in H. destruct H as (row & <- & _).
    apply safeParseJson_isObject.
Qed.

Lemma rows_witness_two_events :
  exists clause w1 (result : HogQLQueryResult (string * string * string)),
    EscapingClient.buildTimestampClause Engine.personThenEvents
      (mkTimeframe (Some "30d") None) (mkWorld 0 [mkRequest "" "" [] ""] [])
    = (Return clause, w1)
    /\ List.length (results result) = 2%nat.
Proof.
  destruct (proj2 (escaping_client_maps_every_row_in_order
                     Engine.personThenEvents Engine.config0)
              "p1" None None None None (mkWorld 0 [mkRequest "" "" [] ""] [])
              [mkEvent "pageview" "2023-11-14 10:00:00.000000" (JObj []);
               mkEvent "signup" "2023-11-13 09:00:00.000000" (JObj [])]
              _ ltac:(vm_compute; reflexivity))
    as (clause & w1 & result & Ec & _ & Hlen & _).
  exists clause, w1, result. split; [exact Ec|]. now rewrite <- Hlen.
Defined.

(** ** Loading the configuration *)

Lemma whenTruthy_Some (value : option string) (s : string) :
  Config.whenTruthy value = Some s <-> value = Some s /\ s <> "".
Proof.
  unfold Config.whenTruthy. destruct value as [v|].
  - destruct v as [|c v]; cbn [truthy]; split.
    + discriminate.
    + intros [E H]. injection E as <-. now destruct H.
    + intros E. injection E as <-. split; [reflexivity | discriminate].
    + intros [E _]. exact E.
  - split; [discriminate | intros [E _]; discriminate E].
Qed.

Lemma whenTruthy_None (value : option string) :
  Config.whenTruthy value = None <-> value = None \/ value = Some "".
Proof.
  unfold Config.whenTruthy. destruct value as [[|c v]|]; cbn [truthy]; split;
    auto; try discriminate; intros [E|E]; discriminate E.
Qed.

Lemma isValidRegion_Some (r : string) (region : PostHogRegion) :
  Config.isValidRegion r = Some region
  <-> (r = "us" /\ region = us) \/ (r = "eu" /\ region = eu).
Proof.
  unfold Config.isValidRegion.
  destruct (String.eqb_spec r "us") as [->|Hus].
  - split; [intros E; injection E as <-; auto|].
    intros [[_ ->] | [E _]]; [reflexivity | discriminate E].
  - destruct (String.eqb_spec r "eu") as [->|Heu].
    + split; [intros E; injection E as <-; auto|].
      intros [[E _] | [_ ->]]; [discriminate E | reflexivity].
    + split; [discriminate|]. intros [[E _] | [E _]]; congruence.
Qed.

(** [loadConfig] returns a configuration exactly when the key and the
    project id are set to non-empty strings and the region is unset, "us"
    or "eu"; the configuration then carries the key and the project id as
    they are, the region (us when unset), and the base URL of that region. *)
Theorem loadConfig_returns_iff_the_variables_are_usable
  (env : Config.Env) (config : PostHogConfig) :
  Config.loadConfig env = Return config
  <-> env "POSTHOG_PERSONAL_API_KEY" = Some (personalApiKey config)
      /\ personalApiKey config <> ""
      /\ env "POSTHOG_PROJECT_ID" = Some (projectId config)
      /\ projectId config <> ""
      /\ ((env "POSTHOG_REGION" = None /\ region config = us)
          \/ (env "POSTHOG_REGION" = Some "us" /\ region config = us)
          \/ (env "POSTHOG_REGION" = Some "eu" /\ region config = eu))
      /\ apiBaseUrl config
         = match region config with
           | eu => "https://eu.posthog.com"
           | us => "https://us.posthog.com"
           end.
Proof.
  unfold Config.loadConfig. split.
  - destruct (Config.whenTruthy (env "POSTHOG_PERSONAL_API_KEY")) as [key|] eqn:Ek;
      [|discriminate].
    destruct (Config.whenTruthy (env "POSTHOG_PROJECT_ID")) as [project|] eqn:Ep;
      [|discriminate].
    destruct (Config.isValidRegion (orDefault (env "POSTHOG_REGION") "us"))
      as [r|] eqn:Er; [|discriminate].
    intros E. apply Return_inj in E. subst config.
    cbn [personalApiKey projectId region apiBaseUrl].
    apply whenTruthy_Some in Ek, Ep. destruct Ek as [Ek Hk], Ep as [Ep Hp].
    apply isValidRegion_Some in Er.
    do 4 (split; [assumption|]). split; [|now destruct r].
    destruct (env "POSTHOG_REGION") as [s|]; cbn [orDefault] in Er.
    + destruct Er as [[-> ->] | [-> ->]]; auto.
    + destruct Er as [[_ ->] | [E _]]; [auto | discriminate E].
  - intros (Ek & Hk & Ep & Hp & Er & Eu).
    rewrite (proj2 (whenTruthy_Some _ _) (conj Ek Hk)).
    rewrite (proj2 (whenTruthy_Some _ _) (conj Ep Hp)).
    destruct config as [key project r base].
    cbn [personalApiKey projectId region apiBaseUrl] in *.
    destruct Er as [[-> ->] | [[-> ->] | [-> ->]]]; subst base; reflexivity.
Qed.

(** [loadConfig] fails on the first variable that is not usable, in the
    order key, project id, region: a variable that is unset or set to the
    empty string counts as missing, and a region that is set to anything but
    "us" or "eu", the empty string included, is refused with the value in
    the message.  No other outcome exists. *)
Theorem loadConfig_refuses_the_first_unusable_variable (env : Config.Env) :
  (env "POSTHOG_PERSONAL_API_KEY" = None
   \/ env "POSTHOG_PERSONAL_API_KEY" = Some "" ->
   Config.loadConfig env
   = Throw (Error "POSTHOG_PERSONAL_API_KEY environment variable is required."))
  /\ (forall key,
        env "POSTHOG_PERSONAL_API_KEY" = Some key -> key <> "" ->
        env "POSTHOG_PROJECT_ID" = None \/ env "POSTHOG_PROJECT_ID" = Some "" ->
        Config.loadConfig env
        = Throw (Error "POSTHOG_PROJECT_ID environment variable is required."))
  /\ (forall key project given,
        env "POSTHOG_PERSONAL_API_KEY" = Some key -> key <> "" ->
        env "POSTHOG_PROJECT_ID" = Some project -> project <> "" ->
        env "POSTHOG_REGION" = Some given -> given <> "us" -> given <> "eu" ->
        Config.loadConfig env
        = Throw (Error ("POSTHOG_REGION must be " ++ Config.quoted "us" ++ " or "
                        ++ Config.quoted "eu" ++ ", got: " ++ Config.quoted given)))
  /\ Config.loadConfig env <> OutsideType.
Proof.
  unfold Config.loadConfig. repeat split.
  - intros H. now rewrite (proj2 (whenTruthy_None _) H).
  - intros key Ek Hk H.
    rewrite (proj2 (whenTruthy_Some _ _) (conj Ek Hk)).
    now rewrite (proj2 (whenTruthy_None _) H).
  - intros key project given Ek Hk Ep Hp Er Hus Heu.
    rewrite (proj2 (whenTruthy_Some _ _) (conj Ek Hk)).
    rewrite (proj2 (whenTruthy_Some _ _) (conj Ep Hp)).
    rewrite Er. cbn [orDefault]. unfold Config.isValidRegion.
    apply String.eqb_neq in Hus, Heu. now rewrite Hus, Heu.
  - destruct (Config.whenTruthy (env "POSTHOG_PERSONAL_API_KEY")); [|discriminate].
    destruct (Config.whenTruthy (env "POSTHOG_PROJECT_ID")); [|discriminate].
    destruct (Config.isValidRegion _); discriminate.
Qed.

Lemma sends_posts (host : Host) (config : PostHogConfig) (n : nat) {A} (c : M A) :
  SendsAtMost host config n c ->
  PostsOnlyTo
    (apiBaseUrl config ++ "/api/projects/" ++ projectId config ++ "/query/")
    (personalApiKey config) c.
Proof.
  intros H w req Hin. destruct (H w) as (queries & _ & Hs).
  rewrite Hs in Hin. apply in_app_or in Hin. destruct Hin as [Hin|Hin]; [now left|].
  right. apply in_map_iff in Hin. destruct Hin as (q & <- & _).
  split; [reflexivity|]. split; [reflexivity|]. right. now left.
Qed.

(** A configuration that [loadConfig] returned keeps every request of both
    clients on one of the two PostHog hosts, at the query endpoint of the
    configured project, and the credential that goes with it is the key of
    the environment. *)
Theorem loaded_configuration_confines_requests_to_posthog
  (env : Config.Env) (config : PostHogConfig) (host : Host) :
  Config.loadConfig env = Return config ->
  exists base key,
    (base = "https://us.posthog.com" \/ base = "https://eu.posthog.com")
    /\ env "POSTHOG_PERSONAL_API_KEY" = Some key
    /\ (forall email,
          PostsOnlyTo (base ++ "/api/projects/" ++ projectId config ++ "/query/")
            key (EscapingClient.getPersonByEmail host config email)
          /\ PostsOnlyTo
               (base ++ "/api/projects/" ++ projectId config ++ "/query/")
               key (ClientTs.getPersonByEmail host config email))
    /\ (forall eventName limit from to,
          PostsOnlyTo (base ++ "/api/projects/" ++ projectId config ++ "/query/")
            key (EscapingClient.getPersonsByEvent host config eventName limit
                   from to)
          /\ PostsOnlyTo
               (base ++ "/api/projects/" ++ projectId config ++ "/query/")
               key (ClientTs.getPersonsByEvent host config eventName limit
                      from to))
    /\ (forall personId limit eventType from to,
          PostsOnlyTo (base ++ "/api/projects/" ++ projectId config ++ "/query/")
            key (EscapingClient.getPersonEvents host config personId limit
                   eventType from to)
          /\ PostsOnlyTo
               (base ++ "/api/projects/" ++ projectId config ++ "/query/")
               key (ClientTs.getPersonEvents host config personId limit
                      eventType from to))
    /\ (forall email eventsLimit eventType from to,
          PostsOnlyTo (base ++ "/api/projects/" ++ projectId config ++ "/query/")
            key (EscapingClient.getPersonWithEvents host config email
                   eventsLimit eventType from to)
          /\ PostsOnlyTo
               (base ++ "/api/projects/" ++ projectId config ++ "/query/")
               key (ClientTs.getPersonWithEvents host config email
                      eventsLimit eventType from to)).
Proof.
  intros E. unfold Config.loadConfig in E.
  destruct (Config.whenTruthy (env "POSTHOG_PERSONAL_API_KEY")) as [key|] eqn:Ek;
    [|discriminate].
  destruct (Config.whenTruthy (env "POSTHOG_PROJECT_ID")) as [project|];
    [|discriminate].
  destruct (Config.isValidRegion _) as [r|]; [|discriminate].
  apply Return_inj in E. apply whenTruthy_Some in Ek. destruct Ek as [Ek _].
  exists (apiBaseUrl config), (personalApiKey config).
  split; [subst config; destruct r; auto|].
  split; [subst config; exact Ek|].
  split; [intros; split; eapply sends_posts, transported_sends;
          [apply transported_getPersonByEmail_escaping
          |apply transported_getPersonByEmail_ts]|].
  split; [intros; split; eapply sends_posts, transported_sends;
          [apply transported_getPersonsByEvent_escaping
          |apply transported_getPersonsByEvent_ts]|].
  split; [intros; split; eapply sends_posts, transported_sends;
          [apply transported_getPersonEvents_escaping
          |apply transported_getPersonEvents_ts]|].
  intros; split; eapply sends_posts, transported_sends;
    [apply transported_getPersonWithEvents_escaping
    |apply transported_getPersonWithEvents_ts].
Qed.

Lemma loaded_configuration_witness :
  exists base key,
    (base = "https://us.posthog.com" \/ base = "https://eu.posthog.com")
    /\ environment0 "POSTHOG_PERSONAL_API_KEY" = Some key
    /\ (forall email,
          PostsOnlyTo
            (base ++ "/api/projects/" ++ projectId Engine.config0 ++ "/query/")
            key
            (EscapingClient.getPersonByEmail Engine.offline Engine.config0 email)
          /\ PostsOnlyTo
               (base ++ "/api/projects/" ++ projectId Engine.config0 ++ "/query/")
               key
               (ClientTs.getPersonByEmail Engine.offline Engine.config0 email)).
Proof.
  destruct (loaded_configuration_confines_requests_to_posthog
              environment0 Engine.config0 Engine.offline eq_refl)
    as (base & key & Hb & Hk & H & _).
  exists base, key. split; [exact Hb|]. split; [exact Hk|]. exact H.
Defined.

(** ** The tool-call server *)

Ltac field_cases members :=
  repeat match goal with
         | |- context [getField ?k members] =>
             destruct (getField k members) as [[| | | | |]|]; cbn;
             try reflexivity
         end.

(** The validators let through exactly the argument objects that conform
    to the input schemas the server lists for its tools. *)
Theorem validators_accept_exactly_the_listed_schemas
  (tool : McpServer.Tool) (members : list (string * json)) :
  In tool McpServer.listTools ->
  validates (McpServer.toolName tool) (Some (JObj members))
  = conforms tool members.
Proof.
  intros [<- | [<- | [<- | []]]];
    unfold conforms, validates;
    cbn [McpServer.toolName McpServer.schemaRequired McpServer.schemaProperties
         String.eqb Ascii.eqb Bool.eqb];
    unfold McpServer.validateLookupByEmailArgs,
      McpServer.validateLookupByEventArgs,
      McpServer.validateGetPersonEventsArgs;
    cbn [McpServer.property McpServer.andThen forallb fst snd];
    field_cases members.
Qed.

Lemma validators_witness :
  validates "lookup_person_by_email"
    (Some (JObj [("email", JStr "a@example.com"); ("eventsLimit", JNum "5")]))
  = true
  /\ validates "lookup_person_by_email"
       (Some (JObj [("email", JStr "a@example.com"); ("eventType", JNull)]))
     = false.
Proof.
  split.
  - exact (validators_accept_exactly_the_listed_schemas
             (nth 0 McpServer.listTools (McpServer.mkTool "" "" [] []))
             [("email", JStr "a@example.com"); ("eventsLimit", JNum "5")]
             (or_introl eq_refl)).
  - exact (validators_accept_exactly_the_listed_schemas
             (nth 0 McpServer.listTools (McpServer.mkTool "" "" [] []))
             [("email", JStr "a@example.com"); ("eventType", JNull)]
             (or_introl eq_refl)).
Defined.

Lemma bind_lift {A B} (o : Outcome A) (k : A -> M B) (w : World) :
  bind (lift o) k w
  = match o with
    | Return a => k a w
    | Throw e => (Throw e, w)
    | OutsideType => (OutsideType, w)
    end.
Proof. unfold bind, lift. now destruct o. Qed.

Ltac args_cases args :=
  let members := fresh "members" in
  destruct args as [[| | | | |members]|]; cbn; try discriminate;
  repeat match goal with
         | |- context [getField ?k members] =>
             destruct (getField k members) as [[| | | | |]|]; cbn;
             try discriminate
         end.

Lemma validateLookupByEmailArgs_inside (args : McpServer.unknown) :
  McpServer.validateLookupByEmailArgs args <> OutsideType.
Proof.
  unfold McpServer.validateLookupByEmailArgs.
  cbn [McpServer.property McpServer.andThen]. args_cases args.
Qed.

Lemma validateLookupByEventArgs_inside (args : McpServer.unknown) :
  McpServer.validateLookupByEventArgs args <> OutsideType.
Proof.
  unfold McpServer.validateLookupByEventArgs.
  cbn [McpServer.property McpServer.andThen]. args_cases args.
Qed.

Lemma validateGetPersonEventsArgs_inside (args : McpServer.unknown) :
  McpServer.validateGetPersonEventsArgs args <> OutsideType.
Proof.
  unfold McpServer.validateGetPersonEventsArgs.
  cbn [McpServer.property McpServer.andThen]. args_cases args.
Qed.

Lemma listed_cases (name : string) :
  (name = "lookup_person_by_email" /\ listed name = true)
  \/ (name <> "lookup_person_by_email" /\ name = "lookup_persons_by_event"
      /\ listed name = true)
  \/ (name <> "lookup_person_by_email" /\ name <> "lookup_persons_by_event"
      /\ name = "get_person_events" /\ listed name = true)
  \/ (name <> "lookup_person_by_email" /\ name <> "lookup_persons_by_event"
      /\ name <> "get_person_events" /\ listed name = false).
Proof.
  unfold listed. cbn [map McpServer.listTools McpServer.toolName existsb].
  destruct (String.eqb_spec name "lookup_person_by_email") as [->|H1]; [now left|].
  right.
  destruct (String.eqb_spec name "lookup_persons_by_event") as [->|H2];
    [now left|].
  right.
  destruct (String.eqb_spec name "get_person_events") as [->|H3]; [now left|].
  right. auto.
Qed.

(** A call that the validator of its tool refuses, or that names no listed
    tool, is answered with an error result and changes nothing: no request
    is sent and the clock is not read, whatever the client.  The result
    carries the error the validator threw, or the text "Unknown tool: "
    with the name. *)
Theorem refused_tool_call_is_answered_without_any_effect
  (host : Host) (client : McpServer.PostHogClient) (name : string)
  (args : McpServer.unknown) (w : World) :
  validates name args = false ->
  exists error,
    McpServer.callTool host client name args w
    = (Return (McpServer.caught host error), w)
    /\ McpServer.isError (McpServer.caught host error) = true
    /\ (listed name = false -> error = Error ("Unknown tool: " ++ name))
    /\ (name = "lookup_person_by_email" ->
        McpServer.validateLookupByEmailArgs args = Throw error)
    /\ (name = "lookup_persons_by_event" ->
        McpServer.validateLookupByEventArgs args = Throw error)
    /\ (name = "get_person_events" ->
        McpServer.validateGetPersonEventsArgs args = Throw error).
Proof.
  intros Hv. unfold validates in Hv.
  unfold McpServer.callTool, McpServer.dispatch.
  destruct (listed_cases name)
    as [[-> Hl] | [(N1 & -> & Hl) | [(N1 & N2 & -> & Hl) | (N1 & N2 & N3 & Hl)]]].
  - cbn [String.eqb Ascii.eqb Bool.eqb] in *. rewrite bind_lift.
    pose proof (validateLookupByEmailArgs_inside args) as Hi.
    destruct (McpServer.validateLookupByEmailArgs args) as [v|e|];
      [discriminate Hv | | now destruct Hi].
    exists e. split; [reflexivity|]. split; [now destruct e|].
    split; [congruence|]. repeat split; intros; congruence.
  - cbn [String.eqb Ascii.eqb Bool.eqb] in *. rewrite bind_lift.
    pose proof (validateLookupByEventArgs_inside args) as Hi.
    destruct (McpServer.validateLookupByEventArgs args) as [v|e|];
      [discriminate Hv | | now destruct Hi].
    exists e. split; [reflexivity|]. split; [now destruct e|].
    split; [congruence|]. repeat split; intros; congruence.
  - cbn [String.eqb Ascii.eqb Bool.eqb] in *. rewrite bind_lift.
    pose proof (validateGetPersonEventsArgs_inside args) as Hi.
    destruct (McpServer.validateGetPersonEventsArgs args) as [v|e|];
      [discriminate Hv | | now destruct Hi].
    exists e. split; [reflexivity|]. split; [now destruct e|].
    split; [congruence|]. repeat split; intros; congruence.
  - apply String.eqb_neq in N1, N2, N3. rewrite N1, N2, N3.
    exists (Error ("Unknown tool: " ++ name)).
    split; [reflexivity|]. split; [reflexivity|]. split; [reflexivity|].
    apply String.eqb_neq in N1, N2, N3. repeat split; intros; congruence.
Qed.

Lemma refused_tool_call_witness :
  exists error,
    McpServer.callTool Engine.offline
      (McpServer.clientTs Engine.offline Engine.config0)
      "get_person_events" (Some (JObj [("personId", JNum "7")])) Engine.world0
    = (Return (McpServer.caught Engine.offline error), Engine.world0)
    /\ McpServer.validateGetPersonEventsArgs (Some (JObj [("personId", JNum "7")]))
       = Throw error.
Proof.
  destruct (refused_tool_call_is_answered_without_any_effect Engine.offline
              (McpServer.clientTs Engine.offline Engine.config0)
              "get_person_events" (Some (JObj [("personId", JNum "7")]))
              Engine.world0 eq_refl)
    as (error & Hc & _ & _ & _ & _ & Hv).
  exists error. split; [exact Hc | exact (Hv eq_refl)].
Defined.



(** ** Remote-API errors and requests of a tool call *)

Section ToolCalls.

Variable host : Host.
Variable config : PostHogConfig.

Lemma contract_getPersonsByEvent_escaping (eventName : string)
  (limit : option Z) (lower upper : option string) :
  ApiErrorContract host
    (EscapingClient.getPersonsByEvent host config eventName limit lower upper).
Proof.
  unfold EscapingClient.getPersonsByEvent.
  apply (contract_bind host);
    [apply (contract_buildTimestampClause_escaping host)|].
  intros clause.
  apply (contract_bind host); [apply (contract_executeQuery host config)|].
  intros result. apply (contract_ret host).
Qed.

Lemma contract_getPersonsByEvent_ts (eventName : string)
  (limit : option Z) (lower upper : option string) :
  ApiErrorContract host
    (ClientTs.getPersonsByEvent host config eventName limit lower upper).
Proof.
  unfold ClientTs.getPersonsByEvent.
  apply (contract_bind host); [apply (contract_buildTimestampClause_ts host)|].
  intros clause.
  apply (contract_bind host); [apply (contract_executeQuery host config)|].
  intros result. apply (contract_lift host).
  apply mapOutcome_notApiError. intros [i pj].
  apply (contract_properties_ts host).
Qed.

Lemma contract_getPersonWithEvents_escaping (email : string)
  (eventsLimit : option Z) (eventType lower upper : option string) :
  ApiErrorContract host
    (EscapingClient.getPersonWithEvents host config email eventsLimit eventType
       lower upper).
Proof.
  unfold EscapingClient.getPersonWithEvents.
  apply (contract_bind host);
    [apply (contract_getPersonByEmail_escaping host config)|].
  intros [p|]; [|apply (contract_ret host)].
  apply (contract_bind host);
    [apply (contract_getPersonEvents_escaping host config)|].
  intro. apply (contract_ret host).
Qed.

Lemma contract_getPersonWithEvents_ts (email : string)
  (eventsLimit : option Z) (eventType lower upper : option string) :
  ApiErrorContract host
    (ClientTs.getPersonWithEvents host config email eventsLimit eventType
       lower upper).
Proof.
  unfold ClientTs.getPersonWithEvents.
  apply (contract_bind host); [apply (contract_getPersonByEmail_ts host config)|].
  intros [p|]; [|apply (contract_ret host)].
  apply (contract_bind host); [apply (contract_getPersonEvents_ts host config)|].
  intro. apply (contract_ret host).
Qed.

Lemma contract_fails_once {A} (c : M A) (w : World) (pre post : list Request)
  (req : Request) (r : Response) :
  ApiErrorContract host c ->
  sent (snd (c w)) = (sent w ++ pre ++ req :: post)%list ->
  fetch host (sent w ++ pre)%list req = Some r ->
  ok r = false ->
  post = [] /\ fst (c w) = Throw (Error (apiErrorMessage r)).
Proof.
  intros Hc Hs Hf Hok.
  destruct (Hc w (fst (c w)) (snd (c w)) (surjective_pairing _))
    as (sentNow & Hn & Ha & _).
  rewrite Hn in Hs. apply app_inv_head in Hs.
  exact (Ha pre req post r Hs Hf Hok).
Qed.

Lemma nothing_sent (w : World) (pre post : list Request) (req : Request) :
  sent w <> (sent w ++ pre ++ req :: post)%list.
Proof.
  intros E. rewrite <- (app_nil_r (sent w)) in E at 1.
  apply app_inv_head in E. destruct pre; discriminate E.
Qed.

Lemma dispatch_fails_once (client : McpServer.PostHogClient) (name : string)
  (args : McpServer.unknown) (w : World) (pre post : list Request)
  (req : Request) (r : Response) :
  (forall eventName limit lower upper,
     ApiErrorContract host
       (McpServer.getPersonsByEvent client eventName limit lower upper)) ->
  (forall personId limit eventType lower upper,
     ApiErrorContract host
       (McpServer.getPersonEvents client personId limit eventType lower upper)) ->
  (forall email eventsLimit eventType lower upper,
     ApiErrorContract host
       (McpServer.getPersonWithEvents client email eventsLimit eventType
          lower upper)) ->
  sent (snd (McpServer.dispatch host client name args w))
  = (sent w ++ pre ++ req :: post)%list ->
  fetch host (sent w ++ pre)%list req = Some r ->
  ok r = false ->
  post = []
  /\ fst (McpServer.dispatch host client name args w)
     = Throw (Error (apiErrorMessage r)).
Proof.
  intros H1 H2 H3. unfold McpServer.dispatch.
  destruct (String.eqb name "lookup_person_by_email").
  { rewrite bind_lift.
    destruct (McpServer.validateLookupByEmailArgs args) as [v|e|]; cbn [snd];
      try (intros E; now destruct (nothing_sent _ _ _ _ E)).
    rewrite bind_lift.
    destruct (McpServer.integerArgument _) as [n|e|]; cbn [snd];
      try (intros E; now destruct (nothing_sent _ _ _ _ E)).
    apply contract_fails_once. apply (contract_bind host); [apply H3|].
    intros [[person events]|]; apply (contract_ret host). }
  destruct (String.eqb name "lookup_persons_by_event").
  { rewrite bind_lift.
    destruct (McpServer.validateLookupByEventArgs args) as [v|e|]; cbn [snd];
      try (intros E; now destruct (nothing_sent _ _ _ _ E)).
    rewrite bind_lift.
    destruct (McpServer.integerArgument _) as [n|e|]; cbn [snd];
      try (intros E; now destruct (nothing_sent _ _ _ _ E)).
    apply contract_fails_once. apply (contract_bind host); [apply H1|].
    intros persons. apply (contract_ret host). }
  destruct (String.eqb name "get_person_events").
  { rewrite bind_lift.
    destruct (McpServer.validateGetPersonEventsArgs args) as [v|e|]; cbn [snd];
      try (intros E; now destruct (nothing_sent _ _ _ _ E)).
    rewrite bind_lift.
    destruct (McpServer.integerArgument _) as [n|e|]; cbn [snd];
      try (intros E; now destruct (nothing_sent _ _ _ _ E)).
    apply contract_fails_once. apply (contract_bind host); [apply H2|].
    intros events. apply (contract_ret host). }
  unfold ret. cbn [snd]. intros E. now destruct (nothing_sent _ _ _ _ E).
Qed.

Lemma callTool_world (client : McpServer.PostHogClient) (name : string)
  (args : McpServer.unknown) (w : World) :
  snd (McpServer.callTool host client name args w)
  = snd (McpServer.dispatch host client name args w).
Proof.
  unfold McpServer.callTool.
  now destruct (McpServer.dispatch host client name args w) as [[r|e|] w1].
Qed.

Lemma callTool_caught (client : McpServer.PostHogClient) (name : string)
  (args : McpServer.unknown) (w : World) (e : JsError) :
  fst (McpServer.dispatch host client name args w) = Throw e ->
  fst (McpServer.callTool host client name args w)
  = Return (McpServer.caught host e).
Proof.
  unfold McpServer.callTool.
  destruct (McpServer.dispatch host client name args w) as [[r|e'|] w1];
    cbn [fst]; intros E; [discriminate E | now injection E as -> | discriminate E].
Qed.

Lemma callTool_fails_once (client : McpServer.PostHogClient) (name : string)
  (args : McpServer.unknown) (w : World) (pre post : list Request)
  (req : Request) (r : Response) :
  (forall eventName limit lower upper,
     ApiErrorContract host
       (McpServer.getPersonsByEvent client eventName limit lower upper)) ->
  (forall personId limit eventType lower upper,
     ApiErrorContract host
       (McpServer.getPersonEvents client personId limit eventType lower upper)) ->
  (forall email eventsLimit eventType lower upper,
     ApiErrorContract host
       (McpServer.getPersonWithEvents client email eventsLimit eventType
          lower upper)) ->
  sent (snd (McpServer.callTool host client name args w))
  = (sent w ++ pre ++ req :: post)%list ->
  fetch host (sent w ++ pre)%list req = Some r ->
  ok r = false ->
  post = []
  /\ fst (McpServer.callTool host client name args w)
     = Return (McpServer.errorResult host (apiErrorMessage r)).
Proof.
  intros H1 H2 H3 Hs Hf Hok. rewrite callTool_world in Hs.
  destruct (dispatch_fails_once client name args w pre post req r H1 H2 H3
              Hs Hf Hok) as [Hp Hd].
  split; [exact Hp|]. now rewrite (callTool_caught client name args w _ Hd).
Qed.

Lemma transported_dispatch (client : McpServer.PostHogClient) (name : string)
  (args : McpServer.unknown) :
  (forall eventName limit lower upper,
     Transported host config 1
       (McpServer.getPersonsByEvent client eventName limit lower upper)) ->
  (forall personId limit eventType lower upper,
     Transported host config 1
       (McpServer.getPersonEvents client personId limit eventType lower upper)) ->
  (forall email eventsLimit eventType lower upper,
     Transported host config 2
       (McpServer.getPersonWithEvents client email eventsLimit eventType
          lower upper)) ->
  Transported host config 2 (McpServer.dispatch host client name args)
  /\ (String.eqb name "lookup_person_by_email" = false ->
      Transported host config 1 (McpServer.dispatch host client name args)).
Proof.
  intros H1 H2 H3. unfold McpServer.dispatch.
  destruct (String.eqb name "lookup_person_by_email").
  { split; [|discriminate].
    apply (transported_bind _ _ _ _ 0 2); [apply transported_quiet, quiet_lift|].
    intros v.
    apply (transported_bind _ _ _ _ 0 2); [apply transported_quiet, quiet_lift|].
    intros n. apply (transported_bind _ _ _ _ 2 0); [apply H3|].
    intros [[person events]|]; apply transported_quiet, quiet_ret. }
  assert (Hw : forall {A} (c : M A),
             Transported host config 1 c ->
             Transported host config 2 c
             /\ (false = false -> Transported host config 1 c)).
  { intros A c H. split; [|auto].
    apply (transported_weaken host config c 1 2); [lia | exact H]. }
  destruct (String.eqb name "lookup_persons_by_event").
  { apply Hw.
    apply (transported_bind _ _ _ _ 0 1); [apply transported_quiet, quiet_lift|].
    intros v.
    apply (transported_bind _ _ _ _ 0 1); [apply transported_quiet, quiet_lift|].
    intros n. apply (transported_bind _ _ _ _ 1 0); [apply H1|].
    intros persons. apply transported_quiet, quiet_ret. }
  destruct (String.eqb name "get_person_events").
  { apply Hw.
    apply (transported_bind _ _ _ _ 0 1); [apply transported_quiet, quiet_lift|].
    intros v.
    apply (transported_bind _ _ _ _ 0 1); [apply transported_quiet, quiet_lift|].
    intros n. apply (transported_bind _ _ _ _ 1 0); [apply H2|].
    intros events. apply transported_quiet, quiet_ret. }
  apply Hw. apply transported_quiet, quiet_ret.
Qed.

Lemma transported_callTool (client : McpServer.PostHogClient) (name : string)
  (args : McpServer.unknown) (n : nat) :
  Transported host config n (McpServer.dispatch host client name args) ->
  Transported host config n (McpServer.callTool host client name args).
Proof.
  intros H w. rewrite callTool_world. apply H.
Qed.

End ToolCalls.




(** When the person is found and the time bounds format, the composed
    lookup sends exactly two requests, in this order: the person query, and
    the events query on the id of the person found, with the limit (50 when
    none is given), the event filter and the timestamp clause of the call.
    Both clients. *)
Theorem found_person_sends_the_person_query_then_the_events_query
  (host : Host) (config : PostHogConfig) (email : string)
  (eventsLimit : option Z) (eventType lower upper : option string)
  (w w1 w2 : World) (person : Person) (clause : string) :
  (EscapingClient.getPersonByEmail host config email w
   = (Return (Some person), w1) ->
   EscapingClient.buildTimestampClause host
     (mkTimeframe (Some (orDefault lower "30d")) upper) w1
   = (Return clause, w2) ->
   sent (snd (EscapingClient.getPersonWithEvents host config email eventsLimit
                eventType lower upper w))
   = (sent w
      ++ [request host config (personByEmailQuery (escapeHogQLString email));
          request host config
            (personEventsQuery (escapeHogQLString (id person))
               (eventTypeClause escapeHogQLString eventType) clause
               (orDefault eventsLimit 50))])%list)
  /\ (ClientTs.getPersonByEmail host config email w
      = (Return (Some person), w1) ->
      ClientTs.buildTimestampClause host
        (mkTimeframe (Some (orDefault lower "30d")) upper) w1
      = (Return clause, w2) ->
      sent (snd (ClientTs.getPersonWithEvents host config email eventsLimit
                   eventType lower upper w))
      = (sent w
         ++ [request host config (personByEmailQuery (replaceQuotes email));
             request host config
               (personEventsQuery (replaceQuotes (id person))
                  (eventTypeClause replaceQuotes eventType) clause
                  (orDefault eventsLimit 50))])%list).
Proof.
  split; intros E Ec.
  - pose proof (getPersonByEmail_escapes host config email w) as H1.
    rewrite E in H1. cbn [snd] in H1.
    pose proof (silent_buildTimestampClause_escaping host
                  (mkTimeframe (Some (orDefault lower "30d")) upper) w1) as H2.
    rewrite Ec in H2. cbn [snd] in H2.
    pose proof (getPersonEvents_escaping_run host config (id person) eventsLimit
                  eventType lower upper w1) as Hrun.
    rewrite Ec in Hrun.
    unfold EscapingClient.getPersonWithEvents.
    rewrite (bind_return _ _ _ _ _ E). unfold bind at 1. rewrite Hrun.
    match goal with
    | |- context [bind (executeQuery host config row3 ?q) ?k w2] =>
        pose proof (sent_after_query host config row3 q k w2
                      (fun r => silent_ret _)) as H3;
        destruct (bind (executeQuery host config row3 q) k w2) as [[events| |] w3]
    end; cbn [snd] in *; unfold ret; cbn [snd];
      rewrite H3, H2, H1, <- app_assoc; reflexivity.
  - pose proof (getPersonByEmail_ts_request host config email w) as H1.
    rewrite E in H1. cbn [snd] in H1.
    pose proof (silent_buildTimestampClause_ts host
                  (mkTimeframe (Some (orDefault lower "30d")) upper) w1) as H2.
    rewrite Ec in H2. cbn [snd] in H2.
    pose proof (getPersonEvents_ts_run host config (id person) eventsLimit
                  eventType lower upper w1) as Hrun.
    rewrite Ec in Hrun.
    unfold ClientTs.getPersonWithEvents.
    rewrite (bind_return _ _ _ _ _ E). unfold bind at 1. rewrite Hrun.
    match goal with
    | |- context [bind (executeQuery host config row3 ?q) ?k w2] =>
        pose proof (sent_after_query host config row3 q k w2
                      (fun r => silent_lift _)) as H3;
        destruct (bind (executeQuery host config row3 q) k w2) as [[events| |] w3]
    end; cbn [snd] in *; unfold ret; cbn [snd];
      rewrite H3, H2, H1, <- app_assoc; reflexivity.
Qed.

(** The remote end finds the person [p1]: the composed lookup sends the
    person query and then the events query on [p1] with the default bound. *)
Lemma found_person_witness :
  sent (snd (EscapingClient.getPersonWithEvents Engine.personThenEvents
               Engine.config0 "a@example.com" None None None None Engine.world0))
  = [request Engine.personThenEvents Engine.config0
       (personByEmailQuery "a@example.com");
     request Engine.personThenEvents Engine.config0
       (personEventsQuery "p1" ""
          " AND timestamp >= '2023-10-15 22:13:20.000'" 50)].
Proof.
  apply (proj1 (found_person_sends_the_person_query_then_the_events_query
                  Engine.personThenEvents Engine.config0 "a@example.com"
                  None None None None Engine.world0
                  (mkWorld 0 [request Engine.personThenEvents Engine.config0
                                (personByEmailQuery "a@example.com")] [])
                  (mkWorld 1 [request Engine.personThenEvents Engine.config0
                                (personByEmailQuery "a@example.com")] [])
                  (mkPerson "p1" [] (JObj []))
                  " AND timestamp >= '2023-10-15 22:13:20.000'"));
    vm_compute; reflexivity.
Defined.
